(** * Dust: a shallow embedding of selected functions and their properties

    The development follows the TypeScript sources of the repository:
    the Zendesk connector's internal-id helpers, the browser extension's
    file uploader hook, the conversation "include file" action, the dataset
    accessors, the API authentication wrappers and the plan subscription
    functions.  Every source file gets a module of definitions; the
    properties follow in a second part, module by module. *)

From Stdlib Require Import ZArith QArith Ascii String List Lia Bool.
From stdpp Require Import base option list strings pretty gmap.

Local Open Scope Z_scope.

(** ** JavaScript primitives used by the sources *)

Module JS.

(** A [number] that holds an integer, [NaN], or an infinity.  The ids, sizes
    and counts of the modelled code are integers; an integer is a number when
    a double holds it, as every integer up to [MAX_SAFE_INTEGER] is. *)
Inductive number : Type :=
| NaN : number
| Num (z : Z) : number
| Infinity (negative : bool) : number.

(** [Number.MAX_SAFE_INTEGER]: up to here every integer is a number. *)
Definition MAX_SAFE_INTEGER : Z := 2 ^ 53 - 1.

(** The number nearest to an integer: the integer itself below 2^53; beyond,
    the nearest [m * 2^e] with [m] below 2^53, the even [m] on a tie, and an
    infinity when that reaches 2^1024. *)
Definition toNumber (z : Z) : number :=
  let a := Z.abs z in
  if a <? 2 ^ 53 then Num z
  else
    let e := Z.log2 a - 52 in
    let q := a / 2 ^ e in
    let r := a mod 2 ^ e in
    let half := 2 ^ (e - 1) in
    let m :=
      if r <? half then q
      else if half <? r then q + 1
      else if Z.even q then q else q + 1 in
    if 2 ^ 1024 <=? m * 2 ^ e then Infinity (z <? 0)
    else Num (Z.sgn z * (m * 2 ^ e)).

(** A string of digits without its trailing zeros. *)
Fixpoint stripZeros (s : string) : string :=
  match s with
  | EmptyString => EmptyString
  | String c s' =>
      match stripZeros s' with
      | EmptyString => if Ascii.eqb c "0" then EmptyString else String c EmptyString
      | t => String c t
      end
  end.

(** The exponent form of a number written with the given digits: the first
    digit, the further digits without their trailing zeros after a point when
    there are any, [e+] and the exponent. *)
Definition exponentForm (negative : bool) (digits : string) : string :=
  match digits with
  | EmptyString => EmptyString
  | String first rest =>
      (if negative then "-" else "")
      +:+ String first
            (match stripZeros rest with
             | EmptyString => EmptyString
             | fraction => "." +:+ fraction
             end)
      +:+ "e+" +:+ pretty (Z.of_nat (String.length rest))
  end.

(** Template-literal conversion [`${n}`] of an integer-valued number: below
    10^21 its decimal digits, with a leading minus sign when negative, and
    from 10^21 on its exponent form.  The digits are those of the integer:
    they are what JavaScript prints for every safe integer and for every
    number with at most 15 significant digits, such as 10^21; for the other
    numbers from 2^53 on JavaScript prints the fewest digits that read back as
    the same number. *)
Definition numberToString (n : Z) : string :=
  if Z.abs n <? 10 ^ 21 then pretty n
  else exponentForm (n <? 0) (pretty (Z.abs n)).

(** [s.startsWith(p)]. *)
Definition startsWith (s p : string) : bool := String.prefix p s.

Fixpoint dropChars (n : nat) (s : string) : string :=
  match n, s with
  | O, _ => s
  | S _, EmptyString => EmptyString
  | S n', String _ s' => dropChars n' s'
  end.

(** [s.replace(pat, rep)] with a string pattern: only the leftmost occurrence
    of [pat] is replaced. *)
Fixpoint replace (s pat rep : string) : string :=
  if String.prefix pat s then rep +:+ dropChars (String.length pat) s
  else match s with
       | EmptyString => EmptyString
       | String c s' => String c (replace s' pat rep)
       end.

(** White space skipped by [parseInt], among the code units below 256. *)
Definition isWhiteSpace (c : ascii) : bool :=
  let n := N_of_ascii c in
  orb (andb (9 <=? n)%N (n <=? 13)%N) (orb (n =? 32)%N (n =? 160)%N).

Fixpoint trimStart (s : string) : string :=
  match s with
  | String c s' => if isWhiteSpace c then trimStart s' else s
  | EmptyString => EmptyString
  end.

(** The value of a character as a digit in the given radix (10 or 16). *)
Definition digitValue (radix : Z) (c : ascii) : option Z :=
  let n := Z.of_N (N_of_ascii c) in
  let v :=
    if andb (48 <=? n) (n <=? 57) then Some (n - 48)
    else if andb (97 <=? n) (n <=? 122) then Some (n - 87)
    else if andb (65 <=? n) (n <=? 90) then Some (n - 55)
    else None in
  match v with
  | Some d => if d <? radix then Some d else None
  | None => None
  end.

(** The longest prefix of [s] made of digits of the radix. *)
Fixpoint digitsPrefix (radix : Z) (s : string) : list Z :=
  match s with
  | EmptyString => []
  | String c s' =>
      match digitValue radix c with
      | Some d => d :: digitsPrefix radix s'
      | None => []
      end
  end.

Definition digitsValue (radix : Z) (acc : Z) (ds : list Z) : Z :=
  fold_left (fun a d => a * radix + d) ds acc.

(** [parseInt(s)] without a radix argument: leading white space, an optional
    sign, an optional [0x] / [0X] prefix selecting radix 16, then the longest
    run of digits; [NaN] when that run is empty, and otherwise the number
    nearest to the integer that the digits write (an implementation may read
    decimal digits after the 20th as zeros). *)
Definition parseInt (s : string) : number :=
  let s1 := trimStart s in
  let '(sign, s2) :=
    match s1 with
    | String "-"%char r => (-1, r)
    | String "+"%char r => (1, r)
    | _ => (1, s1)
    end in
  let '(radix, s3) :=
    match s2 with
    | String "0"%char (String "x"%char r) => (16, r)
    | String "0"%char (String "X"%char r) => (16, r)
    | _ => (10, s2)
    end in
  match digitsPrefix radix s3 with
  | [] => NaN
  | ds => toNumber (sign * digitsValue radix 0 ds)
  end.

(** The double-quote character, as a string. *)
Definition dquote : string := String (ascii_of_nat 34) EmptyString.

(** [x || null] on a nullable string: the empty string is falsy. *)
Definition orNull (x : option string) : option string :=
  match x with
  | Some s => if String.eqb s "" then None else Some s
  | None => None
  end.

(** Truthiness of a nullable string. *)
Definition truthy (x : option string) : bool :=
  match orNull x with Some _ => true | None => false end.

End JS.

(** ** connectors: Zendesk internal ids *)

Module Zendesk.
Import JS.

(** [ModelId] is a [number]. *)
Definition ModelId : Type := Z.

Definition getBrandInternalId (connectorId : ModelId) (brandId : Z) : string :=
  "zendesk-brand-" +:+ numberToString connectorId +:+ "-" +:+ numberToString brandId.

Definition getHelpCenterInternalId (connectorId : ModelId) : string :=
  "zendesk-help-center-" +:+ numberToString connectorId.

Definition getCategoryInternalId (connectorId : ModelId) (categoryId : Z) : string :=
  "zendesk-category-" +:+ numberToString connectorId +:+ "-" +:+ numberToString categoryId.

Definition getArticleInternalId (connectorId : ModelId) (articleId : Z) : string :=
  "zendesk-article-" +:+ numberToString connectorId +:+ "-" +:+ numberToString articleId.

Definition getTicketsInternalId (connectorId : ModelId) : string :=
  "zendesk-tickets-" +:+ numberToString connectorId.

Definition getTicketInternalId (connectorId : ModelId) (teamId : Z) : string :=
  "zendesk-ticket-" +:+ numberToString connectorId +:+ "-" +:+ numberToString teamId.

Definition getConversationInternalId (connectorId : ModelId) (conversationId : Z) : string :=
  "zendesk-category-" +:+ numberToString connectorId +:+ "-" +:+ numberToString conversationId.

(** [number | null]: [None] is [null]. *)
Definition _getIdFromInternal (internalId prefix : string) : option number :=
  if startsWith internalId prefix
  then Some (parseInt (replace internalId prefix ""))
  else None.

Definition getBrandIdFromInternalId (connectorId : ModelId) (internalId : string) : option number :=
  _getIdFromInternal internalId ("zendesk-brand-" +:+ numberToString connectorId +:+ "-").

Definition isInternalIdOnWholeHelpCenter (connectorId : ModelId) (internalId : string) : bool :=
  String.eqb internalId ("zendesk-help-center-" +:+ numberToString connectorId).

Definition getCategoryIdFromInternalId (connectorId : ModelId) (internalId : string) : option number :=
  _getIdFromInternal internalId ("zendesk-category-" +:+ numberToString connectorId +:+ "-").

Definition getArticleIdFromInternalId (connectorId : ModelId) (internalId : string) : option number :=
  _getIdFromInternal internalId ("zendesk-article-" +:+ numberToString connectorId +:+ "-").

Definition isInternalIdOnAllTickets (connectorId : ModelId) (internalId : string) : bool :=
  String.eqb internalId ("zendesk-tickets-" +:+ numberToString connectorId).

Definition getTicketIdFromInternalId (connectorId : ModelId) (internalId : string) : option number :=
  _getIdFromInternal internalId ("zendesk-ticket-" +:+ numberToString connectorId +:+ "-").

End Zendesk.

(** ** Results shared by the sources: [Ok] and [Err] *)

Inductive Result (T E : Type) : Type :=
| Ok (value : T) : Result T E
| Err (error : E) : Result T E.
Arguments Ok {T E} value.
Arguments Err {T E} error.

Definition isErr {T E : Type} (r : Result T E) : bool :=
  match r with Ok _ => false | Err _ => true end.

(** ** extension: the file uploader hook ([useFileUploaderService]) *)

Module FileUploader.
Import JS.

(** The helpers imported from [@dust-tt/client]. *)
Class Client : Type := {
  isSupportedFileContentType : string -> bool;
  isSupportedImageContentType : string -> bool
}.

(** The Dust API client of the hook: [dustAPI.uploadFile]. *)
Record FileUploaded : Type := {
  uploaded_id : string;
  downloadUrl : string;
  uploaded_publicUrl : option string
}.

(** A browser [File]: [file.name], [file.type], [file.size].  Sizes are byte
    counts, and the sums and comparisons that the hook makes on them are exact
    as long as they are below 2^53; above, a sum is past both limits in
    JavaScript as it is here. *)
Record File : Type := {
  name : string;
  type : string;
  file_size : Z
}.

Record UploadFileParams : Type := {
  param_contentType : string;
  fileName : string;
  fileSize : Z;
  useCase : string;
  fileObject : File
}.

Definition DustAPI : Type := UploadFileParams -> Result FileUploaded string.

Record FileBlob : Type := {
  contentType : string;
  file : File;
  filename : string;
  id : string;
  fileId : option string;
  isUploading : bool;
  preview : option string;
  size : Z;
  publicUrl : option string
}.

Inductive FileBlobUploadErrorCode : Type :=
| failed_to_upload_file
| file_type_not_supported.

Record FileBlobUploadError : Type := {
  code : FileBlobUploadErrorCode;
  error_file : File;
  message : string
}.

Definition MAX_FILE_SIZES_plainText : Z := 30 * 1024 * 1024.
Definition MAX_FILE_SIZES_image : Z := 5 * 1024 * 1024.

Definition COMBINED_MAX_TEXT_FILES_SIZE : Z := MAX_FILE_SIZES_plainText * 2.
Definition COMBINED_MAX_IMAGE_FILES_SIZE : Z := MAX_FILE_SIZES_image * 5.

Record Notification : Type := {
  notification_type : string;
  title : string;
  description : string
}.

(** What the hook does to the outside: notifications, uploads through the API
    client, and the [DELETE] request of [removeFile]. *)
Inductive Effect : Type :=
| Notify (n : Notification)
| Upload (p : UploadFileParams)
| FetchDelete (url : string).

(** The two [useState] cells. *)
Record State : Type := {
  fileBlobs : list FileBlob;
  isProcessingFiles : bool
}.

Definition initialState : State := {| fileBlobs := []; isProcessingFiles := false |}.

(** A computation of the hook: it updates the state cells and appends to the
    log of effects. *)
Definition Hook (A : Type) : Type := State * list Effect -> A * (State * list Effect).

#[export] Instance Hook_ret : MRet Hook := fun A a w => (a, w).
#[export] Instance Hook_bind : MBind Hook :=
  fun A B f m w => let '(a, w') := m w in f a w'.

(** [setFileBlobs(prevFiles => ...)] *)
Definition setFileBlobs (update : list FileBlob -> list FileBlob) : Hook unit :=
  fun '(st, log) =>
    (tt, ({| fileBlobs := update (fileBlobs st);
             isProcessingFiles := isProcessingFiles st |}, log)).

Definition setIsProcessingFiles (b : bool) : Hook unit :=
  fun '(st, log) =>
    (tt, ({| fileBlobs := fileBlobs st; isProcessingFiles := b |}, log)).

Definition emit (e : Effect) : Hook unit :=
  fun '(st, log) => (tt, (st, log ++ [e])).

Definition sendNotification (n : Notification) : Hook unit := emit (Notify n).

(** [array.reduce] / [array.forEach] with a callback that has effects. *)
Fixpoint reduceM {A B : Type} (f : B -> A -> Hook B) (l : list A) (acc : B) : Hook B :=
  match l with
  | [] => mret acc
  | x :: r => acc' ← f acc x; reduceM f r acc'
  end.

Definition createFileBlob (f : File) (contentType : string) (preview : option string) : FileBlob :=
  {| contentType := contentType;
     file := f;
     filename := name f;
     id := name f;
     fileId := None;
     isUploading := true;
     preview := preview;
     size := file_size f;
     publicUrl := None |}.

(** A JavaScript [Map] from blob ids to blobs, in insertion order: [set] on a
    key that is present replaces the value where it stands. *)
Fixpoint mapSet (k : string) (v : FileBlob) (m : list (string * FileBlob)) : list (string * FileBlob) :=
  match m with
  | [] => [(k, v)]
  | (k', v') :: r => if String.eqb k' k then (k, v) :: r else (k', v') :: mapSet k v r
  end.

Definition newMap (entries : list (string * FileBlob)) : list (string * FileBlob) :=
  fold_left (fun m e => mapSet (fst e) (snd e) m) entries [].

Definition mapValues (m : list (string * FileBlob)) : list FileBlob := map snd m.

Section Service.
Context `{Client}.
(** The closure of one render: [owner], the API client and the values of the
    state cells the render saw. *)
Variable owner_sId : string.
Variable dustAPI : DustAPI.
Variable closure : State.

Definition alreadyExists (f : File) : bool :=
  existsb (fun b => String.eqb (id b) (name f)) (fileBlobs closure).

Definition processSelectedFiles (selectedFiles : list File)
  : Hook (list (Result FileBlob FileBlobUploadError)) :=
  reduceM
    (fun acc f =>
       if alreadyExists f then
         _ ← sendNotification
               {| notification_type := "error";
                  title := "File already exists.";
                  description := "File " +:+ dquote +:+ name f +:+ dquote +:+ " is already uploaded." |};
         mret acc
       else
         let contentType := type f in
         if negb (isSupportedFileContentType contentType) then
           mret (acc ++ [Err {| code := file_type_not_supported;
                               error_file := f;
                               message := "File " +:+ dquote +:+ name f +:+ dquote +:+ " is not supported." |}])
         else
           mret (acc ++ [Ok (createFileBlob f contentType None)]))
    selectedFiles [].

(** One upload of [uploadFiles]: the request to the server, then the blob
    completed with what the server returned. *)
Definition uploadFile (fileBlob : FileBlob) : Hook (Result FileBlob FileBlobUploadError) :=
  let params :=
    {| param_contentType := contentType fileBlob;
       fileName := filename fileBlob;
       fileSize := size fileBlob;
       useCase := "conversation";
       fileObject := file fileBlob |} in
  _ ← emit (Upload params);
  match dustAPI params with
  | Err error =>
      mret (Err {| code := failed_to_upload_file;
                   error_file := file fileBlob;
                   message := error |})
  | Ok fileUploaded =>
      mret (Ok {| contentType := contentType fileBlob;
                  file := file fileBlob;
                  filename := filename fileBlob;
                  id := id fileBlob;
                  fileId := Some (uploaded_id fileUploaded);
                  isUploading := false;
                  preview :=
                    if isSupportedImageContentType (contentType fileBlob)
                    then Some (downloadUrl fileUploaded +:+ "?action=view")
                    else None;
                  size := size fileBlob;
                  publicUrl := uploaded_publicUrl fileUploaded |})
  end.

Definition uploadFiles (newFileBlobs : list FileBlob)
  : Hook (list (Result FileBlob FileBlobUploadError)) :=
  reduceM (fun acc b => r ← uploadFile b; mret (acc ++ [r])) newFileBlobs [].

(** The two state updates of [processResults]. *)
Definition dropErrored (erroredBlobs : list FileBlobUploadError) (prevFiles : list FileBlob)
  : list FileBlob :=
  List.filter
    (fun f => negb (existsb (fun e => String.eqb (name (error_file e)) (id f)) erroredBlobs))
    prevFiles.

Definition mergeSuccessful (successfulBlobs prevFiles : list FileBlob) : list FileBlob :=
  let fileBlobMap := newMap (map (fun blob => (id blob, blob)) prevFiles) in
  mapValues (fold_left (fun m blob => mapSet (id blob) blob m) successfulBlobs fileBlobMap).

Definition processResults (results : list (Result FileBlob FileBlobUploadError))
    (updateBlobs : option bool) : Hook (list FileBlob) :=
  let updateBlobs := default true updateBlobs in
  '(successfulBlobs, erroredBlobs) ←
    reduceM
      (fun '(successfulBlobs, erroredBlobs) result =>
         match result with
         | Err error =>
             _ ← sendNotification
                   {| notification_type := "error";
                      title := "Failed to upload file.";
                      description := message error |};
             mret (successfulBlobs, erroredBlobs ++ [error])
         | Ok value => mret (successfulBlobs ++ [value], erroredBlobs)
         end)
      results ([], []);
  _ ← (if updateBlobs then
         _ ← (if (0 <? length erroredBlobs)%nat
              then setFileBlobs (dropErrored erroredBlobs) else mret tt);
         if (0 <? length successfulBlobs)%nat
         then setFileBlobs (mergeSuccessful successfulBlobs) else mret tt
       else mret tt);
  mret successfulBlobs.

(** The reducer of [handleFilesUpload] over [[...fileBlobs, ...files]]: the
    pair (totalTextualSize, totalImageSize). *)
Definition contentTypeOf (content : FileBlob + File) : string :=
  match content with inl blob => contentType blob | inr f => type f end.

Definition sizeOf (content : FileBlob + File) : Z :=
  match content with inl blob => size blob | inr f => file_size f end.

Definition totalSizes (contents : list (FileBlob + File)) : Z * Z :=
  fold_left
    (fun '(totalTextualSize, totalImageSize) content =>
       if isSupportedImageContentType (contentTypeOf content)
       then (totalTextualSize, totalImageSize + sizeOf content)
       else (totalTextualSize + sizeOf content, totalImageSize))
    contents (0, 0).

Definition filesTooLarge : Notification :=
  {| notification_type := "error";
     title := "Files too large.";
     description := "Combined file sizes exceed the limits. Please upload smaller files." |}.

(** [handleFilesUpload(files, updateBlobs)]; [None] is the [undefined] of the
    early return. *)
Definition handleFilesUpload (files : list File) (updateBlobs : option bool)
  : Hook (option (list FileBlob)) :=
  _ ← setIsProcessingFiles true;
  let '(totalTextualSize, totalImageSize) :=
    totalSizes (map inl (fileBlobs closure) ++ map inr files) in
  if (COMBINED_MAX_TEXT_FILES_SIZE <? totalTextualSize)
     || (COMBINED_MAX_IMAGE_FILES_SIZE <? totalImageSize)
  then
    _ ← sendNotification filesTooLarge;
    mret None
  else
    previewResults ← processSelectedFiles files;
    newFileBlobs ← processResults previewResults updateBlobs;
    uploadResults ← uploadFiles newFileBlobs;
    finalFileBlobs ← processResults uploadResults updateBlobs;
    _ ← setIsProcessingFiles false;
    mret (Some finalFileBlobs).

Definition removeFile (fileId' : string) : Hook unit :=
  match find (fun f => String.eqb (id f) fileId') (fileBlobs closure) with
  | Some fileBlob =>
      _ ← setFileBlobs
            (List.filter (fun f => negb (bool_decide (fileId f = fileId fileBlob))));
      _ ← emit (FetchDelete ("/api/w/" +:+ owner_sId +:+ "/files/"
                             +:+ default "null" (fileId fileBlob)));
      let allFilesReady := forallb (fun f => negb (isUploading f)) (fileBlobs closure) in
      if allFilesReady && isProcessingFiles closure
      then setIsProcessingFiles false
      else mret tt
  | None => mret tt
  end.

Definition resetUpload : Hook unit := setFileBlobs (fun _ => []).

End Service.

(** The calls a user of the hook can make. *)
Inductive Operation : Type :=
| HandleFilesUpload (dustAPI : DustAPI) (files : list File) (updateBlobs : option bool)
| RemoveFile (fileId : string)
| ResetUpload.

(** One call, made from the render whose closure holds [closure]. *)
Definition perform `{Client} (owner_sId : string) (closure : State) (op : Operation)
    (w : State * list Effect) : State * list Effect :=
  match op with
  | HandleFilesUpload dustAPI files updateBlobs =>
      snd (handleFilesUpload dustAPI closure files updateBlobs w)
  | RemoveFile fileId => snd (removeFile owner_sId closure fileId w)
  | ResetUpload => snd (resetUpload w)
  end.

(** A sequence of calls, each made once the component has rendered again:
    the closure of a call holds the state the previous call left. *)
Definition run `{Client} (owner_sId : string) (ops : list Operation)
    (w : State * list Effect) : State * list Effect :=
  fold_left (fun w op => perform owner_sId (fst w) op w) ops w.

(** A sequence of calls made from any renders, also stale ones: each call
    comes with the values its closure holds. *)
Definition runFrom `{Client} (owner_sId : string) (calls : list (State * Operation))
    (w : State * list Effect) : State * list Effect :=
  fold_left (fun w call => perform owner_sId (fst call) (snd call) w) calls w.


End FileUploader.

(** ** front: the conversation "include file" action *)

Module IncludeFile.
Import JS.

(** The members of [SupportedContentFragmentType]. *)
Inductive SupportedContentFragmentType : Type :=
| application_msword
| application_vnd_openxmlformats_officedocument_wordprocessingml_document
| application_pdf
| text_comma_separated_values
| text_csv
| text_markdown
| text_plain
| text_tab_separated_values
| text_tsv
| image_jpeg
| image_png
| dust_application_slack.

(** Modelled from the spec: [isSupportedImageContentType] lives in
    [@dust-tt/types], which is not among the sources.  It is the type guard of
    the image content types; the image members of the enumeration are
    [image/jpeg] and [image/png], the two that the exhaustive [switch] of
    [isConversationIncludableFileContentType] leaves to it. *)
Definition isSupportedImageContentType (contentType : SupportedContentFragmentType) : bool :=
  match contentType with
  | image_jpeg | image_png => true
  | _ => false
  end.

Definition isConversationIncludableFileContentType
    (contentType : SupportedContentFragmentType) : bool :=
  if isSupportedImageContentType contentType then false
  else
    match contentType with
    | application_msword
    | application_vnd_openxmlformats_officedocument_wordprocessingml_document
    | application_pdf
    | text_markdown
    | text_plain
    | dust_application_slack => true
    | text_comma_separated_values
    | text_csv
    | text_tab_separated_values
    | text_tsv => false
    (* [default: assertNever(contentType)]: no member reaches it. *)
    | image_jpeg | image_png => false
    end.

Record ContentFragmentType : Type := {
  sId : string;
  title : string;
  contentType : SupportedContentFragmentType;
  fileId : option string
}.

(** The messages of a conversation; only content fragments are looked into. *)
Inductive MessageType : Type :=
| UserMessage (sId : string)
| AgentMessage (sId : string)
| ContentFragment (m : ContentFragmentType).

Definition isContentFragmentType (m : MessageType) : bool :=
  match m with ContentFragment _ => true | _ => false end.

Record ConversationType : Type := {
  content : list (list MessageType)
}.

Record ModelConfigurationType : Type := {
  providerId : string;
  modelId : string;
  contextSize : Z
}.

(** The parts of a rendered message.  [isTextContent], the type guard of
    [@dust-tt/types] for the first of the two, is the match on the
    constructor. *)
Inductive Content : Type :=
| TextContent (text : string)
| ImageContent (image_url : string).

Record ContentFragmentMessageTypeModel : Type := {
  rendered_name : string;
  rendered_content : list Content
}.

(** What the action calls outside this file: the renderer of content fragments
    and the tokenizer of the core API.  Errors are taken as the text that the
    template literal makes of them. *)
Class Services : Type := {
  renderContentFragmentForModel :
    ContentFragmentType -> ConversationType -> ModelConfigurationType ->
    forall excludeImages : bool, Result ContentFragmentMessageTypeModel string;
  tokenize :
    forall (text providerId modelId : string), Result (list Z) string
}.

Record ConversationIncludeFileAction : Type := {
  id : Z;
  agentMessageId : Z;
  params_fileId : string;
  functionCallId : option string;
  functionCallName : option string;
  step : Z
}.

Record FunctionMessageTypeModel : Type := {
  role : string;
  name : string;
  function_call_id : string;
  message_content : string
}.

(** A call either returns or throws. *)
Inductive Completion (A : Type) : Type :=
| Returns (a : A) : Completion A
| Throws : Completion A.
Arguments Returns {A} a.
Arguments Throws {A}.

Definition CONTEXT_SIZE_DIVISOR_FOR_INCLUDE : positive := 4.

Section Action.
Context `{Services}.
Variable this : ConversationIncludeFileAction.

Definition finalize (content : string) : FunctionMessageTypeModel :=
  {| role := "function";
     name := default "include_conversation_file" (functionCallName this);
     function_call_id := default ("call_" +:+ numberToString (id this)) (functionCallId this);
     message_content := content |}.

(** The callback of [find]. *)
Definition wanted (m : MessageType) : bool :=
  match m with
  | ContentFragment m =>
      isConversationIncludableFileContentType (contentType m)
      && bool_decide (fileId m = Some (params_fileId this))
  | _ => false
  end.

(** [conversation.content.flat(1).find(...) || null], as a content fragment. *)
Definition findFragment (conversation : ConversationType) : option ContentFragmentType :=
  match find wanted (concat (content conversation)) with
  | Some (ContentFragment m) => Some m
  | _ => None
  end.

(** [tokens.length > model.contextSize / CONTEXT_SIZE_DIVISOR_FOR_INCLUDE] *)
Definition tooManyTokens (tokens : list Z) (model : ModelConfigurationType) : bool :=
  negb (Qle_bool (inject_Z (Z.of_nat (length tokens)))
                 (contextSize model # CONTEXT_SIZE_DIVISOR_FOR_INCLUDE)).

Definition renderForMultiActionsModel (conversation : ConversationType)
    (model : ModelConfigurationType) : Completion FunctionMessageTypeModel :=
  match findFragment conversation with
  | None =>
      Returns (finalize ("Error: File `" +:+ params_fileId this
                         +:+ "` not found in conversation"))
  | Some m =>
      match renderContentFragmentForModel m conversation model true with
      | Err error => Returns (finalize ("Error: " +:+ error))
      | Ok value =>
          match rendered_content value with
          | [] => Throws (* the type guard reads a property of [undefined] *)
          | c :: _ =>
              match c with
              | ImageContent _ =>
                  Returns (finalize ("Error: File `" +:+ params_fileId this
                                     +:+ "` has no text content"))
              | TextContent text =>
                  match tokenize text (providerId model) (modelId model) with
                  | Err error => Returns (finalize ("Error: " +:+ error))
                  | Ok tokens =>
                      if tooManyTokens tokens model then
                        Returns (finalize
                          ("Error: File `" +:+ params_fileId this
                           +:+ "` has too many tokens to be included, use semantic search instead."))
                      else Returns (finalize text)
                  end
              end
          end
      end
  end.

End Action.

End IncludeFile.

(** ** front: dataset accessors ([lib/api/datasets.ts]) *)

Module Datasets.

Record WorkspaceType : Type := {
  workspace_id : Z;
  workspace_sId : string
}.

(** What the accessors read of an [Authenticator]. *)
Record Authenticator : Type := {
  workspace : option WorkspaceType
}.

Record AppType : Type := {
  internalId : Z;
  dustAPIProjectId : string
}.

(** A row of the [Dataset] model. *)
Record Dataset : Type := {
  workspaceId : Z;
  appId : Z;
  dataset_name : string;
  dataset_description : option string
}.

(** The rows of a dataset, as the core API returns them. *)
Definition DatasetData : Type := list string.

(** [DatasetType]; [data] is optional. *)
Record DatasetType : Type := {
  name : string;
  description : option string;
  data : option DatasetData
}.

(** An entry of the list that the core API keeps for a dataset name. *)
Record DatasetVersion : Type := {
  hash : string;
  created : Z
}.

(** The two calls to the core API, [DustAPI.getDatasets] and
    [DustAPI.getDataset]; the response of the first is an object whose own
    properties are the dataset names, each with the list of its versions. *)
Class DustAPI : Type := {
  getDatasets : forall projectId : string, Result (gmap string (list DatasetVersion)) string;
  getDataset : forall (projectId datasetName hash : string), Result DatasetData string
}.

(** What reading a property of that object gives: the list of versions for an
    own property; for a property inherited from [Object.prototype] a function,
    with the [length] it has, or for [__proto__] the prototype itself. *)
Inductive Property : Type :=
| versions (entries : list DatasetVersion)
| method (arity : Z)
| prototype.

(** The properties of [Object.prototype]. *)
Definition objectPrototype : list (string * Property) :=
  [ ("constructor", method 1);
    ("__defineGetter__", method 2);
    ("__defineSetter__", method 2);
    ("hasOwnProperty", method 1);
    ("__lookupGetter__", method 1);
    ("__lookupSetter__", method 1);
    ("isPrototypeOf", method 1);
    ("propertyIsEnumerable", method 1);
    ("toString", method 0);
    ("valueOf", method 0);
    ("__proto__", prototype);
    ("toLocaleString", method 0) ].

(** [datasets[key]]: the own property, or else the inherited one; [None] is
    [undefined].  [key in datasets] holds when there is one or the other. *)
Definition getProperty (datasets : gmap string (list DatasetVersion)) (key : string)
  : option Property :=
  match datasets !! key with
  | Some entries => Some (versions entries)
  | None => snd <$> find (fun property => String.eqb (fst property) key) objectPrototype
  end.

(** [value.length]; [None] is [undefined]. *)
Definition lengthOf (value : Property) : option Z :=
  match value with
  | versions entries => Some (Z.of_nat (length entries))
  | method arity => Some arity
  | prototype => None
  end.

(** [value[0]]; [None] is [undefined]. *)
Definition first (value : Property) : option DatasetVersion :=
  match value with
  | versions (version :: _) => Some version
  | _ => None
  end.

(** What a call does: it returns a value, or it throws a [TypeError]. *)
Inductive Completion (A : Type) : Type :=
| Returned (value : A) : Completion A
| ThrowsTypeError : Completion A.
Arguments Returned {A} value.
Arguments ThrowsTypeError {A}.

(** [Dataset.findOne({ where: { workspaceId, appId, name } })] on the table. *)
Definition findOne (table : list Dataset) (workspaceId' appId' : Z) (name' : string)
  : option Dataset :=
  find (fun d => (workspaceId d =? workspaceId') && (appId d =? appId')
                 && String.eqb (dataset_name d) name') table.

Section Accessors.
Context `{DustAPI}.
Variable table : list Dataset.

(** [getDatasetHash]; [None] is [null].  Reading [.hash] of [undefined]
    throws. *)
Definition getDatasetHash (auth : Authenticator) (app : AppType) (name' hash : string)
  : Completion (option DatasetType) :=
  match workspace auth with
  | None => Returned None
  | Some owner =>
      match findOne table (workspace_id owner) (internalId app) name' with
      | None => Returned None
      | Some dataset =>
          let fetch (hash : string) : Completion (option DatasetType) :=
            match getDataset (dustAPIProjectId app) (dataset_name dataset) hash with
            | Err _ => Returned None
            | Ok apiDataset =>
                Returned (Some {| name := dataset_name dataset;
                                  description := dataset_description dataset;
                                  data := Some apiDataset |})
            end in
          (* Translate latest if needed. *)
          if String.eqb hash "latest" then
            match getDatasets (dustAPIProjectId app) with
            | Err _ => Returned None
            | Ok datasets =>
                match getProperty datasets (dataset_name dataset) with
                | None => Returned None
                | Some value =>
                    match lengthOf value with
                    | Some 0 => Returned None
                    | _ =>
                        match first value with
                        | Some version => fetch (Datasets.hash version)
                        | None => ThrowsTypeError
                        end
                    end
                end
            end
          else fetch hash
      end
  end.

End Accessors.

End Datasets.

(** ** front: the authentication wrappers of the API routes *)

Module ApiWrappers.

(** A value of [req.query] or [req.headers]: [string | string[] | undefined]. *)
Inductive ParamValue : Type :=
| Undefined
| Single (s : string)
| Multiple (l : list string).

Record NextApiRequest : Type := {
  method : string;
  url : string;
  query_wId : ParamValue;
  (** [req.headers[DustUserEmailHeader]] *)
  header_userEmail : ParamValue;
  (** the authorization header, read by the helpers of [lib/auth] *)
  header_authorization : ParamValue
}.

Record SessionWithUser : Type := { session_sub : string }.
Record WorkspaceType : Type := { workspace_sId : string }.
Record PlanType : Type := { plan_code : string }.
Record UserType : Type := { user_sId : string }.
Record KeyType : Type := { key_id : Z; key_name : string }.

(** What the wrappers read of an [Authenticator]: the resolved workspace, plan
    and user, the answers of [isUser()] and [isBuilder()], and the key. *)
Record Authenticator : Type := {
  workspace : option WorkspaceType;
  plan : option PlanType;
  user : option UserType;
  isUser : bool;
  isBuilder : bool;
  key : option KeyType
}.

Inductive AuthMethod : Type :=
| access_token
| api_key.

(** The body passed to [apiError]. *)
Record APIErrorWithStatusCode : Type := {
  status_code : Z;
  api_error_type : string;
  api_error_message : string
}.

(** The helpers imported from [lib/auth], [lib/api/auth0] and
    [lib/http_api/group_header]. *)
Class AuthLib : Type := {
  DecodedToken : Type;
  Scope : Type;
  RequiredScopes : Type;
  GroupIds : Type;
  getSession : NextApiRequest -> option SessionWithUser;
  fromSession : SessionWithUser -> string -> Authenticator;
  getBearerToken : NextApiRequest -> Result string string;
  getAuthType : string -> AuthMethod;
  getRequiredScope : NextApiRequest -> option RequiredScopes -> option Scope;
  verifyAuth0Token : string -> option Scope -> Result DecodedToken string;
  fromAuth0Token : DecodedToken -> string -> Authenticator;
  getAPIKey : NextApiRequest -> Result KeyType APIErrorWithStatusCode;
  getGroupIdsFromHeaders : NextApiRequest -> GroupIds;
  (** [{ workspaceAuth, keyAuth }] *)
  fromKey : KeyType -> string -> GroupIds -> Authenticator * Authenticator;
  exchangeSystemKeyForUserAuthByEmail : Authenticator -> string -> option Authenticator
}.

(** What a wrapped route does with a request: it answers through [apiError],
    or it calls the handler with the arguments [call]. *)
Inductive Reply (H : Type) : Type :=
| ApiError (error : APIErrorWithStatusCode) : Reply H
| Handler (call : H) : Reply H.
Arguments ApiError {H} error.
Arguments Handler {H} call.

Definition apiError {H : Type} (status : Z) (type message : string) : Reply H :=
  ApiError {| status_code := status; api_error_type := type; api_error_message := message |}.

(** [!x] on an optional boolean option. *)
Definition enabled (o : option bool) : bool := default false o.

Section Wrappers.
Context `{AuthLib}.

(** [withLogging] only logs around the route; the route answers as its
    argument does. *)
Definition withLogging {H : Type} (route : NextApiRequest -> Reply H) (isStreaming : bool)
  : NextApiRequest -> Reply H := route.

Definition withSessionAuthentication {H : Type}
    (handler : NextApiRequest -> SessionWithUser -> Reply H) (isStreaming : option bool)
  : NextApiRequest -> Reply H :=
  withLogging
    (fun req =>
       match getSession req with
       | None =>
           apiError 401 "not_authenticated"
             "The user does not have an active session or is not authenticated."
       | Some session => handler req session
       end)
    (enabled isStreaming).

Record SessionOptions : Type := {
  isStreaming : option bool;
  allowUserOutsideCurrentWorkspace : option bool
}.

(** The handler of a workspace route receives [(auth, session)]. *)
Definition withSessionAuthenticationForWorkspace (opts : SessionOptions)
  : NextApiRequest -> Reply (Authenticator * SessionWithUser) :=
  withSessionAuthentication
    (fun req session =>
       match query_wId req with
       | Single wId =>
           if String.eqb wId "" then
             apiError 404 "workspace_not_found" "The workspace was not found."
           else
             let auth := fromSession session wId in
             match workspace auth, plan auth with
             | Some owner, Some plan =>
                 match user auth with
                 | None =>
                     apiError 404 "workspace_user_not_found"
                       "Could not find the user of the current session."
                 | Some user =>
                     if negb (isUser auth)
                        && negb (enabled (allowUserOutsideCurrentWorkspace opts))
                     then
                       apiError 401 "workspace_auth_error"
                         "Only users of the workspace can access this route."
                     else Handler (auth, session)
                 end
             | _, _ => apiError 404 "workspace_not_found" "The workspace was not found."
             end
       | _ => apiError 404 "workspace_not_found" "The workspace was not found."
       end)
    (isStreaming opts).

Record PublicOptions : Type := {
  public_isStreaming : option bool;
  public_allowUserOutsideCurrentWorkspace : option bool;
  requiredScopes : option RequiredScopes
}.

(** The handler of a public route receives [(auth, keyAuth)], where [keyAuth]
    may be null. *)
Definition withPublicAPIAuthentication (opts : PublicOptions)
  : NextApiRequest -> Reply (Authenticator * option Authenticator) :=
  let allowUserOutsideCurrentWorkspace :=
    enabled (public_allowUserOutsideCurrentWorkspace opts) in
  withLogging
    (fun req =>
       let wId := match query_wId req with Single s => Some s | _ => None end in
       match wId with
       | None => apiError 404 "workspace_not_found" "The workspace was not found."
       | Some wId =>
       if String.eqb wId "" then
         apiError 404 "workspace_not_found" "The workspace was not found."
       else
       match getBearerToken req with
       | Err _ =>
           apiError 401 "not_authenticated"
             "The request does not have valid authentication credentials."
       | Ok token =>
       match getAuthType token with
       | access_token =>
           (* Authentification with Auth0 token. *)
           match verifyAuth0Token token (getRequiredScope req (requiredScopes opts)) with
           | Err _ =>
               apiError 401 "not_authenticated"
                 "The request does not have valid authentication credentials."
           | Ok decoded =>
               let auth := fromAuth0Token decoded wId in
               match user auth with
               | None =>
                   apiError 401 "not_authenticated"
                     "The user does not have an active session or is not authenticated."
               | Some _ =>
                   if negb (isUser auth) then
                     apiError 401 "workspace_auth_error"
                       "Only users of the workspace can access this route."
                   else Handler (auth, None)
               end
           end
       | api_key =>
           (* Authentification with an API key. *)
           match getAPIKey req with
           | Err error => ApiError error
           | Ok keyRes =>
               let '(workspaceAuth, keyAuth) :=
                 fromKey keyRes wId (getGroupIdsFromHeaders req) in
               match workspace workspaceAuth, plan workspaceAuth with
               | Some owner, Some plan =>
                   if negb (isBuilder workspaceAuth) && negb allowUserOutsideCurrentWorkspace
                   then
                     apiError 401 "workspace_auth_error"
                       "Only users of the workspace can access this route."
                   else
                     let workspaceAuth :=
                       match header_userEmail req with
                       | Single userEmailFromHeader =>
                           if negb allowUserOutsideCurrentWorkspace then
                             default workspaceAuth
                               (exchangeSystemKeyForUserAuthByEmail workspaceAuth
                                  userEmailFromHeader)
                           else workspaceAuth
                       | _ => workspaceAuth
                       end in
                     Handler (workspaceAuth,
                              if enabled (public_allowUserOutsideCurrentWorkspace opts)
                              then Some keyAuth else None)
               | _, _ => apiError 404 "workspace_not_found" "The workspace was not found."
               end
           end
       end
       end
       end)
    (enabled (public_isStreaming opts)).

End Wrappers.

End ApiWrappers.

(** ** front: plans and subscriptions ([lib/plans/subscription.ts]) *)

Module Subscription.
Import JS.

(** [PlanAttributes], the data of a plan. *)
Record PlanAttributes : Type := {
  code : string;
  name : string;
  stripeProductId : option string;
  billingType : string;
  trialPeriodDays : Z;
  maxMessages : Z;
  maxUsersInWorkspace : Z;
  isSlackbotAllowed : bool;
  isManagedConfluenceAllowed : bool;
  isManagedSlackAllowed : bool;
  isManagedNotionAllowed : bool;
  isManagedGoogleDriveAllowed : bool;
  isManagedGithubAllowed : bool;
  isManagedIntercomAllowed : bool;
  isManagedWebCrawlerAllowed : bool;
  maxDataSourcesCount : Z;
  maxDataSourcesDocumentsCount : Z;
  maxDataSourcesDocumentsSizeMb : Z;
  canUseProduct : bool
}.

(** [PlanType], as rendered for the clients. *)
Record AssistantLimits : Type := {
  isSlackBotAllowed : bool;
  assistant_maxMessages : Z
}.

Record ConnectionsLimits : Type := {
  isConfluenceAllowed : bool;
  isSlackAllowed : bool;
  isNotionAllowed : bool;
  isGoogleDriveAllowed : bool;
  isGithubAllowed : bool;
  isIntercomAllowed : bool;
  isWebCrawlerAllowed : bool
}.

Record DataSourcesLimits : Type := {
  count : Z;
  documents_count : Z;
  documents_sizeMb : Z
}.

Record Limits : Type := {
  assistant : AssistantLimits;
  connections : ConnectionsLimits;
  dataSources : DataSourcesLimits;
  users_maxUsers : Z;
  limits_canUseProduct : bool
}.

Record PlanType : Type := {
  plan_code : string;
  plan_name : string;
  plan_stripeProductId : option string;
  plan_billingType : string;
  limits : Limits;
  plan_trialPeriodDays : Z
}.

Inductive SubscriptionStatus : Type :=
| active
| ended
| ended_backend_only.

#[export] Instance SubscriptionStatus_eq_dec : EqDecision SubscriptionStatus.
Proof. solve_decision. Defined.

(** [SubscriptionType]; dates are in milliseconds. *)
Record SubscriptionType : Type := {
  sub_status : SubscriptionStatus;
  sub_sId : option string;
  sub_stripeSubscriptionId : option string;
  sub_stripeCustomerId : option string;
  sub_startDate : option Z;
  sub_endDate : option Z;
  sub_paymentFailingSince : option Z;
  plan : PlanType
}.

(** Rows of the models [Workspace], [Plan] and [Subscription]. *)
Record Workspace : Type := {
  workspace_id : Z;
  workspace_sId : string
}.

Record Plan : Type := {
  plan_id : Z;
  attributes : PlanAttributes
}.

Record SubscriptionRow : Type := {
  sId : string;
  workspaceId : Z;
  planId : Z;
  status : SubscriptionStatus;
  startDate : option Z;
  endDate : option Z;
  stripeCustomerId : option string;
  stripeSubscriptionId : option string;
  paymentFailingSince : option Z
}.

Record Database : Type := {
  workspaces : list Workspace;
  plans : list Plan;
  subscriptions : list SubscriptionRow
}.

(** The constants imported from [lib/plans/plan_codes] and
    [lib/plans/free_plans]. *)
Class PlanCodes : Type := {
  FREE_TEST_PLAN_CODE : string;
  FREE_UPGRADED_PLAN_CODE : string;
  FREE_NO_PLAN_DATA : PlanAttributes
}.

(** [date?.getTime() || null]: the time 0 is falsy. *)
Definition timeOrNull (d : option Z) : option Z :=
  match d with
  | Some t => if t =? 0 then None else Some t
  | None => None
  end.

Definition renderPlanFromModel (plan : PlanAttributes) : PlanType :=
  {| plan_code := code plan;
     plan_name := name plan;
     plan_stripeProductId := stripeProductId plan;
     plan_billingType := billingType plan;
     limits :=
       {| assistant :=
            {| isSlackBotAllowed := isSlackbotAllowed plan;
               assistant_maxMessages := maxMessages plan |};
          connections :=
            {| isConfluenceAllowed := isManagedConfluenceAllowed plan;
               isSlackAllowed := isManagedSlackAllowed plan;
               isNotionAllowed := isManagedNotionAllowed plan;
               isGoogleDriveAllowed := isManagedGoogleDriveAllowed plan;
               isGithubAllowed := isManagedGithubAllowed plan;
               isIntercomAllowed := isManagedIntercomAllowed plan;
               isWebCrawlerAllowed := isManagedWebCrawlerAllowed plan |};
          dataSources :=
            {| count := maxDataSourcesCount plan;
               documents_count := maxDataSourcesDocumentsCount plan;
               documents_sizeMb := maxDataSourcesDocumentsSizeMb plan |};
          users_maxUsers := maxUsersInWorkspace plan;
          limits_canUseProduct := canUseProduct plan |};
     plan_trialPeriodDays := trialPeriodDays plan |}.

Definition renderSubscriptionFromModels (plan : PlanAttributes)
    (activeSubscription : option SubscriptionRow) : SubscriptionType :=
  {| sub_status := default active (status <$> activeSubscription);
     sub_sId := orNull (sId <$> activeSubscription);
     sub_stripeSubscriptionId := orNull (activeSubscription ≫= stripeSubscriptionId);
     sub_stripeCustomerId := orNull (activeSubscription ≫= stripeCustomerId);
     sub_startDate := timeOrNull (activeSubscription ≫= startDate);
     sub_endDate := timeOrNull (activeSubscription ≫= endDate);
     sub_paymentFailingSince := timeOrNull (activeSubscription ≫= paymentFailingSince);
     plan := renderPlanFromModel plan |}.

(** [Workspace.findOne({ where: { sId } })] *)
Definition findWorkspace (db : Database) (workspaceId' : string) : option Workspace :=
  find (fun w => String.eqb (workspace_sId w) workspaceId') (workspaces db).

(** [Plan.findOne({ where: { code } })] *)
Definition findPlan (db : Database) (code' : string) : option Plan :=
  find (fun p => String.eqb (code (attributes p)) code') (plans db).

(** [Subscription.findOne({ where: { workspaceId, status: "active" } })]: the
    row and its place in the table. *)
Definition findActiveSubscription (table : list SubscriptionRow) (workspaceId' : Z)
  : option (nat * SubscriptionRow) :=
  list_find (fun s => workspaceId s = workspaceId' /\ status s = active) table.

(** [activeSubscription.update({ status: "ended", endDate: now })] *)
Definition endSubscription (now : Z) (s : SubscriptionRow) : SubscriptionRow :=
  {| sId := sId s;
     workspaceId := workspaceId s;
     planId := planId s;
     status := ended;
     startDate := startDate s;
     endDate := Some now;
     stripeCustomerId := stripeCustomerId s;
     stripeSubscriptionId := stripeSubscriptionId s;
     paymentFailingSince := paymentFailingSince s |}.

(** "We end the active subscription if any". *)
Definition endActive (now : Z) (activeSubscription : option (nat * SubscriptionRow))
    (table : list SubscriptionRow) : list SubscriptionRow :=
  match activeSubscription with
  | Some (i, s) => <[i := endSubscription now s]> table
  | None => table
  end.

(** The row given to [Subscription.create]. *)
Definition newSubscription (sId' : string) (workspace : Workspace) (plan : Plan) (now : Z)
    (activeSubscription : option (nat * SubscriptionRow)) : SubscriptionRow :=
  {| sId := sId';
     workspaceId := workspace_id workspace;
     planId := plan_id plan;
     status := active;
     startDate := Some now;
     endDate := None;
     stripeCustomerId := orNull ((snd <$> activeSubscription) ≫= stripeCustomerId);
     stripeSubscriptionId := None;
     paymentFailingSince := None |}.

Definition withSubscriptions (db : Database) (table : list SubscriptionRow) : Database :=
  {| workspaces := workspaces db; plans := plans db; subscriptions := table |}.

Section Functions.
Context `{PlanCodes}.
(** The clock and the generator of ids that a call reads: [new Date()] and
    [generateModelSId()]. *)
Variable now : Z.
Variable generateModelSId : string.

(** A call returns its value with the database it leaves, or throws an error
    with a message. *)
Definition internalSubscribeWorkspaceToFreeNoPlan (workspaceId' : string) (db : Database)
  : Result (SubscriptionType * Database) string :=
  match findWorkspace db workspaceId' with
  | None => Err ("Cannot find workspace " +:+ workspaceId')
  | Some workspace =>
      let activeSubscription :=
        findActiveSubscription (subscriptions db) (workspace_id workspace) in
      let table := endActive now activeSubscription (subscriptions db) in
      Ok (renderSubscriptionFromModels FREE_NO_PLAN_DATA None, withSubscriptions db table)
  end.

Definition internalSubscribeWorkspaceToFreeTestPlan (workspaceId' : string) (db : Database)
  : Result (SubscriptionType * Database) string :=
  match findWorkspace db workspaceId' with
  | None => Err ("Cannot find workspace " +:+ workspaceId')
  | Some workspace =>
      match findPlan db FREE_TEST_PLAN_CODE with
      | None => Err ("Cannot subscribe to plan " +:+ FREE_TEST_PLAN_CODE +:+ ":  not found.")
      | Some plan =>
          let activeSubscription :=
            findActiveSubscription (subscriptions db) (workspace_id workspace) in
          let table := endActive now activeSubscription (subscriptions db) in
          let newSubscription :=
            newSubscription generateModelSId workspace plan now activeSubscription in
          Ok (renderSubscriptionFromModels (attributes plan) (Some newSubscription),
              withSubscriptions db (table ++ [newSubscription]))
      end
  end.

(** [planCode] is optional and defaults to [FREE_UPGRADED_PLAN_CODE]. *)
Definition internalSubscribeWorkspaceToFreeUpgradedPlan (workspaceId' : string)
    (planCode : option string) (db : Database)
  : Result (SubscriptionType * Database) string :=
  let planCode := default FREE_UPGRADED_PLAN_CODE planCode in
  match findWorkspace db workspaceId' with
  | None => Err ("Cannot find workspace " +:+ workspaceId')
  | Some workspace =>
      match findPlan db planCode with
      | None => Err ("Cannot subscribe to plan " +:+ planCode +:+ ":  not found.")
      | Some plan =>
          let activeSubscription :=
            findActiveSubscription (subscriptions db) (workspace_id workspace) in
          if match activeSubscription with
             | Some (_, s) => planId s =? plan_id plan
             | None => false
             end
          then Err ("Cannot subscribe to plan " +:+ planCode +:+ ": already subscribed.")
          else
            let table := endActive now activeSubscription (subscriptions db) in
            let newSubscription :=
              newSubscription generateModelSId workspace plan now activeSubscription in
            Ok (renderSubscriptionFromModels (attributes plan) (Some newSubscription),
                withSubscriptions db (table ++ [newSubscription]))
      end
  end.

(** What [downgradeWorkspaceToFreePlan] reads of its [Authenticator]. *)
Record UserType : Type := { user_sId : string }.

Record WorkspaceType : Type := { owner_sId : string }.

Record Authenticator : Type := {
  auth_user : option UserType;
  auth_workspace : option WorkspaceType;
  auth_plan : option PlanType;
  isAdmin : bool;
  auth_subscription : option SubscriptionType
}.

Definition unauthorized : string :=
  "Unauthorized `auth` data: cannot process to subscription of new Plan.".

Definition downgradeWorkspaceToFreePlan (auth : Authenticator) (db : Database)
  : Result (PlanType * Database) string :=
  match auth_user auth, auth_workspace auth, auth_plan auth with
  | Some user, Some owner, Some activePlan =>
      if negb (isAdmin auth) then Err unauthorized
      else
        match findPlan db FREE_TEST_PLAN_CODE with
        | None =>
            Err ("Cannot downgrade to free plan " +:+ FREE_TEST_PLAN_CODE +:+ ": not found.")
        | Some freeTestPlan =>
            if truthy (stripeProductId (attributes freeTestPlan)) then
              Err ("Cannot downgrade to free plan " +:+ FREE_TEST_PLAN_CODE
                   +:+ ": has a Stripe Product ID.")
            else if negb (String.eqb (billingType (attributes freeTestPlan)) "free") then
              Err ("Cannot downgrade to free plan " +:+ FREE_TEST_PLAN_CODE
                   +:+ ": billingType is not " +:+ dquote +:+ "free" +:+ dquote +:+ ".")
            else if match auth_subscription auth with
                    | Some existingSubscription =>
                        String.eqb (plan_code (plan existingSubscription))
                                   (code (attributes freeTestPlan))
                    | None => false
                    end
            then
              Err ("Cannot downgrade to free plan " +:+ FREE_TEST_PLAN_CODE
                   +:+ ": already subscribed.")
            else
              match internalSubscribeWorkspaceToFreeTestPlan (owner_sId owner) db with
              | Err error => Err error
              | Ok (sub, db') => Ok (plan sub, db')
              end
        end
  | _, _, _ => Err unauthorized
  end.

End Functions.

End Subscription.

(** ** front: invitations to a plan ([lib/plans/subscription.ts]) *)

Module PlanInvitations.
Import JS Subscription.

(** A row of the model [PlanInvitation]; [consumedAt] is a date or null. *)
Record PlanInvitation : Type := {
  secret : string;
  invitation_workspaceId : Z;
  invitation_planId : Z;
  consumedAt : option Z
}.

(** [PlanInvitationType] *)
Record PlanInvitationType : Type := {
  planCode : string;
  planName : string;
  invitation_secret : string
}.

(** The database with the table of invitations. *)
Record Tables : Type := {
  database : Database;
  planInvitations : list PlanInvitation
}.

(** What the functions read of their [Authenticator]: [workspace()], of
    which they read [id] and [sId], [isDustSuperUser()] and
    [subscription()]. *)
Record WorkspaceType : Type := {
  ws_id : Z;
  ws_sId : string
}.

Record Authenticator : Type := {
  workspace : option WorkspaceType;
  isDustSuperUser : bool;
  subscription : option SubscriptionType
}.

(** A value with the warnings that [logger.warn] has received. *)
Definition Logged (A : Type) : Type := list string * A.

(** [where: { workspaceId: owner.id, consumedAt: null }] *)
Definition pending (ownerId : Z) (invitation : PlanInvitation) : Prop :=
  invitation_workspaceId invitation = ownerId /\ consumedAt invitation = None.

#[export] Instance pending_dec (ownerId : Z) (invitation : PlanInvitation) :
  Decision (pending ownerId invitation).
Proof. unfold pending. apply _. Defined.

(** [include: [{ model: Plan, as: "plan", required: true }]]: a row comes
    with the plan of its [planId], and is left out when there is none. *)
Definition withPlan (db : Database) (invitation : PlanInvitation)
  : option (PlanInvitation * Plan) :=
  plan ← find (fun p => plan_id p =? invitation_planId invitation) (plans db);
  Some (invitation, plan).

(** [PlanInvitation.findAll], in the order of the table. *)
Definition findAllPending (t : Tables) (ownerId : Z) : list (PlanInvitation * Plan) :=
  omap (withPlan (database t)) (filter (pending ownerId) (planInvitations t)).

Definition unreachable : string :=
  "unreachable: there should be at most one pending invitation per workspace".

Definition getPlanInvitation (auth : Authenticator) (t : Tables)
  : Logged (Result (option PlanInvitationType) string) :=
  match workspace auth with
  | None => ([], Err "Cannot find workspace")
  | Some owner =>
      let planInvitations := findAllPending t (ws_id owner) in
      let warnings := if (1 <? length planInvitations)%nat then [unreachable] else [] in
      match planInvitations with
      | [] => (warnings, Ok None)
      | (invitation, plan) :: _ =>
          (warnings,
           Ok (Some {| planCode := code (attributes plan);
                       planName := name (attributes plan);
                       invitation_secret := secret invitation |}))
      end
  end.

(** The constant of [lib/plans/plan_codes] and the function of
    [lib/plans/stripe] that [getCheckoutUrlForUpgrade] uses: the call of
    Stripe returns a URL or null, or throws. *)
Class Stripe : Type := {
  PRO_PLAN_SEAT_29_CODE : string;
  createCheckoutSession : Authenticator -> string -> Result (option string) string
}.

Section Functions.
Context `{PlanCodes}.
(** What a call reads of its environment: [new Date()], [generateModelSId()]
    and [uuidv4()]. *)
Variable now : Z.
Variable generateModelSId : string.
Variable uuidv4 : string.

(** The function returns an invitation or nothing ([void]), with the tables
    it leaves.  A created row has no [consumedAt]. *)
Definition pokeUpgradeOrInviteWorkspaceToPlan (auth : Authenticator) (planCode' : string)
    (t : Tables) : Logged (Result (option PlanInvitationType * Tables) string) :=
  match workspace auth with
  | None => ([], Err "Cannot find workspace}")
  | Some owner =>
      if negb (isDustSuperUser auth) then
        ([], Err "Cannot invite workspace to enterprise plan: not allowed.")
      else
        match findPlan (database t) planCode' with
        | None =>
            ([], Err ("Cannot invite workspace to plan " +:+ planCode' +:+ ": plan not found."))
        | Some plan =>
            if match subscription auth with
               | Some activeSubscription =>
                   String.eqb (plan_code (Subscription.plan activeSubscription))
                              (code (attributes plan))
               | None => false
               end
            then ([], Err ("Cannot subscribe to plan " +:+ planCode' +:+ ": already subscribed."))
            else if String.eqb (billingType (attributes plan)) "free"
                    && bool_decide (stripeProductId (attributes plan) = None)
            then
              match internalSubscribeWorkspaceToFreeUpgradedPlan now generateModelSId
                      (ws_sId owner) (Some (code (attributes plan))) (database t) with
              | Err error => ([], Err error)
              | Ok (_, db') =>
                  ([], Ok (None, {| database := db'; planInvitations := planInvitations t |}))
              end
            else
              match getPlanInvitation auth t with
              | (warnings, Err error) => (warnings, Err error)
              | (warnings, Ok invitation) =>
                  if match invitation with
                     | Some invitation => String.eqb (planCode invitation) (code (attributes plan))
                     | None => false
                     end
                  then (warnings, Ok (invitation, t))
                  else
                    let table :=
                      match invitation with
                      | Some _ =>
                          filter (fun i => ~ pending (ws_id owner) i) (planInvitations t)
                      | None => planInvitations t
                      end in
                    let model :=
                      {| secret := uuidv4;
                         invitation_workspaceId := ws_id owner;
                         invitation_planId := plan_id plan;
                         consumedAt := None |} in
                    (warnings,
                     Ok (Some {| planCode := code (attributes plan);
                                 planName := name (attributes plan);
                                 invitation_secret := secret model |},
                         {| database := database t; planInvitations := table ++ [model] |}))
              end
        end
  end.

Context `{Stripe}.

Definition getCheckoutUrlForUpgrade (auth : Authenticator) (t : Tables)
  : Logged (Result (string * PlanType) string) :=
  match workspace auth with
  | None => ([], Err "Unauthorized `auth` data: cannot process to subscription of new Plan.")
  | Some owner =>
      match getPlanInvitation auth t with
      | (warnings, Err error) => (warnings, Err error)
      | (warnings, Ok planInvitation) =>
          let planCode' := default PRO_PLAN_SEAT_29_CODE (planCode <$> planInvitation) in
          match findPlan (database t) planCode' with
          | None => (warnings, Err ("Cannot subscribe to plan " +:+ planCode' +:+ ": not found."))
          | Some plan =>
              if negb (truthy (stripeProductId (attributes plan))) then
                (warnings,
                 Err ("Cannot subscribe to plan " +:+ planCode' +:+ ": no Stripe Product ID."))
              else if String.eqb (billingType (attributes plan)) "free" then
                (warnings,
                 Err ("Cannot subscribe to plan " +:+ planCode' +:+ ": billingType is "
                      +:+ dquote +:+ "free" +:+ dquote +:+ "."))
              else if match subscription auth with
                      | Some existingSubscription =>
                          String.eqb (plan_code (Subscription.plan existingSubscription))
                                     (code (attributes plan))
                      | None => false
                      end
              then
                (warnings,
                 Err ("Cannot subscribe to pro plan " +:+ planCode' +:+ ": already subscribed."))
              else
                match createCheckoutSession auth (code (attributes plan)) with
                | Err error => (warnings, Err error)
                | Ok checkoutUrl =>
                    match orNull checkoutUrl with
                    | None =>
                        (warnings,
                         Err ("Cannot subscribe to plan " +:+ planCode' +:+
                              ": error while creating Stripe Checkout session (URL is null)."))
                    | Some checkoutUrl =>
                        (warnings, Ok (checkoutUrl, renderPlanFromModel (attributes plan)))
                    end
                end
          end
      end
  end.

End Functions.

End PlanInvitations.

(** ** front: the wrapper of the routes without a workspace *)

Module Auth0Wrapper.
Import ApiWrappers.

(** The helpers imported from [lib/api/auth0] and [lib/api/user]. *)
Class UserLib `{AuthLib} : Type := {
  UserResource : Type;
  UserTypeWithWorkspaces : Type;
  getUserFromAuth0Token : DecodedToken -> option UserResource;
  getUserWithWorkspaces : UserResource -> UserTypeWithWorkspaces
}.

Section Wrapper.
Context `{UserLib}.

Record Auth0Options : Type := {
  auth0_requiredScopes : option RequiredScopes
}.

(** The handler of such a route receives the user with their workspaces. *)
Definition withAuth0TokenAuthentication (opts : Auth0Options)
  : NextApiRequest -> Reply UserTypeWithWorkspaces :=
  withLogging
    (fun req =>
       match getBearerToken req with
       | Err _ =>
           apiError 401 "not_authenticated"
             "The request does not have valid authentication credentials."
       | Ok bearerToken =>
           match getAuthType bearerToken with
           | api_key =>
               apiError 401 "not_authenticated"
                 "The request does not have valid authentication credentials."
           | access_token =>
               match verifyAuth0Token bearerToken
                       (getRequiredScope req (auth0_requiredScopes opts)) with
               | Err _ =>
                   apiError 401 "not_authenticated"
                     "The request does not have valid authentication credentials."
               | Ok decoded =>
                   match getUserFromAuth0Token decoded with
                   | None =>
                       apiError 401 "not_authenticated"
                         "The user does not have an active session or is not authenticated."
                   | Some user => Handler (getUserWithWorkspaces user)
                   end
               end
           end
       end)
    false.

End Wrapper.

End Auth0Wrapper.

(** ** front: the datasets of an app, listed and looked up ([lib/api/datasets.ts]) *)

Module DatasetAccessors.
Import Datasets.

(** [{ name, description }] of a row. *)
Definition render (dataset : Dataset) : DatasetType :=
  {| name := dataset_name dataset;
     description := dataset_description dataset;
     data := None |}.

Section Accessors.
Variable table : list Dataset.
(** [order: [["updatedAt", "DESC"]]], the order in which the database returns
    the rows it has selected. *)
Variable orderByUpdatedAtDesc : list Dataset -> list Dataset.

(** [Dataset.findAll({ where: { workspaceId, appId }, order })] *)
Definition findAll (workspaceId' appId' : Z) : list Dataset :=
  orderByUpdatedAtDesc
    (List.filter (fun d => (workspaceId d =? workspaceId') && (appId d =? appId')) table).

Definition getDatasets (auth : Authenticator) (app : AppType) : list DatasetType :=
  match workspace auth with
  | None => []
  | Some owner => render <$> findAll (workspace_id owner) (internalId app)
  end.

Definition getDataset (auth : Authenticator) (app : AppType) (name' : string)
  : option DatasetType :=
  owner ← workspace auth;
  dataset ← findOne table (workspace_id owner) (internalId app) name';
  Some (render dataset).

End Accessors.

End DatasetAccessors.

(** ** front: the include-file action, its function call and its runner
    ([lib/api/assistant/actions/conversation/include_file.ts]) *)

Module IncludeFileRunner.
Import JS IncludeFile.

(** [FunctionCallType] *)
Record FunctionCallType : Type := {
  call_id : string;
  call_name : string;
  arguments : string
}.

Section FunctionCall.
(** [JSON.stringify] of the object [{ fileId }], as a function of the file id. *)
Variable stringifyParams : string -> string.

Definition renderForFunctionCall (this : ConversationIncludeFileAction) : FunctionCallType :=
  {| call_id := default ("call_" +:+ numberToString (id this)) (functionCallId this);
     call_name := default "include_conversation_file" (functionCallName this);
     arguments := stringifyParams (params_fileId this) |}.

End FunctionCall.

(** A row of the model [AgentConversationIncludeFileAction]. *)
Record AgentConversationIncludeFileAction : Type := {
  row_id : Z;
  row_fileId : string;
  row_functionCallId : option string;
  row_functionCallName : option string;
  row_agentMessageId : Z;
  row_step : Z
}.

(** [rawInputs.fileId], as [run] tells the values apart: a string, or anything
    else ([undefined], [null], a number, an object). *)
Inductive RawInput : Type :=
| StringInput (s : string)
| OtherInput.

(** What [run] reads of its parameters. *)
Record BaseActionRunParams : Type := {
  agentConfiguration_sId : string;
  agentMessage_sId : string;
  agentMessage_agentMessageId : Z;
  rawInputs_fileId : RawInput;
  run_functionCallId : option string;
  run_step : Z
}.

Record WorkspaceType : Type := { workspace_sId : string }.

Record Authenticator : Type := { workspace : option WorkspaceType }.

(** The events that [run] yields. *)
Record EventHeader : Type := {
  created : Z;
  configurationId : string;
  messageId : string
}.

Inductive Event : Type :=
| conversation_include_file_error (header : EventHeader) (code message : string)
| conversation_include_file_params (header : EventHeader)
    (action : ConversationIncludeFileAction)
| conversation_include_file_success (header : EventHeader)
    (action : ConversationIncludeFileAction).

(** [new ConversationIncludeFileAction({ id: action.id, ... })] of a row. *)
Definition actionOfRow (action : AgentConversationIncludeFileAction)
  : ConversationIncludeFileAction :=
  {| id := row_id action;
     agentMessageId := row_agentMessageId action;
     params_fileId := row_fileId action;
     functionCallId := row_functionCallId action;
     functionCallName := row_functionCallName action;
     step := row_step action |}.

Section Runner.
(** [this.actionConfiguration.name] *)
Variable actionConfiguration_name : string.
(** The readings of [Date.now()], in the order of the yields, and the id that
    the database gives to the row it creates. *)
Variable dateNow : nat -> Z.
Variable newId : Z.

Definition header (n : nat) (p : BaseActionRunParams) : EventHeader :=
  {| created := dateNow n;
     configurationId := agentConfiguration_sId p;
     messageId := agentMessage_sId p |}.

(** The generator run to its end: the events it yields and the table it
    leaves, unless it throws. *)
Definition run (auth : Authenticator) (p : BaseActionRunParams)
    (table : list AgentConversationIncludeFileAction)
  : Completion (list Event * list AgentConversationIncludeFileAction) :=
  match workspace auth with
  | None => Throws
  | Some owner =>
      match rawInputs_fileId p with
      | StringInput fileId =>
          if String.eqb fileId "" then
            Returns
              ([conversation_include_file_error (header 0 p)
                  "conversation_include_file_parameters_generation_error"
                  "Error generating parameters for converstaion file inclusion: failed to generate a valid fileId."],
               table)
          else
            let action :=
              {| row_id := newId;
                 row_fileId := fileId;
                 row_functionCallId := run_functionCallId p;
                 row_functionCallName := Some actionConfiguration_name;
                 row_agentMessageId := agentMessage_agentMessageId p;
                 row_step := run_step p |} in
            let yielded :=
              {| id := row_id action;
                 agentMessageId := agentMessage_agentMessageId p;
                 params_fileId := fileId;
                 functionCallId := run_functionCallId p;
                 functionCallName := Some actionConfiguration_name;
                 step := run_step p |} in
            Returns
              ([conversation_include_file_params (header 0 p) yielded;
                conversation_include_file_success (header 1 p) yielded],
               table ++ [action])
      | OtherInput =>
          Returns
            ([conversation_include_file_error (header 0 p)
                "conversation_include_file_parameters_generation_error"
                "Error generating parameters for converstaion file inclusion: failed to generate a valid fileId."],
             table)
      end
  end.

End Runner.

Section Retrieval.
(** The order in which the database returns the rows it has selected. *)
Variable findAllOrder :
  list AgentConversationIncludeFileAction -> list AgentConversationIncludeFileAction.

Definition conversationIncludeFileTypesFromAgentMessageIds
    (table : list AgentConversationIncludeFileAction) (agentMessageIds : list Z)
  : list ConversationIncludeFileAction :=
  actionOfRow
  <$> findAllOrder (filter (fun action => row_agentMessageId action ∈ agentMessageIds) table).

End Retrieval.

End IncludeFileRunner.

(** ** extension: what the file uploader hands out ([useFileUploaderService]) *)

Module FileUploaderAccessors.
Import FileUploader.

Definition fileBlobHasFileId (fileBlob : FileBlob) : bool :=
  bool_decide (fileId fileBlob <> None).

(** [getFileBlobs()], from the render whose closure holds [closure]. *)
Definition getFileBlobs (closure : State) : list FileBlob :=
  List.filter fileBlobHasFileId (fileBlobs closure).

(** [handleFileChange(e)]: [selectedFiles] is [Array.from(files ?? [])], where
    [files] is the list of the input element, or null. *)
Definition handleFileChange `{Client} (dustAPI : DustAPI) (closure : State)
    (files : option (list File)) : Hook (option (list FileBlob)) :=
  let selectedFiles := default [] files in
  handleFilesUpload dustAPI closure selectedFiles None.

End FileUploaderAccessors.

(** ** front: the usage reported to Stripe ([lib/plans/subscription.ts]) *)

Module SubscriptionUsage.
Import JS Subscription.

(** A key of Redis: its value and the time, in seconds, at which it expires. *)
Record RedisEntry : Type := {
  value : string;
  expiresAt : Z
}.

Definition Redis : Type := gmap string RedisEntry.

(** [redis.get(key)] at the time [now] *)
Definition redisGet (now : Z) (key : string) (redis : Redis) : option string :=
  entry ← redis !! key;
  if now <? expiresAt entry then Some (value entry) else None.

(** [redis.set(key, value, { EX })] at the time [now] *)
Definition redisSet (now : Z) (key value' : string) (EX : Z) (redis : Redis) : Redis :=
  <[key := {| value := value'; expiresAt := now + EX |}]> redis.

(** The functions imported from [lib/plans/stripe], [lib/plans/workspace_usage]
    and [lib/redis]: each returns or throws, an error being the text that a
    template literal makes of it. *)
Class Services : Type := {
  StripeSubscription : Type;
  current_period_start : StripeSubscription -> Z;
  countActiveSeatsInWorkspace : string -> Result Z string;
  updateStripeSubscriptionQuantity :
    forall (stripeSubscriptionId stripeProductId : string) (quantity : Z), Result unit string;
  getStripeSubscription : string -> Result (option StripeSubscription) string;
  countActiveUsersInWorkspaceSince : WorkspaceType -> forall since : Z, Result Z string;
  updateStripeSubscriptionUsage : StripeSubscription -> forall quantity : Z, Result unit string;
  (** whether [redisClient()] connects *)
  redisClient : Result unit string
}.

Section Functions.
Context `{Services}.

(** What the two functions do to the outside: the log, the calls that change
    Stripe, and the end of the Redis connection. *)
Inductive Effect : Type :=
| LoggerWarn (message : string)
| LoggerError (message : string)
| UpdateStripeSubscriptionQuantity (stripeSubscriptionId stripeProductId : string)
    (quantity : Z)
| UpdateStripeSubscriptionUsage (stripeSubscription : StripeSubscription) (quantity : Z)
| RedisQuit.

(** [Subscription.findOne({ where: { workspaceId, status: "active" }, include:
    [{ model: Plan, as: "plan", required: true }] })]: the first active
    subscription of the workspace that has its plan. *)
Definition findActiveSubscriptionWithPlan (db : Database) (workspaceId' : Z)
  : option (SubscriptionRow * Plan) :=
  head
    (omap
       (fun s =>
          plan ← find (fun p => plan_id p =? planId s) (plans db);
          Some (s, plan))
       (filter (fun s => workspaceId s = workspaceId' /\ status s = active)
               (subscriptions db))).

(** The function catches what it throws: it returns nothing, and what is left
    of a call is its effects. *)
Definition updateWorkspacePerSeatSubscriptionUsage (workspaceId' : string) (db : Database)
  : list Effect :=
  let caught err :=
    LoggerWarn ("Error while updating Stripe subscription quantity for workspace "
                +:+ workspaceId' +:+ ": " +:+ err) in
  match findWorkspace db workspaceId' with
  | None =>
      [caught "Error: Cannot process update usage in subscription: workspace not found."]
  | Some workspace =>
      match findActiveSubscriptionWithPlan db (workspace_id workspace) with
      | None =>
          [caught
             "Error: Cannot process update usage in subscription: workspace has no subscription."]
      | Some (activeSubscription, plan) =>
          if negb (String.eqb (billingType (attributes plan)) "per_seat") then
            (* We only update the usage for plans with billingType === "per_seat" *)
            []
          else
            match orNull (stripeSubscriptionId activeSubscription),
                  orNull (stripeCustomerId activeSubscription),
                  orNull (stripeProductId (attributes plan)) with
            | Some stripeSubscriptionId', Some _, Some stripeProductId' =>
                match countActiveSeatsInWorkspace (workspace_sId workspace) with
                | Err err => [caught err]
                | Ok activeSeats =>
                    UpdateStripeSubscriptionQuantity stripeSubscriptionId' stripeProductId'
                      activeSeats
                    :: match updateStripeSubscriptionQuantity stripeSubscriptionId'
                               stripeProductId' activeSeats with
                       | Err err => [caught err]
                       | Ok _ => []
                       end
                end
            | _, _, _ =>
                [caught
                   "Error: Cannot update usage in per_seat subscription: missing Stripe subscription ID or Stripe customer ID."]
            end
      end
  end.

(** The call at the time [now], in seconds, of the Redis server: its effects
    and the keys it leaves. *)
Definition updateWorkspacePerMonthlyActiveUsersSubscriptionUsage (now : Z)
    (owner : WorkspaceType) (subscription : SubscriptionType) (redis : Redis)
  : list Effect * Redis :=
  let caught err :=
    LoggerError ("Error while updating Stripe subscription usage for workspace "
                 +:+ owner_sId owner +:+ ": " +:+ err) in
  match redisClient with
  | Err err => ([caught err], redis)
  | Ok _ =>
      if negb (String.eqb (plan_billingType (plan subscription)) "monthly_active_users") then
        (* We only update the usage for plans with billingType === "monthly_active_users" *)
        ([RedisQuit], redis)
      else
        match orNull (sub_stripeSubscriptionId subscription),
              orNull (sub_stripeCustomerId subscription),
              orNull (plan_stripeProductId (plan subscription)) with
        | Some stripeSubscriptionId', Some _, Some _ =>
            let redisKey := "workspace:usage:" +:+ owner_sId owner in
            if truthy (redisGet now redisKey redis) then
              (* If already reported usage for this workspace in the last hour we do nothing *)
              ([RedisQuit], redis)
            else
              match getStripeSubscription stripeSubscriptionId' with
              | Err err => ([caught err; RedisQuit], redis)
              | Ok None =>
                  ([caught ("Error: Cannot update usage in monthly_active_users subscription: Stripe subscription "
                            +:+ stripeSubscriptionId' +:+ " not found.");
                    RedisQuit], redis)
              | Ok (Some stripeSubscription) =>
                  match countActiveUsersInWorkspaceSince owner
                          (current_period_start stripeSubscription * 1000) with
                  | Err err => ([caught err; RedisQuit], redis)
                  | Ok quantity =>
                      match updateStripeSubscriptionUsage stripeSubscription quantity with
                      | Err err =>
                          ([UpdateStripeSubscriptionUsage stripeSubscription quantity;
                            caught err; RedisQuit], redis)
                      | Ok _ =>
                          (* We store the usage in Redis to update Stripe only once per hour *)
                          ([UpdateStripeSubscriptionUsage stripeSubscription quantity;
                            RedisQuit],
                           redisSet now redisKey (numberToString quantity) 3600 redis)
                      end
                  end
              end
        | _, _, _ =>
            ([caught "Error: Cannot update usage in monthly_active_users subscription: missing Stripe subscription ID or Stripe customer ID.";
              RedisQuit], redis)
        end
  end.

End Functions.

End SubscriptionUsage.

(** ** extension: uploading the content of the current tab
    ([useFileUploaderService]) *)

Module ContentTab.
Import JS FileUploader.

(** What [getIncludeCurrentTab] returns of the tab.  A string stands for its
    UTF-8 encoding, so that the size of a [Blob] made of it is its length. *)
Record TabContent : Type := {
  tab_title : string;
  tab_content : option string;
  tab_screenshot : option string
}.

(** The messages of a [ConversationPublicType], as [uploadContentTab] reads
    them: the content fragments with their title and [textBytes], and the
    others. *)
Inductive ConversationMessage : Type :=
| content_fragment (title : string) (textBytes : option Z)
| other_message.

Record ConversationPublicType : Type := {
  content : list (list ConversationMessage)
}.

(** A call returns, or throws a [TypeError]. *)
Inductive Outcome (A : Type) : Type :=
| Returned (a : A) : Outcome A
| Thrown : Outcome A.
Arguments Returned {A} a.
Arguments Thrown {A}.

(** [array.some(p)] on the last versions [m[m.length - 1]] of the messages:
    reading a property of the [undefined] that an empty list of versions gives
    throws. *)
Fixpoint some (p : ConversationMessage -> bool) (ms : list (option ConversationMessage))
  : Outcome bool :=
  match ms with
  | [] => Returned false
  | None :: _ => Thrown
  | Some m :: ms => if p m then Returned true else some p ms
  end.

(** [new Blob([content]).size] *)
Definition blobSize (content' : string) : Z := Z.of_nat (String.length content').

Section Service.
Context `{Client}.
Variable dustAPI : DustAPI.
Variable closure : State.
(** [getIncludeCurrentTab(includeContent, includeCapture)], of
    [@extension/lib/conversation]: a result, or nothing. *)
Variable getIncludeCurrentTab :
  forall includeContent includeCapture : option bool, option (Result TabContent string).

Definition cannotGetTabContent (description' : string) : Notification :=
  {| notification_type := "error";
     title := "Cannot get tab content";
     description := description' |}.

Definition uploadContentTab (conversation : option ConversationPublicType)
    (updateBlobs : option bool) : Hook (Outcome (option (list FileBlob))) :=
  let tabContentRes := getIncludeCurrentTab None None in
  match tabContentRes with
  | Some (Err error) =>
      _ ← sendNotification (cannotGetTabContent error);
      mret (Returned None)
  | _ =>
      let tabContent := match tabContentRes with Some (Ok value) => Some value | _ => None end in
      match tabContent ≫= (fun tabContent => orNull (tab_content tabContent)), tabContent with
      | Some content', Some tabContent =>
          let title := tab_title tabContent +:+ ".txt" in
          (* Check if the content is already uploaded - compare the title and the size. *)
          let alreadyUploaded :=
            match conversation with
            | None => Returned false
            | Some conversation =>
                some
                  (fun m =>
                     match m with
                     | content_fragment title' textBytes =>
                         String.eqb title' title
                         && bool_decide (textBytes = Some (blobSize content'))
                     | other_message => false
                     end)
                  (map (@last ConversationMessage) (content conversation))
            end in
          match alreadyUploaded with
          | Thrown => mret Thrown
          | Returned true => mret (Returned None)
          | Returned false =>
              let file :=
                {| name := title; type := "text/plain"; file_size := blobSize content' |} in
              result ← handleFilesUpload dustAPI closure [file] updateBlobs;
              mret (Returned result)
          end
      | _, _ =>
          _ ← sendNotification (cannotGetTabContent "No content found.");
          mret (Returned None)
      end
  end.

End Service.

End ContentTab.

(** ** front: the list of workspaces of the poke API
    ([pages/api/poke/workspaces/index.ts]) *)

Module PokeWorkspaces.
Import JS Subscription ApiWrappers.

(** The request with the query parameters that the handler reads. *)
Record PokeRequest : Type := {
  request : NextApiRequest;
  query_search : ParamValue;
  query_upgraded : ParamValue;
  query_limit : ParamValue
}.

(** A condition of the [where] clause on the workspaces. *)
Inductive WhereOption : Type :=
| id_in (ids : list Z)
| id_notIn (ids : list Z)
| id_is (id : Z)
| sId_or_name_iLike (pattern : string).

(** A row of [Workspace.findAll] with what its [include] joins:
    [subscriptions[0]] and the [plan] of that subscription. *)
Record WorkspaceModel : Type := {
  ws_id : Z;
  ws_sId : string;
  ws_name : string;
  ws_segmentation : option string;
  ws_whiteListedProviders : option (list string);
  ws_defaultEmbeddingProvider : option string;
  ws_createdAt : Z;
  ws_upgradedAt : option Z;
  ws_subscription : SubscriptionRow;
  ws_plan : PlanAttributes
}.

Record LightWorkspaceType : Type := {
  light_id : Z;
  light_sId : string;
  light_name : string;
  light_role : string;
  light_segmentation : option string;
  light_whiteListedProviders : option (list string);
  light_defaultEmbeddingProvider : option string
}.

Record MembershipResource : Type := {
  membership_createdAt : Z;
  membership_userId : Z;
  membership_workspaceId : Z
}.

(** What the handler calls outside this file. *)
Class Services `{AuthLib} : Type := {
  UserResource : Type;
  DataSourceResource : Type;
  WorkspaceDomain : Type;
  (** [Authenticator.fromSuperUserSession(session, null)] and its
      [isDustSuperUser()] *)
  isDustSuperUser : option SessionWithUser -> bool;
  (** [decodeURIComponent], which throws on a malformed sequence, and
      [String.prototype.trim] *)
  decodeURIComponent : string -> option string;
  trim : string -> string;
  isEmailValid : string -> bool;
  isDomain : string -> bool;
  listByEmail : string -> list UserResource;
  getLatestMemberships : list UserResource -> list MembershipResource;
  (** [WorkspaceHasDomain.findOne({ where: { domain } })], its [workspaceId] *)
  findWorkspaceHasDomain : string -> option Z;
  isEntreprisePlan : string -> bool;
  isFriendsAndFamilyPlan : string -> bool;
  isProPlan : string -> bool;
  isFreePlan : string -> bool;
  isOldFreePlan : string -> bool;
  (** [Workspace.findAll({ where, limit, include, order })] *)
  findAllWorkspaces : list WhereOption -> forall limit : Z, list WorkspaceModel;
  (** [DataSourceResource.listByWorkspace] for the internal builder of the
      workspace of the given [sId] *)
  listByWorkspace : string -> list DataSourceResource;
  (** [MembershipResource.getActiveMemberships] for the role [admin] *)
  getActiveMemberships : LightWorkspaceType -> list MembershipResource;
  (** [UserResource.fetchByModelId], the [email] of the user *)
  fetchByModelId : Z -> option string;
  getMembersCountForWorkspace : LightWorkspaceType -> Z;
  getWorkspaceVerifiedDomain : LightWorkspaceType -> option WorkspaceDomain;
  (** [date.toISOString()] *)
  toISOString : Z -> string
}.

(** [array.sort((a, b) => key(a) - key(b))]: the sort is stable. *)
Fixpoint insertByKey {A : Type} (key : A -> Z) (x : A) (sorted : list A) : list A :=
  match sorted with
  | [] => [x]
  | y :: rest => if key y <=? key x then y :: insertByKey key x rest else x :: y :: rest
  end.

Definition sortByKey {A : Type} (key : A -> Z) (l : list A) : list A :=
  foldr (fun x sorted => insertByKey key x sorted) [] (reverse l).

(** [/^\d+$/.test(s)] *)
Definition isDigit (c : ascii) : bool :=
  let n := N_of_ascii c in (48 <=? n)%N && (n <=? 57)%N.

Definition allDigits (s : string) : bool :=
  negb (String.eqb s "") && forallb isDigit (list_ascii_of_string s).

(** [parseInt(s, 10)] of a string of digits (exact below 2^53). *)
Definition parseInt10 (s : string) : Z := digitsValue 10 0 (digitsPrefix 10 s).

(** [String(array)]: the elements joined by commas. *)
Definition joined (l : list string) : string := String.concat "," l.

Section Handler.
Context `{Services} `{PlanCodes}.

(** [LightWorkspaceType & { createdAt; ... }] *)
Record PokeWorkspaceType : Type := {
  lightWorkspace : LightWorkspaceType;
  createdAt : string;
  upgradedAt : option string;
  subscription : SubscriptionType;
  adminEmail : option string;
  membersCount : Z;
  dataSourcesCount : Z;
  workspaceDomain : option WorkspaceDomain
}.

(** What the handler does with the response: an error through [apiError],
    the list [workspaces] with the status 200, or an exception. *)
Inductive Answer : Type :=
| answerError (error : APIErrorWithStatusCode)
| answerWorkspaces (workspaces : list PokeWorkspaceType)
| answerThrows.

Definition getPlanPriority (planCode : string) : Z :=
  if isEntreprisePlan planCode then 1
  else if isFriendsAndFamilyPlan planCode then 2
  else if isProPlan planCode then 3
  else if isFreePlan planCode then 4
  else if isOldFreePlan planCode then 5
  else 6.

(** [req.query.search ? decodeURIComponent(req.query.search as string).trim()
    : undefined]; an array is truthy, and is converted to a string.  [None]
    when [decodeURIComponent] throws. *)
Definition searchTerm (req : PokeRequest) : option (option string) :=
  match query_search req with
  | Undefined => Some None
  | Single s =>
      if String.eqb s "" then Some None
      else (fun decoded => Some (trim decoded)) <$> decodeURIComponent s
  | Multiple l => (fun decoded => Some (trim decoded)) <$> decodeURIComponent (joined l)
  end.

(** [listUpgraded], or [None] when [req.query.upgraded] is invalid. *)
Definition listUpgraded (req : PokeRequest) : option (option bool) :=
  match query_upgraded req with
  | Undefined => Some None
  | Single s =>
      if String.eqb s "true" || String.eqb s "false" then Some (Some (String.eqb s "true"))
      else None
  | Multiple _ => None
  end.

(** [originalLimit], or [None] when [req.query.limit] is invalid. *)
Definition originalLimit (req : PokeRequest) : option Z :=
  match query_limit req with
  | Undefined => Some 0
  | Single s => if allDigits s then Some (parseInt10 s) else None
  | Multiple _ => None
  end.

(** [Subscription.findAll({ where: { status: "active" }, include: [{ model:
    Plan, where: { code: { [Op.ne]: FREE_TEST_PLAN_CODE } } }] })] and
    [subscriptions.map((s) => s.workspaceId)] *)
Definition upgradedWorkspaceIds (db : Database) : list Z :=
  workspaceId
  <$> filter
        (fun s =>
           status s = active /\
           Exists (fun p => plan_id p = planId s /\
                            code (attributes p) <> FREE_TEST_PLAN_CODE) (plans db))
        (subscriptions db).

Definition upgradedConditions (db : Database) (listUpgraded : option bool)
  : list WhereOption :=
  match listUpgraded with
  | None => []
  | Some true => [id_in (upgradedWorkspaceIds db)]
  | Some false => [id_notIn (upgradedWorkspaceIds db)]
  end.

(** The conditions that the block [if (searchTerm) { ... }] pushes. *)
Definition searchConditions (searchTerm : string) : list WhereOption :=
  let byEmail :=
    if isEmailValid searchTerm then
      let users := listByEmail searchTerm in
      match users with
      | [] => []
      | _ =>
          match getLatestMemberships users with
          | [] => []
          | memberships => [id_in (membership_workspaceId <$> memberships)]
          end
      end
    else [] in
  let isSearchByEmail := match byEmail with [] => false | _ => true end in
  let byDomain :=
    if isDomain searchTerm then
      match findWorkspaceHasDomain searchTerm with
      | Some workspaceId' => [id_is workspaceId']
      | None => []
      end
    else [] in
  let isSearchByDomain := match byDomain with [] => false | _ => true end in
  byEmail ++ byDomain
  ++ (if negb isSearchByEmail && negb isSearchByDomain
      then [sId_or_name_iLike (searchTerm +:+ "%")] else []).

Definition renderWorkspace (ws : WorkspaceModel) : PokeWorkspaceType :=
  let subscription' :=
    renderSubscriptionFromModels (ws_plan ws) (Some (ws_subscription ws)) in
  let lightWorkspace' :=
    {| light_id := ws_id ws;
       light_sId := ws_sId ws;
       light_name := ws_name ws;
       light_role := "admin";
       light_segmentation := ws_segmentation ws;
       light_whiteListedProviders := ws_whiteListedProviders ws;
       light_defaultEmbeddingProvider := ws_defaultEmbeddingProvider ws |} in
  let dataSources := listByWorkspace (ws_sId ws) in
  let admins := getActiveMemberships lightWorkspace' in
  let firstAdmin :=
    match sortByKey membership_createdAt admins with
    | [] => None
    | first :: _ => fetchByModelId (membership_userId first)
    end in
  {| lightWorkspace := lightWorkspace';
     createdAt := toISOString (ws_createdAt ws);
     upgradedAt := toISOString <$> ws_upgradedAt ws;
     subscription := subscription';
     adminEmail := firstAdmin;
     membersCount := getMembersCountForWorkspace lightWorkspace';
     dataSourcesCount := Z.of_nat (length dataSources);
     workspaceDomain := getWorkspaceVerifiedDomain lightWorkspace' |}.

Definition invalidQuery (expected : string) : Answer :=
  answerError
    {| status_code := 400;
       api_error_type := "invalid_request_error";
       api_error_message :=
         "The request query is invalid, expects { " +:+ expected +:+ " }." |}.

(** [originalLimit] is not negative, so that [splice(originalLimit)] keeps the
    first [originalLimit] elements. *)
Definition handler (db : Database) (req : PokeRequest) : Answer :=
  let session := getSession (request req) in
  if negb (isDustSuperUser session) then
    answerError {| status_code := 404;
                   api_error_type := "user_not_found";
                   api_error_message := "Could not find the user." |}
  else if String.eqb (method (request req)) "GET" then
    match searchTerm req with
    | None => answerThrows
    | Some searchTerm =>
        match listUpgraded req with
        | None => invalidQuery "upgraded: boolean"
        | Some listUpgraded =>
            match originalLimit req with
            | None => invalidQuery "limit: number"
            | Some originalLimit =>
                let conditions := upgradedConditions db listUpgraded in
                let '(conditions, limit) :=
                  match orNull searchTerm with
                  | Some searchTerm =>
                      (* In case of search, we increase the limit for the sql
                         query to 100 because we'll sort manually *)
                      (conditions ++ searchConditions searchTerm, 100)
                  | None => (conditions, originalLimit)
                  end in
                let workspaces := findAllWorkspaces conditions limit in
                (* if limit is above originalLimit, sort manually and then
                   splice *)
                let workspaces :=
                  if originalLimit <? limit then
                    take (Z.to_nat originalLimit)
                      (sortByKey (fun ws => getPlanPriority (code (ws_plan ws)))
                         workspaces)
                  else workspaces in
                answerWorkspaces (renderWorkspace <$> workspaces)
            end
        end
    end
  else
    answerError {| status_code := 405;
                   api_error_type := "method_not_supported_error";
                   api_error_message :=
                     "The method passed is not supported, GET is expected." |}.

End Handler.

End PokeWorkspaces.

(** * Part II: properties *)

(** ** Facts on the JavaScript primitives *)

Module JSFacts.
Import JS.

Lemma append_nil (b : string) : "" +:+ b = b.
Proof. reflexivity. Qed.

Lemma append_cons (c : ascii) (a b : string) : String c a +:+ b = String c (a +:+ b).
Proof. reflexivity. Qed.

Lemma append_assoc (a b c : string) : (a +:+ b) +:+ c = a +:+ (b +:+ c).
Proof.
  induction a as [|x a IH]; [reflexivity|].
  now rewrite !append_cons, IH.
Qed.

Lemma append_empty_r (a : string) : a +:+ "" = a.
Proof.
  induction a as [|x a IH]; [reflexivity|].
  now rewrite append_cons, IH.
Qed.

Lemma prefix_append (p s : string) : String.prefix p (p +:+ s) = true.
Proof.
  induction p as [|c p IH].
  - now destruct s.
  - rewrite append_cons. simpl.
    destruct (ascii_dec c c) as [_|Hn]; [exact IH | now destruct Hn].
Qed.

Lemma dropChars_append (p s : string) : dropChars (String.length p) (p +:+ s) = s.
Proof.
  induction p as [|c p IH]; [reflexivity|].
  rewrite append_cons. simpl. exact IH.
Qed.

Lemma replace_unfold (s pat rep : string) :
  replace s pat rep =
  if String.prefix pat s then rep +:+ dropChars (String.length pat) s
  else match s with
       | EmptyString => EmptyString
       | String c s' => String c (replace s' pat rep)
       end.
Proof. destruct s; reflexivity. Qed.

(** Removing a prefix with [replace] leaves the rest of the string. *)
Lemma replace_own_prefix (p s : string) : replace (p +:+ s) p "" = s.
Proof.
  rewrite replace_unfold, prefix_append, append_nil. apply dropChars_append.
Qed.

(** Strings of decimal digits. *)
Fixpoint showDigits (ds : list N) : string :=
  match ds with
  | [] => ""
  | d :: r => String (pretty_N_char d) (showDigits r)
  end.

Lemma showDigits_app (ds es : list N) :
  showDigits (ds ++ es) = showDigits ds +:+ showDigits es.
Proof.
  induction ds as [|d ds IH]; simpl; [reflexivity|].
  now rewrite append_cons, IH.
Qed.

Lemma small_cases (d : N) :
  (d < 10)%N ->
  d = 0%N \/ d = 1%N \/ d = 2%N \/ d = 3%N \/ d = 4%N \/
  d = 5%N \/ d = 6%N \/ d = 7%N \/ d = 8%N \/ d = 9%N.
Proof. lia. Qed.

Ltac digit_cases d H :=
  apply small_cases in H;
  destruct H as [H|[H|[H|[H|[H|[H|[H|[H|[H|H]]]]]]]]]; subst d.

Lemma digitValue_char (d : N) :
  (d < 10)%N -> digitValue 10 (pretty_N_char d) = Some (Z.of_N d).
Proof. intros H. digit_cases d H; reflexivity. Qed.

Lemma digitsPrefix_showDigits (ds : list N) (s : string) :
  Forall (fun d => (d < 10)%N) ds ->
  digitsPrefix 10 (showDigits ds +:+ s) = map Z.of_N ds ++ digitsPrefix 10 s.
Proof.
  induction 1 as [|d ds Hd _ IH]; simpl; [reflexivity|].
  now rewrite (digitValue_char d Hd), IH.
Qed.

Lemma digitsValue_app (r acc : Z) (ds es : list Z) :
  digitsValue r acc (ds ++ es) = digitsValue r (digitsValue r acc ds) es.
Proof. unfold digitsValue. apply fold_left_app. Qed.

(** The digits that [pretty] writes for [x], most significant first. *)
Lemma pretty_N_go_digits (x : N) :
  forall s : string, exists ds : list N,
    pretty_N_go x s = showDigits ds +:+ s /\
    Forall (fun d => (d < 10)%N) ds /\
    (forall acc, digitsValue 10 acc (map Z.of_N ds)
                 = acc * 10 ^ Z.of_nat (length ds) + Z.of_N x) /\
    ((0 < x)%N -> ds <> []).
Proof.
  induction (N.lt_wf_0 x) as [x _ IH]. intros s.
  destruct (N.eq_dec x 0%N) as [->|Hx].
  - exists []. rewrite pretty_N_go_0. simpl. repeat split; [constructor | intros; lia | lia].
  - assert (Hpos : (0 < x)%N) by lia.
    rewrite (pretty_N_go_step x s Hpos).
    destruct (IH (x / 10)%N (N.div_lt x 10 Hpos eq_refl)
                (String (pretty_N_char (x mod 10)) s)) as (ds & Heq & Hall & Hval & _).
    exists (ds ++ [(x mod 10)%N]). repeat split.
    + rewrite Heq, showDigits_app, append_assoc. reflexivity.
    + apply Forall_app. split; [exact Hall|]. constructor; [|constructor].
      apply N.mod_lt. lia.
    + intros acc. rewrite map_app, digitsValue_app, Hval. simpl.
      rewrite length_app. simpl. rewrite Nat2Z.inj_add, Z.pow_add_r by lia.
      change (10 ^ Z.of_nat 1) with 10.
      pose proof (N.div_mod x 10 ltac:(lia)) as Hdm.
      assert (Z.of_N x = 10 * Z.of_N (x / 10) + Z.of_N (x mod 10)) by lia.
      lia.
    + intros _ Hnil. now destruct ds.
Qed.

Lemma trimStart_digit (d : N) (s : string) :
  (d < 10)%N -> trimStart (String (pretty_N_char d) s) = String (pretty_N_char d) s.
Proof. intros H. digit_cases d H; reflexivity. Qed.

(** [parseInt] reads back a non-empty string of decimal digits. *)
Lemma parseInt_showDigits (ds : list N) :
  Forall (fun d => (d < 10)%N) ds -> ds <> [] ->
  parseInt (showDigits ds) = toNumber (digitsValue 10 0 (map Z.of_N ds)).
Proof.
  intros Hall Hne. destruct ds as [|d ds]; [now destruct Hne|].
  pose proof (digitsPrefix_showDigits (d :: ds) "" Hall) as Hp.
  rewrite append_empty_r, app_nil_r in Hp.
  inversion Hall as [|? ? Hd Hds]; subst.
  unfold parseInt. simpl showDigits in *. rewrite (trimStart_digit d _ Hd).
  assert (Hone : forall z, 1 * z = z) by (intros; lia).
  destruct (N.eq_dec d 0%N) as [->|Hd0].
  - destruct ds as [|e ds]; [reflexivity|].
    inversion Hds as [|? ? He _]; subst. simpl showDigits in *.
    digit_cases e He; cbn [pretty_N_char] in *;
      rewrite Hp; simpl map; cbv beta iota; now rewrite Hone.
  - digit_cases d Hd; try (now destruct Hd0); cbn [pretty_N_char] in *;
      rewrite Hp; simpl map; cbv beta iota; now rewrite Hone.
Qed.

(** Below 10^21 a number is printed with its decimal digits. *)
Lemma numberToString_decimal (n : Z) :
  Z.abs n < 10 ^ 21 -> numberToString n = pretty n.
Proof.
  intros Hn. unfold numberToString.
  destruct (Z.ltb_spec (Z.abs n) (10 ^ 21)) as [_|Hge]; [reflexivity | lia].
Qed.

(** Every safe integer is a number. *)
Lemma toNumber_safe (n : Z) : Z.abs n <= MAX_SAFE_INTEGER -> toNumber n = Num n.
Proof.
  unfold MAX_SAFE_INTEGER. intros Hn. unfold toNumber. cbv zeta.
  destruct (Z.ltb_spec (Z.abs n) (2 ^ 53)) as [_|Hge]; [reflexivity | lia].
Qed.

(** [parseInt] inverts the printing of a nonnegative safe integer. *)
Lemma parseInt_numberToString (n : Z) :
  0 <= n <= MAX_SAFE_INTEGER -> parseInt (numberToString n) = Num n.
Proof.
  intros Hn. pose proof Hn as Hsafe. unfold MAX_SAFE_INTEGER in Hn.
  rewrite numberToString_decimal by lia.
  destruct n as [|p|p]; [reflexivity| |lia].
  unfold pretty, pretty_Z, pretty, pretty_positive, pretty, pretty_N.
  destruct (decide (N.pos p = 0%N)) as [Hz|_]; [discriminate|].
  destruct (pretty_N_go_digits (N.pos p) "") as (ds & Heq & Hall & Hval & Hne).
  rewrite Heq, append_empty_r, (parseInt_showDigits ds Hall (Hne ltac:(lia))).
  rewrite Hval. replace (0 * 10 ^ Z.of_nat (length ds) + Z.of_N (N.pos p)) with (Z.pos p) by lia.
  apply toNumber_safe. lia.
Qed.

End JSFacts.

(** ** Zendesk internal ids *)

Module ZendeskSpec.
Import JS JSFacts Zendesk.

Example getBrandInternalId_12_345 : getBrandInternalId 12 345 = "zendesk-brand-12-345".
Proof. reflexivity. Qed.

Example getBrandIdFromInternalId_12_345 :
  getBrandIdFromInternalId 12 "zendesk-brand-12-345" = Some (Num 345).
Proof. vm_compute. reflexivity. Qed.

Example parseInt_samples :
  parseInt "  -0x1fz" = Num (-31) /\ parseInt "abc" = NaN /\ parseInt "12px" = Num 12.
Proof. vm_compute. auto. Qed.

(** An internal id built as [prefix ++ digits of id] is read back as [id]. *)
Lemma getIdFromInternal_own (prefix : string) (id : Z) :
  0 <= id <= MAX_SAFE_INTEGER ->
  _getIdFromInternal (prefix +:+ numberToString id) prefix = Some (Num id).
Proof.
  intros Hid. unfold _getIdFromInternal, startsWith.
  now rewrite prefix_append, replace_own_prefix, parseInt_numberToString.
Qed.

Lemma getIdFromInternal_other (internalId prefix : string) :
  startsWith internalId prefix = false -> _getIdFromInternal internalId prefix = None.
Proof. intros H. unfold _getIdFromInternal. now rewrite H. Qed.

Lemma internal_id_shape (kind : string) (connectorId id : Z) :
  kind +:+ numberToString connectorId +:+ "-" +:+ numberToString id
  = (kind +:+ numberToString connectorId +:+ "-") +:+ numberToString id.
Proof. now rewrite !append_assoc. Qed.

(** C8 as it is worded, its first part: the round trip for every connector id
    and every nonnegative integer id. *)
Definition roundTripAsWorded : Prop :=
  forall connectorId id : Z,
    0 <= id ->
    getBrandIdFromInternalId connectorId (getBrandInternalId connectorId id) = Some (Num id) /\
    getCategoryIdFromInternalId connectorId (getCategoryInternalId connectorId id) = Some (Num id) /\
    getArticleIdFromInternalId connectorId (getArticleInternalId connectorId id) = Some (Num id) /\
    getTicketIdFromInternalId connectorId (getTicketInternalId connectorId id) = Some (Num id).




(** C9 (the code breaks it).  [getConversationInternalId] writes the
    category prefix, so a conversation's internal id is the internal id of the
    category with the same number, and [getCategoryIdFromInternalId] reads the
    conversation id out of it instead of returning null. *)
Theorem conversation_internal_id_is_category :
  getConversationInternalId 1 2 = getCategoryInternalId 1 2 /\
  getConversationInternalId 1 2 = "zendesk-category-1-2" /\
  getCategoryIdFromInternalId 1 (getConversationInternalId 1 2) = Some (Num 2).
Proof. vm_compute. auto. Qed.

End ZendeskSpec.

(** ** The file uploader hook *)

Module FileUploaderSpec.
Import JS FileUploader.

Definition sumZ (l : list Z) : Z := foldr Z.add 0 l.

(** The combined sizes as the limits are worded: held blobs and new files of a
    supported image type on one side, all the others on the other. *)
Definition imageTotal `{Client} (held : list FileBlob) (files : list File) : Z :=
  sumZ (map size (List.filter (fun b => isSupportedImageContentType (contentType b)) held))
  + sumZ (map file_size (List.filter (fun f => isSupportedImageContentType (type f)) files)).

Definition nonImageTotal `{Client} (held : list FileBlob) (files : list File) : Z :=
  sumZ (map size (List.filter (fun b => negb (isSupportedImageContentType (contentType b))) held))
  + sumZ (map file_size (List.filter (fun f => negb (isSupportedImageContentType (type f))) files)).

Section Totals.
Context `{Client}.

Definition addSize : Z * Z -> FileBlob + File -> Z * Z :=
  fun '(totalTextualSize, totalImageSize) content =>
    if isSupportedImageContentType (contentTypeOf content)
    then (totalTextualSize, totalImageSize + sizeOf content)
    else (totalTextualSize + sizeOf content, totalImageSize).

Lemma fold_addSize (contents : list (FileBlob + File)) (t i : Z) :
  fold_left addSize contents (t, i) =
  (t + sumZ (map sizeOf (List.filter
                           (fun c => negb (isSupportedImageContentType (contentTypeOf c)))
                           contents)),
   i + sumZ (map sizeOf (List.filter
                           (fun c => isSupportedImageContentType (contentTypeOf c))
                           contents))).
Proof.
  revert t i. induction contents as [|c contents IH]; intros t i; simpl.
  - f_equal; lia.
  - destruct (isSupportedImageContentType (contentTypeOf c)); simpl;
      rewrite IH; f_equal; lia.
Qed.

Lemma filter_map_inl (p : string -> bool) (held : list FileBlob) :
  map sizeOf (List.filter (fun c => p (contentTypeOf c)) (map inl held))
  = map size (List.filter (fun b => p (contentType b)) held).
Proof.
  induction held as [|b held IH]; simpl; [reflexivity|].
  destruct (p (contentType b)); simpl; now rewrite IH.
Qed.

Lemma filter_map_inr (p : string -> bool) (files : list File) :
  map sizeOf (List.filter (fun c => p (contentTypeOf c)) (map (@inr FileBlob File) files))
  = map file_size (List.filter (fun f => p (type f)) files).
Proof.
  induction files as [|f files IH]; simpl; [reflexivity|].
  destruct (p (type f)); simpl; now rewrite IH.
Qed.

Lemma sumZ_app (l1 l2 : list Z) : sumZ (l1 ++ l2) = sumZ l1 + sumZ l2.
Proof. induction l1 as [|x l1 IH]; simpl; [reflexivity | rewrite IH; lia]. Qed.

(** The reducer of [handleFilesUpload] computes the two combined sizes. *)
Lemma totalSizes_spec (held : list FileBlob) (files : list File) :
  totalSizes (map inl held ++ map inr files)
  = (nonImageTotal held files, imageTotal held files).
Proof.
  change (totalSizes (map inl held ++ map inr files))
    with (fold_left addSize (map inl held ++ map inr files) (0, 0)).
  rewrite fold_addSize, !List.filter_app, !map_app, !sumZ_app.
  rewrite (filter_map_inl (fun s => negb (isSupportedImageContentType s))).
  rewrite (filter_map_inr (fun s => negb (isSupportedImageContentType s))).
  rewrite (filter_map_inl isSupportedImageContentType).
  rewrite (filter_map_inr isSupportedImageContentType).
  reflexivity.
Qed.

End Totals.

(** C4. When the combined size of the held blobs and the new files of a
    supported image type exceeds 5 times the 5 MB image limit (25 MB), or the
    combined size of all the others exceeds 2 times the 30 MB plain-text limit
    (60 MB), [handleFilesUpload] returns early: it uploads nothing (the only
    effect is one notification), that notification is an error notification,
    and the held [fileBlobs] list is unchanged. *)
Theorem handleFilesUpload_too_large `{Client} (dustAPI : DustAPI) (closure : State)
    (files : list File) (updateBlobs : option bool) (st : State) (log : list Effect) :
  5 * (5 * 1024 * 1024) < imageTotal (fileBlobs closure) files \/
  2 * (30 * 1024 * 1024) < nonImageTotal (fileBlobs closure) files ->
  COMBINED_MAX_IMAGE_FILES_SIZE = 26214400 /\
  COMBINED_MAX_TEXT_FILES_SIZE = 62914560 /\
  notification_type filesTooLarge = "error" /\
  exists st',
    handleFilesUpload dustAPI closure files updateBlobs (st, log)
      = (None, (st', log ++ [Notify filesTooLarge])) /\
    fileBlobs st' = fileBlobs st.
Proof.
  intros Hbig. do 3 (split; [reflexivity|]).
  unfold handleFilesUpload. rewrite totalSizes_spec.
  unfold mbind, Hook_bind, setIsProcessingFiles.
  assert (Hcond :
    (COMBINED_MAX_TEXT_FILES_SIZE <? nonImageTotal (fileBlobs closure) files)
    || (COMBINED_MAX_IMAGE_FILES_SIZE <? imageTotal (fileBlobs closure) files) = true).
  { apply orb_true_iff. unfold COMBINED_MAX_TEXT_FILES_SIZE, COMBINED_MAX_IMAGE_FILES_SIZE,
      MAX_FILE_SIZES_plainText, MAX_FILE_SIZES_image.
    destruct Hbig as [Hi|Ht]; [right | left]; apply Z.ltb_lt; lia. }
  rewrite Hcond. eexists. split; reflexivity.
Qed.

(** A client that takes the two image types for images, and a held blob. *)
Definition sampleClient : Client :=
  {| isSupportedFileContentType := fun s => true;
     isSupportedImageContentType :=
       fun s => orb (String.eqb s "image/png") (String.eqb s "image/jpeg") |}.

Definition sampleFile (n : string) (t : string) (sz : Z) : File :=
  {| name := n; type := t; file_size := sz |}.

Definition sampleState : State :=
  {| fileBlobs := [createFileBlob (sampleFile "a.png" "image/png" 20000000) "image/png" None];
     isProcessingFiles := false |}.

Lemma handleFilesUpload_too_large_witness :
  exists st',
    @handleFilesUpload sampleClient (fun _ => Err "unreachable") sampleState
      [sampleFile "b.png" "image/png" 7000000] None (sampleState, [])
      = (None, (st', [] ++ [Notify filesTooLarge])) /\
    fileBlobs st' = fileBlobs sampleState.
Proof.
  apply (@handleFilesUpload_too_large sampleClient (fun _ => Err "unreachable") sampleState
           [sampleFile "b.png" "image/png" 7000000] None sampleState []).
  left. vm_compute. reflexivity.
Defined.

(** The notification for a selected file that is held already. *)
Definition alreadyUploaded (f : File) : Effect :=
  Notify {| notification_type := "error";
            title := "File already exists.";
            description := "File " +:+ dquote +:+ name f +:+ dquote +:+ " is already uploaded." |}.

(** A server that accepts every upload. *)
Definition acceptingAPI : DustAPI :=
  fun p => Ok {| uploaded_id := "fil_" +:+ fileName p;
                 downloadUrl := "https://files/" +:+ fileName p;
                 uploaded_publicUrl := None |}.

(** Two files of the same name in one selection are both uploaded; the merge
    through the [Map] keeps the last one. *)
Example upload_same_name_twice :
  let w := @run sampleClient "w1"
             [HandleFilesUpload acceptingAPI
                [sampleFile "a.txt" "text/plain" 10; sampleFile "a.txt" "text/plain" 12;
                 sampleFile "b.png" "image/png" 5] None]
             (initialState, []) in
  map (fun b => (id b, fileId b, size b)) (fileBlobs (fst w))
    = [("a.txt", Some "fil_a.txt", 12); ("b.png", Some "fil_b.png", 5)]
  /\ isProcessingFiles (fst w) = false.
Proof. vm_compute. split; reflexivity. Qed.

(** A file whose name is held already is announced and not uploaded again;
    [removeFile] drops a blob and asks the server to delete the file. *)
Example upload_held_then_remove :
  let w := @run sampleClient "w1"
             [HandleFilesUpload acceptingAPI
                [sampleFile "a.txt" "text/plain" 10; sampleFile "b.png" "image/png" 5] None;
              HandleFilesUpload acceptingAPI [sampleFile "a.txt" "text/plain" 11] None;
              RemoveFile "b.png"]
             (initialState, []) in
  map (fun b => (id b, size b)) (fileBlobs (fst w)) = [("a.txt", 10)]
  /\ List.filter (fun e => match e with Upload _ => false | _ => true end) (snd w)
     = [alreadyUploaded (sampleFile "a.txt" "text/plain" 11);
        FetchDelete "/api/w/w1/files/fil_b.png"].
Proof. vm_compute. split; reflexivity. Qed.

(** *** What the computations of the hook preserve *)

(** [preserves I m]: running [m] keeps the property [I] of the held blobs. *)
Definition preserves {A : Type} (I : list FileBlob -> Prop) (m : Hook A) : Prop :=
  forall w, I (fileBlobs (fst w)) -> I (fileBlobs (fst (snd (m w)))).

Section Preservation.
Variable I : list FileBlob -> Prop.

Lemma preserves_ret {A : Type} (a : A) : preserves I (mret a).
Proof. intros w Hw. exact Hw. Qed.

Lemma preserves_bind {A B : Type} (m : Hook A) (f : A -> Hook B) :
  preserves I m -> (forall a, preserves I (f a)) -> preserves I (m ≫= f).
Proof.
  intros Hm Hf w Hw. unfold mbind, Hook_bind.
  specialize (Hm w Hw). destruct (m w) as [a w']. now apply Hf.
Qed.

Lemma preserves_setFileBlobs (update : list FileBlob -> list FileBlob) :
  (forall l, I l -> I (update l)) -> preserves I (setFileBlobs update).
Proof. intros Hu [st log] Hw. simpl in *. now apply Hu. Qed.

Lemma preserves_setIsProcessingFiles (b : bool) : preserves I (setIsProcessingFiles b).
Proof. intros [st log] Hw. exact Hw. Qed.

Lemma preserves_emit (e : Effect) : preserves I (emit e).
Proof. intros [st log] Hw. exact Hw. Qed.

Lemma preserves_sendNotification (n : Notification) : preserves I (sendNotification n).
Proof. apply preserves_emit. Qed.

Lemma preserves_if {A : Type} (b : bool) (m1 m2 : Hook A) :
  preserves I m1 -> preserves I m2 -> preserves I (if b then m1 else m2).
Proof. now destruct b. Qed.

Lemma preserves_reduceM {A B : Type} (f : B -> A -> Hook B) (l : list A) :
  (forall acc x, preserves I (f acc x)) -> forall acc, preserves I (reduceM f l acc).
Proof.
  intros Hf. induction l as [|x l IH]; intros acc; simpl.
  - apply preserves_ret.
  - apply preserves_bind; [apply Hf | exact IH].
Qed.

End Preservation.

Create HintDb hook discriminated.
#[local] Hint Resolve preserves_ret preserves_setIsProcessingFiles preserves_emit
  preserves_sendNotification : hook.

(** *** Blobs with pairwise distinct ids *)

Definition distinctIds (l : list FileBlob) : Prop := NoDup (map id l).

Lemma distinctIds_filter (p : FileBlob -> bool) (l : list FileBlob) :
  distinctIds l -> distinctIds (List.filter p l).
Proof.
  unfold distinctIds. induction l as [|b l IH]; simpl; intros Hl; [exact Hl|].
  apply NoDup_cons in Hl as [Hb Hl]. destruct (p b); simpl; [|now apply IH].
  apply NoDup_cons. split; [|now apply IH].
  intros Hin. apply Hb. apply list_elem_of_fmap in Hin as (b' & Heq & Hb').
  apply list_elem_of_fmap. exists b'. split; [exact Heq|].
  apply list_elem_of_In. apply list_elem_of_In in Hb'.
  now apply List.filter_In in Hb' as [? _].
Qed.

(** The entries of the [Map]: distinct keys, each the id of its blob. *)
Definition wfMap (m : list (string * FileBlob)) : Prop :=
  NoDup (map fst m) /\ Forall (fun e => fst e = id (snd e)) m.

Lemma mapSet_keys (k : string) (v : FileBlob) (m : list (string * FileBlob)) (x : string) :
  x ∈ map fst (mapSet k v m) <-> x = k \/ x ∈ map fst m.
Proof.
  induction m as [|[k' v'] m IH]; simpl.
  - rewrite list_elem_of_singleton. split; [auto | intros [?|Hx]; [auto | inversion Hx]].
  - destruct (String.eqb_spec k' k) as [->|Hne]; simpl.
    + rewrite !elem_of_cons. tauto.
    + rewrite !elem_of_cons, IH. tauto.
Qed.

Lemma mapSet_wf (v : FileBlob) (m : list (string * FileBlob)) :
  wfMap m -> wfMap (mapSet (id v) v m).
Proof.
  intros [Hnd Hid]. induction m as [|[k' v'] m IH]; simpl.
  - split; [apply NoDup_singleton | constructor; [reflexivity | constructor]].
  - simpl in Hnd. apply NoDup_cons in Hnd as [Hk Hnd]. inversion Hid as [|? ? Hv Hid']; subst.
    destruct (String.eqb_spec k' (id v)) as [->|Hne]; simpl.
    + split; [apply NoDup_cons; auto | constructor; auto].
    + destruct (IH Hnd Hid') as [Hnd' Hall']. split.
      * apply NoDup_cons. split; [|exact Hnd'].
        rewrite mapSet_keys. simpl. intros [?|?]; [congruence | contradiction].
      * constructor; auto.
Qed.

Lemma fold_mapSet_wf (blobs : list FileBlob) (m : list (string * FileBlob)) :
  wfMap m -> wfMap (fold_left (fun m blob => mapSet (id blob) blob m) blobs m).
Proof.
  revert m. induction blobs as [|b blobs IH]; intros m Hm; simpl; [exact Hm|].
  apply IH. now apply mapSet_wf.
Qed.

Lemma newMap_wf (prevFiles : list FileBlob) :
  wfMap (newMap (map (fun blob => (id blob, blob)) prevFiles)).
Proof.
  unfold newMap.
  assert (Hgen : forall m, wfMap m ->
            wfMap (fold_left (fun m e => mapSet (fst e) (snd e) m)
                     (map (fun blob => (id blob, blob)) prevFiles) m)).
  { induction prevFiles as [|b l IH]; intros m Hm; simpl; [exact Hm|].
    apply IH. now apply mapSet_wf. }
  apply Hgen. split; constructor.
Qed.

Lemma mapValues_ids (m : list (string * FileBlob)) :
  wfMap m -> distinctIds (mapValues m).
Proof.
  intros [Hnd Hid]. unfold distinctIds, mapValues.
  replace (map id (map snd m)) with (map fst m); [exact Hnd|].
  induction Hid as [|e m He _ IH]; simpl; [reflexivity|].
  simpl in Hnd. apply NoDup_cons in Hnd as [_ Hnd]. now rewrite He, IH.
Qed.

(** Whatever the list before, the merge through the [Map] leaves distinct ids. *)
Lemma mergeSuccessful_distinct (successfulBlobs prevFiles : list FileBlob) :
  distinctIds (mergeSuccessful successfulBlobs prevFiles).
Proof.
  unfold mergeSuccessful. apply mapValues_ids, fold_mapSet_wf, newMap_wf.
Qed.

Section Invariant.
Context `{Client}.
Variable owner_sId : string.

Lemma processSelectedFiles_preserves (closure : State) (files : list File) :
  preserves distinctIds (processSelectedFiles closure files).
Proof.
  apply preserves_reduceM. intros acc f. apply preserves_if.
  - apply preserves_bind; [auto with hook | intro; auto with hook].
  - cbv zeta. apply preserves_if; auto with hook.
Qed.

Lemma uploadFiles_preserves (dustAPI : DustAPI) (blobs : list FileBlob) :
  preserves distinctIds (uploadFiles dustAPI blobs).
Proof.
  apply preserves_reduceM. intros acc b.
  apply preserves_bind; [|intro; auto with hook].
  unfold uploadFile. apply preserves_bind; [auto with hook|].
  intros _. destruct (dustAPI _); auto with hook.
Qed.

Lemma processResults_preserves (results : list (Result FileBlob FileBlobUploadError))
    (updateBlobs : option bool) :
  preserves distinctIds (processResults results updateBlobs).
Proof.
  unfold processResults. apply preserves_bind.
  - apply preserves_reduceM. intros [s e] [v|err]; [auto with hook|].
    apply preserves_bind; [auto with hook | intro; auto with hook].
  - intros [s e]. apply preserves_bind; [|intro; auto with hook].
    apply preserves_if; [|auto with hook].
    apply preserves_bind.
    + apply preserves_if; [|auto with hook].
      apply preserves_setFileBlobs. intros l. apply distinctIds_filter.
    + intros _. apply preserves_if; [|auto with hook].
      apply preserves_setFileBlobs. intros l _. apply mergeSuccessful_distinct.
Qed.

Lemma handleFilesUpload_preserves (dustAPI : DustAPI) (closure : State)
    (files : list File) (updateBlobs : option bool) :
  preserves distinctIds (handleFilesUpload dustAPI closure files updateBlobs).
Proof.
  unfold handleFilesUpload. apply preserves_bind; [auto with hook|]. intros _.
  destruct (totalSizes _) as [t i]. apply preserves_if.
  - apply preserves_bind; [auto with hook | intro; auto with hook].
  - apply preserves_bind; [apply processSelectedFiles_preserves|]. intros previewResults.
    apply preserves_bind; [apply processResults_preserves|]. intros newFileBlobs.
    apply preserves_bind; [apply uploadFiles_preserves|]. intros uploadResults.
    apply preserves_bind; [apply processResults_preserves|]. intros finalFileBlobs.
    apply preserves_bind; [auto with hook | intro; auto with hook].
Qed.

Lemma removeFile_preserves (closure : State) (fileId : string) :
  preserves distinctIds (removeFile owner_sId closure fileId).
Proof.
  unfold removeFile. destruct (find _ _) as [fileBlob|]; [|auto with hook].
  apply preserves_bind.
  - apply preserves_setFileBlobs. intros l. apply distinctIds_filter.
  - intros _. apply preserves_bind; [auto with hook|]. intros _.
    apply preserves_if; auto with hook.
Qed.

Lemma resetUpload_preserves : preserves distinctIds resetUpload.
Proof. apply preserves_setFileBlobs. intros l _. constructor. Qed.

(** Every call keeps the ids distinct, whatever render it is made from. *)
Lemma perform_distinct (closure : State) (op : Operation) (w : State * list Effect) :
  distinctIds (fileBlobs (fst w)) ->
  distinctIds (fileBlobs (fst (perform owner_sId closure op w))).
Proof.
  destruct op as [dustAPI files updateBlobs|fileId|]; simpl.
  - apply handleFilesUpload_preserves.
  - apply removeFile_preserves.
  - apply resetUpload_preserves.
Qed.

Lemma run_distinct (ops : list Operation) (w : State * list Effect) :
  distinctIds (fileBlobs (fst w)) ->
  distinctIds (fileBlobs (fst (run owner_sId ops w))).
Proof.
  revert w. induction ops as [|op ops IH]; intros w Hw; simpl; [exact Hw|].
  apply IH. now apply perform_distinct.
Qed.

Lemma runFrom_distinct (calls : list (State * Operation)) (w : State * list Effect) :
  distinctIds (fileBlobs (fst w)) ->
  distinctIds (fileBlobs (fst (runFrom owner_sId calls w))).
Proof.
  revert w. induction calls as [|[closure op] calls IH]; intros w Hw; simpl; [exact Hw|].
  apply IH. now apply perform_distinct.
Qed.

(** What [processSelectedFiles] makes of a file that is not held yet. *)
Definition preview (f : File) : Result FileBlob FileBlobUploadError :=
  if negb (isSupportedFileContentType (type f))
  then Err {| code := file_type_not_supported;
              error_file := f;
              message := "File " +:+ dquote +:+ name f +:+ dquote +:+ " is not supported." |}
  else Ok (createFileBlob f (type f) None).


Lemma processSelectedFiles_from (closure : State) (files : list File)
    (acc : list (Result FileBlob FileBlobUploadError)) (st : State) (log : list Effect) :
  reduceM
    (fun acc f =>
       if alreadyExists closure f then
         _ ← sendNotification
               {| notification_type := "error";
                  title := "File already exists.";
                  description := "File " +:+ dquote +:+ name f +:+ dquote
                                 +:+ " is already uploaded." |};
         mret acc
       else
         let contentType := type f in
         if negb (isSupportedFileContentType contentType) then
           mret (acc ++ [Err {| code := file_type_not_supported;
                               error_file := f;
                               message := "File " +:+ dquote +:+ name f +:+ dquote
                                          +:+ " is not supported." |}])
         else
           mret (acc ++ [Ok (createFileBlob f contentType None)]))
    files acc (st, log)
  = (acc ++ map preview (List.filter (fun f => negb (alreadyExists closure f)) files),
     (st, log ++ map alreadyUploaded (List.filter (alreadyExists closure) files))).
Proof.
  revert acc log. induction files as [|f files IH]; intros acc log; simpl.
  - now rewrite !app_nil_r.
  - unfold mbind, Hook_bind at 1. destruct (alreadyExists closure f) eqn:Hex; simpl.
    + rewrite IH. now rewrite <- app_assoc.
    + assert (Hp : preview f = preview f) by reflexivity.
      unfold preview at 2 in Hp.
      destruct (negb (isSupportedFileContentType (type f))); simpl;
        unfold mret, Hook_ret; rewrite IH, <- Hp; now rewrite <- app_assoc.
Qed.

(** C10. [processSelectedFiles] skips every selected file whose name is the
    id of a held blob: such a file gets a notification and no entry, neither
    [Ok] nor [Err], and the other files get one entry each, in order.  After
    every sequence of [handleFilesUpload], [removeFile] and [resetUpload]
    calls from the initial state, the ids of the held blobs are pairwise
    distinct, also when calls are made from stale renders. *)
Theorem fileBlobs_ids_distinct (closure : State) (selectedFiles : list File)
    (st : State) (log : list Effect) (ops : list Operation)
    (calls : list (State * Operation)) :
  processSelectedFiles closure selectedFiles (st, log)
  = (map preview
       (List.filter
          (fun f => negb (existsb (fun b => String.eqb (id b) (name f)) (fileBlobs closure)))
          selectedFiles),
     (st, log ++ map alreadyUploaded
                   (List.filter
                      (fun f => existsb (fun b => String.eqb (id b) (name f)) (fileBlobs closure))
                      selectedFiles)))
  /\ NoDup (map id (fileBlobs (fst (run owner_sId ops (initialState, [])))))
  /\ NoDup (map id (fileBlobs (fst (runFrom owner_sId calls (initialState, []))))).
Proof.
  split; [|split].
  - unfold processSelectedFiles. now rewrite processSelectedFiles_from.
  - apply run_distinct. constructor.
  - apply runFrom_distinct. constructor.
Qed.

End Invariant.

End FileUploaderSpec.

(** ** The conversation "include file" action *)

Module IncludeFileSpec.
Import JS JSFacts IncludeFile.

Section Rendering.
Context `{Services}.
Variable this : ConversationIncludeFileAction.
Variable conversation : ConversationType.
Variable model : ModelConfigurationType.

(** A content fragment of the conversation with the requested file id and an
    includable content type. *)
Definition requested (m : ContentFragmentType) : Prop :=
  In (ContentFragment m) (concat (content conversation)) /\
  isConversationIncludableFileContentType (contentType m) = true /\
  fileId m = Some (params_fileId this).

(** The fragment is found, it renders to the text [text], and the tokenizer
    counts [tokens] for it. *)
Definition rendersTo (text : string) (tokens : list Z) : Prop :=
  exists m value rest,
    findFragment this conversation = Some m /\
    renderContentFragmentForModel m conversation model true = Ok value /\
    rendered_content value = TextContent text :: rest /\
    tokenize text (providerId model) (modelId model) = Ok tokens.

Definition tokenCount (tokens : list Z) : Q := inject_Z (Z.of_nat (length tokens)).

(** The condition under which the file is included. *)
Definition includable (text : string) : Prop :=
  exists tokens, rendersTo text tokens /\ (tokenCount tokens <= contextSize model # 4)%Q.

Definition tooManyTokensError : string :=
  "Error: File `" +:+ params_fileId this
  +:+ "` has too many tokens to be included, use semantic search instead.".

Lemma wanted_requested (x : MessageType) :
  wanted this x = true ->
  exists m, x = ContentFragment m /\
            isConversationIncludableFileContentType (contentType m) = true /\
            fileId m = Some (params_fileId this).
Proof.
  destruct x as [s|s|m]; simpl; try discriminate.
  intros Hw. apply andb_true_iff in Hw as [Hi Hf].
  apply bool_decide_eq_true in Hf. now exists m.
Qed.

Lemma findFragment_Some (m : ContentFragmentType) :
  findFragment this conversation = Some m -> requested m.
Proof.
  unfold findFragment.
  destruct (find (wanted this) (concat (content conversation))) as [x|] eqn:Hfind;
    [|discriminate].
  apply find_some in Hfind as [Hin Hw].
  destruct (wanted_requested x Hw) as (m' & -> & Hi & Hf).
  intros [= <-]. now split.
Qed.

Lemma findFragment_None :
  findFragment this conversation = None -> forall m, ~ requested m.
Proof.
  unfold findFragment.
  destruct (find (wanted this) (concat (content conversation))) as [x|] eqn:Hfind.
  - apply find_some in Hfind as [_ Hw].
    destruct (wanted_requested x Hw) as (m' & -> & _). discriminate.
  - intros _ m (Hin & Hi & Hf).
    pose proof (find_none _ _ Hfind _ Hin) as Hw. simpl in Hw.
    rewrite Hi, Hf in Hw. simpl in Hw.
    rewrite bool_decide_eq_false in Hw. now apply Hw.
Qed.

Lemma tooManyTokens_false (tokens : list Z) :
  (tokenCount tokens <= contextSize model # 4)%Q -> tooManyTokens tokens model = false.
Proof.
  intros Hle. unfold tooManyTokens. apply negb_false_iff. now apply Qle_bool_iff.
Qed.

Lemma tooManyTokens_true (tokens : list Z) :
  (contextSize model # 4 < tokenCount tokens)%Q -> tooManyTokens tokens model = true.
Proof.
  intros Hlt. unfold tooManyTokens. apply negb_true_iff.
  destruct (Qle_bool _ _) eqn:Hb; [|reflexivity].
  apply Qle_bool_iff in Hb. now apply Qlt_not_le in Hlt.
Qed.

Lemma render_of_rendersTo (text : string) (tokens : list Z) :
  rendersTo text tokens ->
  renderForMultiActionsModel this conversation model
  = if tooManyTokens tokens model
    then Returns (finalize this tooManyTokensError)
    else Returns (finalize this text).
Proof.
  intros (m & value & rest & Hm & Hr & Hc & Ht).
  unfold renderForMultiActionsModel. now rewrite Hm, Hr, Hc, Ht.
Qed.

Lemma error_prefix (rest : string) : startsWith ("Error: " +:+ rest) "Error: " = true.
Proof. apply prefix_append. Qed.

(** Whatever is returned is the included text or an error message. *)
Lemma render_cases (msg : FunctionMessageTypeModel) :
  renderForMultiActionsModel this conversation model = Returns msg ->
  (exists text, includable text /\ message_content msg = text) \/
  ((forall text, ~ includable text) /\ startsWith (message_content msg) "Error: " = true).
Proof.
  unfold renderForMultiActionsModel.
  destruct (findFragment this conversation) as [m|] eqn:Hm.
  2:{ intros [= <-]. right. split; [|apply (error_prefix _)].
      intros text (tokens & (m & ? & ? & Hm' & _) & _). congruence. }
  destruct (renderContentFragmentForModel m conversation model true) as [value|e] eqn:Hr.
  2:{ intros [= <-]. right. split; [|apply (error_prefix _)].
      intros text (tokens & (m' & ? & ? & Hm' & Hr' & _) & _). congruence. }
  destruct (rendered_content value) as [|[text|url] rest] eqn:Hc; [discriminate | |].
  2:{ intros [= <-]. right. split; [|apply (error_prefix _)].
      intros text (tokens & (m' & ? & ? & Hm' & Hr' & Hc' & _) & _). congruence. }
  destruct (tokenize text (providerId model) (modelId model)) as [tokens|e] eqn:Ht.
  2:{ intros [= <-]. right. split; [|apply (error_prefix _)].
      intros text' (tokens & (m' & ? & ? & Hm' & Hr' & Hc' & Ht') & _). congruence. }
  destruct (tooManyTokens tokens model) eqn:Htoo; intros [= <-].
  - right. split; [|apply (error_prefix _)].
    intros text' (tokens' & (m' & ? & ? & Hm' & Hr' & Hc' & Ht') & Hle).
    assert (text' = text) by congruence. subst text'.
    assert (tokens' = tokens) by congruence. subst tokens'.
    rewrite (tooManyTokens_false tokens Hle) in Htoo. discriminate.
  - left. exists text. split; [|reflexivity].
    exists tokens. split; [now exists m, value, rest|].
    unfold tooManyTokens in Htoo. apply negb_false_iff in Htoo.
    now apply Qle_bool_iff in Htoo.
Qed.

(** C5. [renderForMultiActionsModel] returns a function message whose content
    is exactly the file's text if a content fragment with the requested file
    id and an includable content type is found in the conversation, its
    rendered content is text and its token count is at most the context size
    divided by 4; and only then: when no text meets these conditions, what is
    returned is an error message.  When the token count exceeds the context
    size divided by 4 the content is the error that the file has too many
    tokens.  The image and the CSV / TSV content types are never includable,
    and the fragment that [find] returns is one of the conversation, with the
    requested file id and an includable content type, whenever there is one. *)
Theorem renderForMultiActionsModel_includes
    (text : string) (tokens : list Z) (msg : FunctionMessageTypeModel)
    (m : ContentFragmentType) (contentType : SupportedContentFragmentType) :
  (includable text ->
     renderForMultiActionsModel this conversation model = Returns (finalize this text) /\
     role (finalize this text) = "function" /\
     message_content (finalize this text) = text) /\
  (renderForMultiActionsModel this conversation model = Returns msg ->
     (exists text, includable text /\ message_content msg = text) \/
     ((forall text, ~ includable text) /\
      startsWith (message_content msg) "Error: " = true)) /\
  (rendersTo text tokens -> (contextSize model # 4 < tokenCount tokens)%Q ->
     renderForMultiActionsModel this conversation model
     = Returns (finalize this
                  ("Error: File `" +:+ params_fileId this
                   +:+ "` has too many tokens to be included, use semantic search instead."))) /\
  (isSupportedImageContentType contentType = true \/
   contentType = text_comma_separated_values \/ contentType = text_csv \/
   contentType = text_tab_separated_values \/ contentType = text_tsv ->
     isConversationIncludableFileContentType contentType = false) /\
  (findFragment this conversation = Some m -> requested m) /\
  (requested m -> exists m', findFragment this conversation = Some m').
Proof.
  split; [|split; [|split; [|split; [|split]]]].
  - intros (tokens' & Hr & Hle).
    rewrite (render_of_rendersTo text tokens' Hr), (tooManyTokens_false tokens' Hle).
    auto.
  - apply render_cases.
  - intros Hr Hlt.
    now rewrite (render_of_rendersTo text tokens Hr), (tooManyTokens_true tokens Hlt).
  - intros [Hi|[->|[->|[->| ->]]]]; try reflexivity.
    unfold isConversationIncludableFileContentType. now rewrite Hi.
  - apply findFragment_Some.
  - intros Hreq. destruct (findFragment this conversation) as [m'|] eqn:Hm; [now exists m'|].
    now destruct (findFragment_None Hm m).
Qed.

End Rendering.

(** A conversation that holds the plain-text file [f1], rendered as the text
    [hello] of three tokens. *)
Definition sampleServices : Services :=
  {| renderContentFragmentForModel := fun _ _ _ _ =>
       Ok {| rendered_name := "attachment"; rendered_content := [TextContent "hello"] |};
     tokenize := fun _ _ _ => Ok [1; 2; 3] |}.

Definition sampleAction : ConversationIncludeFileAction :=
  {| id := 7; agentMessageId := 1; params_fileId := "f1";
     functionCallId := None; functionCallName := None; step := 0 |}.

Definition sampleFragment : ContentFragmentType :=
  {| sId := "cf1"; title := "notes.txt"; contentType := text_plain; fileId := Some "f1" |}.

Definition sampleConversation : ConversationType :=
  {| content := [[UserMessage "u1"]; [ContentFragment sampleFragment]; [AgentMessage "a1"]] |}.

Definition sampleModel (contextSize : Z) : ModelConfigurationType :=
  {| providerId := "openai"; modelId := "gpt"; contextSize := contextSize |}.

Lemma sample_rendersTo (contextSize : Z) :
  @rendersTo sampleServices sampleAction sampleConversation (sampleModel contextSize)
    "hello" [1; 2; 3].
Proof.
  exists sampleFragment,
    {| rendered_name := "attachment"; rendered_content := [TextContent "hello"] |}, [].
  repeat split.
Defined.

Lemma renderForMultiActionsModel_includes_witness :
  @renderForMultiActionsModel sampleServices sampleAction sampleConversation (sampleModel 12)
    = Returns (finalize sampleAction "hello") /\
  @renderForMultiActionsModel sampleServices sampleAction sampleConversation (sampleModel 8)
    = Returns (finalize sampleAction
        "Error: File `f1` has too many tokens to be included, use semantic search instead.") /\
  ((exists text,
      @includable sampleServices sampleAction sampleConversation (sampleModel 12) text /\
      message_content (finalize sampleAction "hello") = text) \/
   ((forall text,
       ~ @includable sampleServices sampleAction sampleConversation (sampleModel 12) text) /\
    startsWith (message_content (finalize sampleAction "hello")) "Error: " = true)) /\
  isConversationIncludableFileContentType text_csv = false /\
  requested sampleAction sampleConversation sampleFragment /\
  exists m', findFragment sampleAction sampleConversation = Some m'.
Proof.
  destruct (@renderForMultiActionsModel_includes sampleServices sampleAction
              sampleConversation (sampleModel 12) "hello" [1; 2; 3]
              (finalize sampleAction "hello") sampleFragment text_csv)
    as (H1 & H2 & _ & H4 & H5 & H6).
  destruct (@renderForMultiActionsModel_includes sampleServices sampleAction
              sampleConversation (sampleModel 8) "hello" [1; 2; 3]
              (finalize sampleAction "hello") sampleFragment text_csv)
    as (_ & _ & H3 & _).
  assert (Hreq : requested sampleAction sampleConversation sampleFragment)
    by (apply H5; reflexivity).
  split.
  { apply H1. exists [1; 2; 3]. split; [apply sample_rendersTo|].
    unfold Qle. simpl. lia. }
  split.
  { apply H3; [apply sample_rendersTo|]. unfold Qlt. simpl. lia. }
  split; [apply H2; reflexivity |].
  split; [apply H4; auto |].
  split; [exact Hreq | apply H6; exact Hreq].
Defined.

End IncludeFileSpec.

(** ** Dataset accessors *)

Module DatasetsSpec.
Import Datasets.

Section GetDatasetHash.
Context `{DustAPI}.
Variable table : list Dataset.
Variable auth : Authenticator.
Variable app : AppType.
Variable name' : string.

(** The dataset of the given hash as the core API has it, null when the call
    fails. *)
Definition fetched (dataset : Dataset) (hash : string) : Completion (option DatasetType) :=
  match getDataset (dustAPIProjectId app) (dataset_name dataset) hash with
  | Err _ => Returned None
  | Ok apiDataset =>
      Returned (Some {| name := dataset_name dataset;
                        description := dataset_description dataset;
                        data := Some apiDataset |})
  end.

Lemma findOne_name (owner : WorkspaceType) (dataset : Dataset) :
  findOne table (workspace_id owner) (internalId app) name' = Some dataset ->
  In dataset table /\ workspaceId dataset = workspace_id owner /\
  appId dataset = internalId app /\ dataset_name dataset = name'.
Proof.
  intros Hf. apply find_some in Hf as [Hin Hp].
  apply andb_true_iff in Hp as [Hp Hn]. apply andb_true_iff in Hp as [Hw Ha].
  repeat split; [exact Hin | lia | lia | now apply String.eqb_eq].
Qed.

Lemma getDatasetHash_found (owner : WorkspaceType) (dataset : Dataset) (hash : string) :
  workspace auth = Some owner ->
  findOne table (workspace_id owner) (internalId app) name' = Some dataset ->
  getDatasetHash table auth app name' hash
  = if String.eqb hash "latest" then
      match getDatasets (dustAPIProjectId app) with
      | Err _ => Returned None
      | Ok datasets =>
          match getProperty datasets (dataset_name dataset) with
          | None => Returned None
          | Some value =>
              match lengthOf value with
              | Some 0 => Returned None
              | _ =>
                  match first value with
                  | Some version => fetched dataset (Datasets.hash version)
                  | None => ThrowsTypeError
                  end
              end
          end
      end
    else fetched dataset hash.
Proof. intros Ho Hd. unfold getDatasetHash. now rewrite Ho, Hd. Qed.

(** An own property is read before the prototype, which holds no list of
    versions. *)
Lemma getProperty_own (datasets : gmap string (list DatasetVersion)) (key : string)
    (entries : list DatasetVersion) :
  datasets !! key = Some entries -> getProperty datasets key = Some (versions entries).
Proof. intros Hown. unfold getProperty. now rewrite Hown. Qed.

Lemma getProperty_inherited (datasets : gmap string (list DatasetVersion)) (key : string)
    (entries : list DatasetVersion) :
  datasets !! key = None -> getProperty datasets key <> Some (versions entries).
Proof.
  intros Hown Hread. unfold getProperty in Hread. rewrite Hown in Hread.
  destruct (find _ objectPrototype) as [[key' value]|] eqn:Hfind; [|discriminate].
  injection Hread as Hvalue. simpl in Hvalue. subst value.
  apply find_some in Hfind as [Hin _]. unfold objectPrototype in Hin. simpl in Hin.
  repeat (destruct Hin as [Hin|Hin]; [discriminate Hin|]). exact Hin.
Qed.

(** [getDatasetHash], return by return.  It returns null when the
    authenticator has no workspace, when the named dataset does not exist for
    the app and the workspace, and when a core API call fails: the listing of
    the datasets (made for the hash [latest] only), also when the name is no
    property of the listing or an own property without hashes, and the fetch
    of the dataset.  For a name that is an own property of the listing, the
    hash [latest] is replaced by the hash of the first entry of the list, and
    the content fetched under that hash is what is returned.  For a name that
    the listing only inherits, with a value whose length is not 0, the call
    throws. *)
Lemma getDatasetHash_null_or_latest
    (owner : WorkspaceType) (dataset : Dataset) (hash : string)
    (datasets : gmap string (list DatasetVersion)) (version : DatasetVersion)
    (rest : list DatasetVersion) (error : string) (apiDataset : DatasetData)
    (inherited : Property) :
  (workspace auth = None -> getDatasetHash table auth app name' hash = Returned None) /\
  (workspace auth = Some owner ->
   findOne table (workspace_id owner) (internalId app) name' = None ->
     getDatasetHash table auth app name' hash = Returned None) /\
  (workspace auth = Some owner ->
   findOne table (workspace_id owner) (internalId app) name' = Some dataset ->
     dataset_name dataset = name' /\
     (getDatasets (dustAPIProjectId app) = Err error ->
        getDatasetHash table auth app name' "latest" = Returned None) /\
     (getDatasets (dustAPIProjectId app) = Ok datasets ->
      getProperty datasets name' = None \/ datasets !! name' = Some [] ->
        getDatasetHash table auth app name' "latest" = Returned None) /\
     (getDatasets (dustAPIProjectId app) = Ok datasets ->
      datasets !! name' = None ->
      getProperty datasets name' = Some inherited ->
      lengthOf inherited <> Some 0 ->
        getDatasetHash table auth app name' "latest" = ThrowsTypeError) /\
     (getDatasets (dustAPIProjectId app) = Ok datasets ->
      datasets !! name' = Some (version :: rest) ->
        (getDataset (dustAPIProjectId app) name' (Datasets.hash version) = Err error ->
           getDatasetHash table auth app name' "latest" = Returned None) /\
        (getDataset (dustAPIProjectId app) name' (Datasets.hash version) = Ok apiDataset ->
           getDatasetHash table auth app name' "latest"
           = Returned (Some {| name := name';
                               description := dataset_description dataset;
                               data := Some apiDataset |}))) /\
     (hash <> "latest" ->
        (getDataset (dustAPIProjectId app) name' hash = Err error ->
           getDatasetHash table auth app name' hash = Returned None) /\
        (getDataset (dustAPIProjectId app) name' hash = Ok apiDataset ->
           getDatasetHash table auth app name' hash
           = Returned (Some {| name := name';
                               description := dataset_description dataset;
                               data := Some apiDataset |})))).
Proof.
  split; [|split].
  - intros Ho. unfold getDatasetHash. now rewrite Ho.
  - intros Ho Hd. unfold getDatasetHash. now rewrite Ho, Hd.
  - intros Ho Hd. destruct (findOne_name owner dataset Hd) as (_ & _ & _ & Hn).
    pose proof (fun h => getDatasetHash_found owner dataset h Ho Hd) as Hg.
    rewrite Hn in Hg. unfold fetched in Hg. rewrite Hn in Hg.
    split; [exact Hn|]. split; [|split; [|split; [|split]]].
    + intros He. rewrite Hg. simpl. now rewrite He.
    + intros Hok Hno. rewrite Hg. simpl. rewrite Hok.
      destruct Hno as [-> | Hempty]; [reflexivity|].
      now rewrite (getProperty_own _ _ _ Hempty).
    + intros Hok Hown Hinherited Hlength. rewrite Hg. simpl. rewrite Hok, Hinherited.
      destruct inherited as [entries|arity|].
      * now apply getProperty_inherited in Hinherited.
      * simpl in Hlength |- *. destruct arity; [now destruct Hlength | reflexivity..].
      * reflexivity.
    + intros Hok Hfirst. rewrite Hg. simpl.
      rewrite Hok, (getProperty_own _ _ _ Hfirst). simpl.
      split; intros Hget; now rewrite Hget.
    + intros Hne. apply String.eqb_neq in Hne.
      split; intros Hget; rewrite Hg, Hne; now rewrite Hget.
Qed.

End GetDatasetHash.

(** A core API that lists two versions of the dataset [train] and serves the
    first of them only. *)
Definition sampleAPI : DustAPI :=
  {| getDatasets := fun _ =>
       Ok {[ "train" := [ {| hash := "h2"; created := 2 |}; {| hash := "h1"; created := 1 |} ] ]};
     getDataset := fun _ _ hash =>
       if String.eqb hash "h2" then Ok ["row"] else Err "not found" |}.

Definition sampleTable : list Dataset :=
  [ {| workspaceId := 1; appId := 10; dataset_name := "train";
       dataset_description := Some "training set" |} ].

Definition sampleOwner : WorkspaceType := {| workspace_id := 1; workspace_sId := "w1" |}.
Definition sampleApp : AppType := {| internalId := 10; dustAPIProjectId := "p" |}.

(** The datasets of an app of which the core API lists none: one is named
    [constructor], one [draft]. *)
Definition unlistedTable : list Dataset :=
  [ {| workspaceId := 1; appId := 10; dataset_name := "constructor";
       dataset_description := None |};
    {| workspaceId := 1; appId := 10; dataset_name := "draft";
       dataset_description := None |} ].

(** C6 (the code breaks it).  The core API lists no dataset named
    [constructor], and none named [draft]: it reports no hashes for them.  For
    the dataset [draft], [getDatasetHash] returns null on the hash [latest],
    as C6 says.  For the dataset [constructor] it throws a [TypeError]:
    [dataset.name in datasets] holds through [Object.prototype], the [length]
    of the inherited function is 1, its element [0] is undefined, and reading
    [.hash] of it throws. *)
Theorem getDatasetHash_throws_on_inherited_name :
  (exists datasets,
     @getDatasets sampleAPI (dustAPIProjectId sampleApp) = Ok datasets /\
     datasets !! "constructor" = None /\ datasets !! "draft" = None) /\
  @getDatasetHash sampleAPI unlistedTable {| workspace := Some sampleOwner |} sampleApp
    "draft" "latest" = Returned None /\
  @getDatasetHash sampleAPI unlistedTable {| workspace := Some sampleOwner |} sampleApp
    "constructor" "latest" = ThrowsTypeError.
Proof.
  split; [|split; reflexivity].
  eexists. split; [reflexivity|]. split; apply lookup_singleton_ne; discriminate.
Qed.

End DatasetsSpec.

(** ** The authentication wrappers *)

Module ApiWrappersSpec.
Import ApiWrappers.

(** The route answers with the given status and error type. *)
Definition answers {H : Type} (r : Reply H) (status : Z) (type : string) : Prop :=
  exists message, r = apiError status type message.

(** The route calls the wrapped handler. *)
Definition invokes {H : Type} (r : Reply H) : Prop :=
  exists call, r = Handler call.

Lemma answers_not_invokes {H : Type} (r : Reply H) (status : Z) (type : string) :
  answers r status type -> ~ invokes r.
Proof. intros [msg ->] [call Hc]. discriminate. Qed.

Lemma answers_intro {H : Type} (status : Z) (type message : string) :
  answers (@apiError H status type message) status type.
Proof. now exists message. Qed.

#[local] Hint Resolve answers_intro : core.

(** The query parameter [wId] is absent, is not a string, or is empty. *)
Definition noWorkspaceId (req : NextApiRequest) : Prop :=
  query_wId req = Undefined \/ (exists l, query_wId req = Multiple l) \/
  query_wId req = Single "".

Section Session.
Context `{AuthLib}.
Variable opts : SessionOptions.
Variable req : NextApiRequest.

(** C1. A route wrapped by [withSessionAuthenticationForWorkspace] answers,
    in the order of its checks: 401 [not_authenticated] when [getSession]
    returns no session; else 404 when the query parameter [wId] is absent or
    not a string (or empty); else 404 when the workspace, the plan or the user
    that the authenticator resolved is missing; else 401
    [workspace_auth_error] when the user is not a member of the workspace and
    [allowUserOutsideCurrentWorkspace] is not set.  In each of these cases the
    wrapped handler is not invoked; in the remaining case it is invoked with
    the authenticator and the session. *)
Theorem withSessionAuthenticationForWorkspace_rejects
    (session : SessionWithUser) (wId : string) :
  let reply := withSessionAuthenticationForWorkspace opts req in
  (getSession req = None ->
     answers reply 401 "not_authenticated" /\ ~ invokes reply) /\
  (getSession req = Some session -> noWorkspaceId req ->
     answers reply 404 "workspace_not_found" /\ ~ invokes reply) /\
  (getSession req = Some session -> query_wId req = Single wId -> wId <> "" ->
     let auth := fromSession session wId in
     (workspace auth = None \/ plan auth = None ->
        answers reply 404 "workspace_not_found" /\ ~ invokes reply) /\
     (workspace auth <> None -> plan auth <> None -> user auth = None ->
        answers reply 404 "workspace_user_not_found" /\ ~ invokes reply) /\
     (workspace auth <> None -> plan auth <> None -> user auth <> None ->
      isUser auth = false ->
      enabled (allowUserOutsideCurrentWorkspace opts) = false ->
        answers reply 401 "workspace_auth_error" /\ ~ invokes reply) /\
     (workspace auth <> None -> plan auth <> None -> user auth <> None ->
      isUser auth = true \/ enabled (allowUserOutsideCurrentWorkspace opts) = true ->
        reply = Handler (auth, session))) /\
  (invokes reply ->
     exists session wId,
       getSession req = Some session /\ query_wId req = Single wId /\ wId <> "" /\
       workspace (fromSession session wId) <> None /\
       plan (fromSession session wId) <> None /\
       user (fromSession session wId) <> None /\
       (isUser (fromSession session wId) = true \/
        enabled (allowUserOutsideCurrentWorkspace opts) = true) /\
       reply = Handler (fromSession session wId, session)).
Proof.
  intros reply. subst reply.
  unfold withSessionAuthenticationForWorkspace, withSessionAuthentication, withLogging.
  assert (Hrej : forall (r : Reply (Authenticator * SessionWithUser)) status type,
             answers r status type -> answers r status type /\ ~ invokes r).
  { intros r status type Ha. split; [exact Ha | eapply answers_not_invokes, Ha]. }
  split; [|split; [|split]].
  4:{ intros [call Hcall]. revert Hcall.
      destruct (getSession req) as [session'|]; [|discriminate].
      destruct (query_wId req) as [|wId'|l]; try discriminate.
      destruct (String.eqb_spec wId' "") as [|Hne]; [discriminate|].
      intros Hcall. exists session', wId'. do 3 (split; [easy|]).
      destruct (workspace (fromSession session' wId')); [|discriminate].
      destruct (plan (fromSession session' wId')); [|discriminate].
      destruct (user (fromSession session' wId')); [|discriminate].
      do 3 (split; [easy|]).
      destruct (isUser (fromSession session' wId')); [split; [now left | reflexivity]|].
      destruct (enabled (allowUserOutsideCurrentWorkspace opts));
        [split; [now right | reflexivity] | discriminate]. }
  - intros ->. now apply Hrej.
  - intros -> [Hq|[[l Hq]|Hq]]; rewrite Hq; simpl; now apply Hrej.
  - intros -> Hq Hne. rewrite Hq. apply String.eqb_neq in Hne. rewrite Hne.
    set (auth := fromSession session wId). split; [|split; [|split]].
    + intros [Hw|Hp]; [rewrite Hw | rewrite Hp; destruct (workspace auth)]; now apply Hrej.
    + intros Hw Hp Hu.
      destruct (workspace auth); [|easy]. destruct (plan auth); [|easy].
      rewrite Hu. now apply Hrej.
    + intros Hw Hp Hu Hm Ha.
      destruct (workspace auth); [|easy]. destruct (plan auth); [|easy].
      destruct (user auth); [|easy]. rewrite Hm, Ha. simpl. now apply Hrej.
    + intros Hw Hp Hu Hm.
      destruct (workspace auth); [|easy]. destruct (plan auth); [|easy].
      destruct (user auth); [|easy].
      destruct Hm as [-> | ->]; [reflexivity|]. now rewrite andb_false_r.
Qed.

End Session.

(** A library for the examples: the session is read from the authorization
    header; workspace [w1] has the user as a member, workspace [w2] has not,
    and no other workspace exists.  The API key [sk-1] belongs to [w1]. *)
Definition resolved (member : bool) : Authenticator :=
  {| workspace := Some {| workspace_sId := "w" |};
     plan := Some {| plan_code := "FREE_TEST_PLAN" |};
     user := Some {| user_sId := "u" |};
     isUser := member;
     isBuilder := member;
     key := None |}.

Definition unresolved : Authenticator :=
  {| workspace := None; plan := None; user := None;
     isUser := false; isBuilder := false; key := None |}.

Definition authenticatorFor (wId : string) : Authenticator :=
  if String.eqb wId "w1" then resolved true
  else if String.eqb wId "w2" then resolved false
  else unresolved.

Definition sampleLib : AuthLib :=
  {| DecodedToken := string;
     Scope := unit;
     RequiredScopes := unit;
     GroupIds := unit;
     getSession := fun req =>
       match header_authorization req with
       | Single s => if String.eqb s "session" then Some {| session_sub := s |} else None
       | _ => None
       end;
     fromSession := fun _ wId => authenticatorFor wId;
     getBearerToken := fun req =>
       match header_authorization req with
       | Single s => Ok s
       | _ => Err "no bearer token"
       end;
     getAuthType := fun token => if String.eqb token "jwt" then access_token else api_key;
     getRequiredScope := fun _ _ => None;
     verifyAuth0Token := fun token _ => Ok token;
     fromAuth0Token := fun _ wId => authenticatorFor wId;
     getAPIKey := fun _ => Ok {| key_id := 1; key_name := "sk-1" |};
     getGroupIdsFromHeaders := fun _ => tt;
     fromKey := fun _ wId _ =>
       (authenticatorFor wId,
        {| workspace := Some {| workspace_sId := "w1" |};
           plan := Some {| plan_code := "FREE_TEST_PLAN" |};
           user := None; isUser := false; isBuilder := true;
           key := Some {| key_id := 1; key_name := "sk-1" |} |});
     exchangeSystemKeyForUserAuthByEmail := fun _ _ => None |}.

Definition request (wId authorization : ParamValue) : NextApiRequest :=
  {| method := "GET"; url := "/api/w/w1/apps"; query_wId := wId;
     header_userEmail := Undefined; header_authorization := authorization |}.

Definition strict : SessionOptions :=
  {| isStreaming := None; allowUserOutsideCurrentWorkspace := None |}.

Lemma withSessionAuthenticationForWorkspace_rejects_witness :
  (answers (@withSessionAuthenticationForWorkspace sampleLib strict
              (request (Single "w1") Undefined)) 401 "not_authenticated" /\
   ~ invokes (@withSessionAuthenticationForWorkspace sampleLib strict
                (request (Single "w1") Undefined))) /\
  (answers (@withSessionAuthenticationForWorkspace sampleLib strict
              (request Undefined (Single "session"))) 404 "workspace_not_found" /\
   ~ invokes (@withSessionAuthenticationForWorkspace sampleLib strict
                (request Undefined (Single "session")))) /\
  (answers (@withSessionAuthenticationForWorkspace sampleLib strict
              (request (Single "w3") (Single "session"))) 404 "workspace_not_found" /\
   ~ invokes (@withSessionAuthenticationForWorkspace sampleLib strict
                (request (Single "w3") (Single "session")))) /\
  (answers (@withSessionAuthenticationForWorkspace sampleLib strict
              (request (Single "w2") (Single "session"))) 401 "workspace_auth_error" /\
   ~ invokes (@withSessionAuthenticationForWorkspace sampleLib strict
                (request (Single "w2") (Single "session")))) /\
  @withSessionAuthenticationForWorkspace sampleLib strict
    (request (Single "w1") (Single "session"))
  = Handler (resolved true, {| session_sub := "session" |}).
Proof.
  pose (session := {| session_sub := "session" |}).
  destruct (@withSessionAuthenticationForWorkspace_rejects sampleLib strict
              (request (Single "w1") Undefined) session "w1") as (H1 & _).
  destruct (@withSessionAuthenticationForWorkspace_rejects sampleLib strict
              (request Undefined (Single "session")) session "w1") as (_ & H2 & _).
  destruct (@withSessionAuthenticationForWorkspace_rejects sampleLib strict
              (request (Single "w3") (Single "session")) session "w3") as (_ & _ & H3 & _).
  destruct (H3 eq_refl eq_refl ltac:(discriminate)) as (H3' & _).
  destruct (@withSessionAuthenticationForWorkspace_rejects sampleLib strict
              (request (Single "w2") (Single "session")) session "w2") as (_ & _ & H4 & _).
  destruct (H4 eq_refl eq_refl ltac:(discriminate)) as (_ & _ & H4' & _).
  destruct (@withSessionAuthenticationForWorkspace_rejects sampleLib strict
              (request (Single "w1") (Single "session")) session "w1") as (_ & _ & H5 & _).
  destruct (H5 eq_refl eq_refl ltac:(discriminate)) as (_ & _ & _ & H5').
  split; [apply H1; reflexivity|].
  split; [apply H2; [reflexivity | now left]|].
  split; [apply H3'; now left|].
  split; [apply H4'; try reflexivity; discriminate|].
  apply H5'; try discriminate. now left.
Defined.

Section Public.
Context `{AuthLib}.
Variable opts : PublicOptions.
Variable req : NextApiRequest.

Lemma reject {T : Type} (r : Reply T) (status : Z) (type : string) :
  answers r status type -> answers r status type /\ ~ invokes r.
Proof. intros Ha. split; [exact Ha | eapply answers_not_invokes, Ha]. Qed.

(** C2, as the code has it.  For a request whose query parameter [wId] is a
    non-empty string (any other request is answered 404), a route wrapped by
    [withPublicAPIAuthentication] answers 401 when the bearer token cannot be
    extracted; 401 when an Auth0 access token fails verification, resolves to
    no user, or resolves to a user who is not a member of the workspace; and
    401 [workspace_auth_error] when an API key that was retrieved, and whose
    workspace authenticator found the workspace and its plan, does not hold
    the builder role, unless [allowUserOutsideCurrentWorkspace] is set.  The
    wrapped handler is invoked only when none of these rejections fire. *)
Theorem withPublicAPIAuthentication_rejects
    (wId token error : string) (decoded : DecodedToken) (keyRes : KeyType) :
  let reply := withPublicAPIAuthentication opts req in
  let scope := getRequiredScope req (requiredScopes opts) in
  let allow := enabled (public_allowUserOutsideCurrentWorkspace opts) in
  (noWorkspaceId req -> answers reply 404 "workspace_not_found" /\ ~ invokes reply) /\
  (query_wId req = Single wId -> wId <> "" ->
     (getBearerToken req = Err error ->
        answers reply 401 "not_authenticated" /\ ~ invokes reply) /\
     (getBearerToken req = Ok token -> getAuthType token = access_token ->
        (verifyAuth0Token token scope = Err error ->
           answers reply 401 "not_authenticated" /\ ~ invokes reply) /\
        (verifyAuth0Token token scope = Ok decoded ->
           let auth := fromAuth0Token decoded wId in
           (user auth = None ->
              answers reply 401 "not_authenticated" /\ ~ invokes reply) /\
           (user auth <> None -> isUser auth = false ->
              answers reply 401 "workspace_auth_error" /\ ~ invokes reply) /\
           (user auth <> None -> isUser auth = true -> reply = Handler (auth, None)))) /\
     (getBearerToken req = Ok token -> getAuthType token = api_key ->
      getAPIKey req = Ok keyRes ->
        let workspaceAuth := fst (fromKey keyRes wId (getGroupIdsFromHeaders req)) in
        workspace workspaceAuth <> None -> plan workspaceAuth <> None ->
        (isBuilder workspaceAuth = false -> allow = false ->
           answers reply 401 "workspace_auth_error" /\ ~ invokes reply) /\
        (isBuilder workspaceAuth = true \/ allow = true -> invokes reply))) /\
  (invokes reply ->
     exists wId token,
       query_wId req = Single wId /\ wId <> "" /\ getBearerToken req = Ok token /\
       ((getAuthType token = access_token /\
         exists decoded,
           verifyAuth0Token token scope = Ok decoded /\
           user (fromAuth0Token decoded wId) <> None /\
           isUser (fromAuth0Token decoded wId) = true) \/
        (getAuthType token = api_key /\
         exists keyRes,
           getAPIKey req = Ok keyRes /\
           (isBuilder (fst (fromKey keyRes wId (getGroupIdsFromHeaders req))) = true \/
            allow = true)))).
Proof.
  intros reply scope allow. subst reply scope allow.
  unfold withPublicAPIAuthentication, withLogging.
  split; [|split].
  - intros [Hq|[[l Hq]|Hq]]; rewrite Hq; simpl; now apply reject.
  - intros Hq Hne. rewrite Hq. apply String.eqb_neq in Hne. rewrite Hne.
    split; [|split].
    + intros ->. now apply reject.
    + intros -> ->. split.
      * intros ->. now apply reject.
      * intros ->. set (auth := fromAuth0Token decoded wId). split; [|split].
        -- intros ->. now apply reject.
        -- intros Hu ->. destruct (user auth); [|easy]. simpl. now apply reject.
        -- intros Hu ->. now destruct (user auth).
    + intros -> -> ->.
      destruct (fromKey keyRes wId (getGroupIdsFromHeaders req)) as [workspaceAuth keyAuth].
      simpl. intros Hw Hp.
      destruct (workspace workspaceAuth); [|easy]. destruct (plan workspaceAuth); [|easy].
      split.
      * intros -> ->. simpl. now apply reject.
      * intros Hok.
        assert (Hc : negb (isBuilder workspaceAuth)
                     && negb (enabled (public_allowUserOutsideCurrentWorkspace opts)) = false).
        { destruct Hok as [-> | ->]; [reflexivity | apply andb_false_r]. }
        rewrite Hc. eexists. reflexivity.
  - intros [call Hcall]. revert Hcall.
    destruct (query_wId req) as [|wId'|l] eqn:Hq; try discriminate.
    destruct (String.eqb_spec wId' "") as [|Hne]; [discriminate|].
    destruct (getBearerToken req) as [token'|e] eqn:Ht; [|discriminate].
    intros Hcall. exists wId', token'. do 3 (split; [easy|]).
    destruct (getAuthType token') eqn:Hm.
    + left. split; [reflexivity|].
      destruct (verifyAuth0Token _ _) as [decoded'|e] eqn:Hv; [|discriminate].
      exists decoded'. split; [reflexivity|].
      destruct (user (fromAuth0Token decoded' wId')); [|discriminate].
      destruct (isUser (fromAuth0Token decoded' wId')); [easy|discriminate].
    + right. split; [reflexivity|].
      destruct (getAPIKey req) as [keyRes'|e] eqn:Hk; [|discriminate].
      exists keyRes'. split; [reflexivity|].
      destruct (fromKey keyRes' wId' (getGroupIdsFromHeaders req)) as [workspaceAuth keyAuth].
      simpl.
      destruct (workspace workspaceAuth); [|discriminate].
      destruct (plan workspaceAuth); [|discriminate].
      destruct (isBuilder workspaceAuth); [now left|].
      destruct (enabled (public_allowUserOutsideCurrentWorkspace opts)); [now right|].
      discriminate.
Qed.

End Public.

Definition strictPublic : @PublicOptions sampleLib :=
  {| public_isStreaming := None;
     public_allowUserOutsideCurrentWorkspace := None;
     requiredScopes := None |}.

(** The API-key clause of C2 as it is worded: whenever the workspace
    authenticator of the key does not hold the builder role, and the option is
    not set, the answer is 401 [workspace_auth_error]. *)
Definition apiKeyClauseAsWorded `{AuthLib} : Prop :=
  forall (opts : PublicOptions) (req : NextApiRequest) (wId token : string)
         (keyRes : KeyType),
    query_wId req = Single wId ->
    getBearerToken req = Ok token -> getAuthType token = api_key ->
    getAPIKey req = Ok keyRes ->
    isBuilder (fst (fromKey keyRes wId (getGroupIdsFromHeaders req))) = false ->
    enabled (public_allowUserOutsideCurrentWorkspace opts) = false ->
    answers (withPublicAPIAuthentication opts req) 401 "workspace_auth_error".

(** C2 fails as worded: an API key used on a workspace that does not exist
    gives an authenticator without the builder role, and the route answers
    404 [workspace_not_found], not 401. *)
Lemma api_key_on_unknown_workspace :
  @withPublicAPIAuthentication sampleLib strictPublic (request (Single "w3") (Single "sk-1"))
    = apiError 404 "workspace_not_found" "The workspace was not found." /\
  ~ @apiKeyClauseAsWorded sampleLib.
Proof.
  split; [reflexivity|].
  intros Hclaim.
  destruct (Hclaim strictPublic (request (Single "w3") (Single "sk-1")) "w3" "sk-1"
              {| key_id := 1; key_name := "sk-1" |}
              eq_refl eq_refl eq_refl eq_refl eq_refl eq_refl) as [message Hreply].
  discriminate Hreply.
Qed.

Lemma withPublicAPIAuthentication_rejects_witness :
  (answers (@withPublicAPIAuthentication sampleLib strictPublic
              (request (Single "w1") Undefined)) 401 "not_authenticated" /\
   ~ invokes (@withPublicAPIAuthentication sampleLib strictPublic
                (request (Single "w1") Undefined))) /\
  (answers (@withPublicAPIAuthentication sampleLib strictPublic
              (request (Single "w2") (Single "jwt"))) 401 "workspace_auth_error" /\
   ~ invokes (@withPublicAPIAuthentication sampleLib strictPublic
                (request (Single "w2") (Single "jwt")))) /\
  (answers (@withPublicAPIAuthentication sampleLib strictPublic
              (request (Single "w2") (Single "sk-1"))) 401 "workspace_auth_error" /\
   ~ invokes (@withPublicAPIAuthentication sampleLib strictPublic
                (request (Single "w2") (Single "sk-1")))) /\
  invokes (@withPublicAPIAuthentication sampleLib strictPublic
             (request (Single "w1") (Single "sk-1"))).
Proof.
  pose (k := {| key_id := 1; key_name := "sk-1" |}).
  destruct (@withPublicAPIAuthentication_rejects sampleLib strictPublic
              (request (Single "w1") Undefined) "w1" "jwt" "no bearer token" "jwt" k)
    as (_ & H1 & _).
  destruct (H1 eq_refl ltac:(discriminate)) as (H1a & _).
  destruct (@withPublicAPIAuthentication_rejects sampleLib strictPublic
              (request (Single "w2") (Single "jwt")) "w2" "jwt" "e" "jwt" k)
    as (_ & H2 & _).
  destruct (H2 eq_refl ltac:(discriminate)) as (_ & H2a & _).
  destruct (H2a eq_refl eq_refl) as (_ & H2b).
  destruct (H2b eq_refl) as (_ & H2c & _).
  destruct (@withPublicAPIAuthentication_rejects sampleLib strictPublic
              (request (Single "w2") (Single "sk-1")) "w2" "sk-1" "e" "jwt" k)
    as (_ & H3 & _).
  destruct (H3 eq_refl ltac:(discriminate)) as (_ & _ & H3a).
  destruct (H3a eq_refl eq_refl eq_refl ltac:(discriminate) ltac:(discriminate)) as (H3b & _).
  destruct (@withPublicAPIAuthentication_rejects sampleLib strictPublic
              (request (Single "w1") (Single "sk-1")) "w1" "sk-1" "e" "jwt" k)
    as (_ & H4 & _).
  destruct (H4 eq_refl ltac:(discriminate)) as (_ & _ & H4a).
  destruct (H4a eq_refl eq_refl eq_refl ltac:(discriminate) ltac:(discriminate)) as (_ & H4b).
  split; [apply H1a; reflexivity|].
  split; [apply H2c; [discriminate | reflexivity]|].
  split; [apply H3b; reflexivity|].
  apply H4b. now left.
Defined.

End ApiWrappersSpec.

(** ** Plans and subscriptions *)

Module SubscriptionSpec.
Import JS Subscription.

(** The active subscriptions of a workspace. *)
Definition activeOf (workspaceId' : Z) (table : list SubscriptionRow) : list SubscriptionRow :=
  filter (fun s => workspaceId s = workspaceId' /\ status s = active) table.

Definition atMostOneActive (workspaceId' : Z) (table : list SubscriptionRow) : Prop :=
  (length (activeOf workspaceId' table) <= 1)%nat.

Section OneActive.
Variable workspaceId' : Z.

Lemma activeOf_none (table : list SubscriptionRow) :
  findActiveSubscription table workspaceId' = None -> activeOf workspaceId' table = [].
Proof.
  intros Hnone. apply list_find_None in Hnone. unfold activeOf.
  induction Hnone as [|s table Hs _ IH]; [reflexivity|].
  now rewrite filter_cons_False.
Qed.

(** Ending the one active subscription leaves none. *)
Lemma activeOf_ended (now : Z) (table : list SubscriptionRow) (i : nat) (s : SubscriptionRow) :
  findActiveSubscription table workspaceId' = Some (i, s) ->
  atMostOneActive workspaceId' table ->
  activeOf workspaceId' (<[i := endSubscription now s]> table) = [].
Proof.
  intros Hfind Hone. apply list_find_Some in Hfind as (Hi & Hs & _).
  unfold atMostOneActive, activeOf in *.
  rewrite <- (take_drop_middle table i s Hi) in Hone.
  rewrite filter_app, filter_cons_True, length_app in Hone by exact Hs.
  simpl in Hone.
  rewrite insert_take_drop by (eapply lookup_lt_Some, Hi).
  rewrite filter_app, filter_cons_False by (simpl; intros [_ Hst]; discriminate).
  destruct (filter _ (take i table)); [|simpl in Hone; lia].
  destruct (filter _ (drop (S i) table)); [reflexivity | simpl in Hone; lia].
Qed.

Lemma activeOf_endActive (now : Z) (table : list SubscriptionRow) :
  atMostOneActive workspaceId' table ->
  activeOf workspaceId'
    (endActive now (findActiveSubscription table workspaceId') table) = [].
Proof.
  intros Hone.
  destruct (findActiveSubscription table workspaceId') as [[i s]|] eqn:Hfind; simpl.
  - now apply (activeOf_ended now table i s).
  - now apply activeOf_none.
Qed.

Lemma endActive_previous (now : Z) (table : list SubscriptionRow) (i : nat)
    (s : SubscriptionRow) :
  findActiveSubscription table workspaceId' = Some (i, s) ->
  endActive now (Some (i, s)) table !! i = Some (endSubscription now s).
Proof.
  intros Hfind. apply list_find_Some in Hfind as (Hi & _). simpl.
  apply list_lookup_insert_eq. eapply lookup_lt_Some, Hi.
Qed.

End OneActive.

Section Subscribe.
Context `{PlanCodes}.
Variable now : Z.
Variable generateModelSId : string.

(** The subscription that was active has been ended at the current time. *)
Definition previousEnded (previous : option (nat * SubscriptionRow))
    (table' : list SubscriptionRow) : Prop :=
  forall i s, previous = Some (i, s) ->
    exists s', table' !! i = Some s' /\ s' = endSubscription now s /\
               status s' = ended /\ endDate s' = Some now.

(** The last row is the new active subscription of the workspace, with the
    customer id of the previous one. *)
Definition createdActive (workspace : Workspace) (previous : option (nat * SubscriptionRow))
    (table' : list SubscriptionRow) (rendered : SubscriptionType) : Prop :=
  exists new,
    last table' = Some new /\
    activeOf (workspace_id workspace) table' = [new] /\
    status new = active /\ workspaceId new = workspace_id workspace /\
    startDate new = Some now /\ sId new = generateModelSId /\
    stripeCustomerId new = orNull ((snd <$> previous) ≫= stripeCustomerId) /\
    sub_stripeCustomerId rendered = stripeCustomerId new /\
    (previous = None -> stripeCustomerId new = None) /\
    (forall i s customer, previous = Some (i, s) ->
       stripeCustomerId s = Some customer -> customer <> "" ->
       stripeCustomerId new = Some customer).

Lemma orNull_idem (x : option string) : orNull (orNull x) = orNull x.
Proof.
  destruct x as [c|]; [|reflexivity]. simpl.
  destruct (String.eqb c "") eqn:Hc; [reflexivity|]. simpl. now rewrite Hc.
Qed.

Lemma created (workspace : Workspace) (plan : Plan) (table : list SubscriptionRow) :
  atMostOneActive (workspace_id workspace) table ->
  let previous := findActiveSubscription table (workspace_id workspace) in
  let new := newSubscription generateModelSId workspace plan now previous in
  createdActive workspace previous (endActive now previous table ++ [new])
    (renderSubscriptionFromModels (attributes plan) (Some new)).
Proof.
  intros Hone previous new. exists new.
  split; [apply last_snoc|]. split.
  { unfold activeOf. rewrite filter_app.
    fold (activeOf (workspace_id workspace) (endActive now previous table)).
    subst previous. rewrite (activeOf_endActive _ now table Hone).
    now rewrite filter_cons_True. }
  do 5 (split; [reflexivity|]).
  split; [simpl; apply orNull_idem|]. split.
  - intros ->. reflexivity.
  - intros i s customer -> Hc Hne. simpl. rewrite Hc. simpl.
    apply String.eqb_neq in Hne. now rewrite Hne.
Qed.

Lemma ended_previous (workspace : Workspace) (table : list SubscriptionRow)
    (extra : list SubscriptionRow) :
  let previous := findActiveSubscription table (workspace_id workspace) in
  previousEnded previous (endActive now previous table ++ extra).
Proof.
  intros previous i s Hp. exists (endSubscription now s).
  split; [|now repeat split].
  rewrite Hp. apply lookup_app_l_Some.
  apply (endActive_previous (workspace_id workspace)). exact Hp.
Qed.

(** Ending the active subscription of one workspace leaves the active
    subscriptions of the others as they are. *)
Lemma activeOf_endActive_other (workspace : Workspace) (other : Z)
    (table : list SubscriptionRow) :
  other <> workspace_id workspace ->
  activeOf other
    (endActive now (findActiveSubscription table (workspace_id workspace)) table)
  = activeOf other table.
Proof.
  intros Hne.
  destruct (findActiveSubscription table (workspace_id workspace)) as [[i s]|] eqn:Hfind;
    [|reflexivity].
  apply list_find_Some in Hfind as (Hi & [Hs _] & _). simpl. unfold activeOf.
  rewrite insert_take_drop by (eapply lookup_lt_Some, Hi).
  rewrite <- (take_drop_middle table i s Hi) at 3.
  rewrite !filter_app, !filter_cons_False; [reflexivity| |];
    simpl; intros [Hw _]; congruence.
Qed.

Lemma atMostOneActive_created (workspace : Workspace) (plan : Plan) (other : Z)
    (table : list SubscriptionRow) :
  (forall wId, atMostOneActive wId table) ->
  let previous := findActiveSubscription table (workspace_id workspace) in
  atMostOneActive other
    (endActive now previous table
     ++ [newSubscription generateModelSId workspace plan now previous]).
Proof.
  intros Hall previous.
  destruct (Z.eq_dec other (workspace_id workspace)) as [->|Hne].
  - destruct (created workspace plan table (Hall _)) as (new & _ & Hact & _).
    unfold atMostOneActive. fold previous in Hact. now rewrite Hact.
  - unfold atMostOneActive, activeOf. rewrite filter_app.
    fold (activeOf other (endActive now previous table)).
    subst previous. rewrite (activeOf_endActive_other workspace other table Hne).
    rewrite filter_cons_False by (simpl; intros [Hw _]; congruence).
    rewrite filter_nil, app_nil_r. apply Hall.
Qed.

End Subscribe.

Section Reachable.
Context `{PlanCodes}.

(** The databases that the three functions reach from a table without
    subscriptions; every call reads its own clock and generates its own id. *)
Inductive reachable : Database -> Prop :=
| reachable_empty (db : Database) :
    subscriptions db = [] -> reachable db
| reachable_no_plan (db db' : Database) (now : Z) (workspaceId' : string)
    (r : SubscriptionType) :
    reachable db ->
    internalSubscribeWorkspaceToFreeNoPlan now workspaceId' db = Ok (r, db') ->
    reachable db'
| reachable_test_plan (db db' : Database) (now : Z) (generateModelSId workspaceId' : string)
    (r : SubscriptionType) :
    reachable db ->
    internalSubscribeWorkspaceToFreeTestPlan now generateModelSId workspaceId' db
      = Ok (r, db') ->
    reachable db'
| reachable_upgraded_plan (db db' : Database) (now : Z)
    (generateModelSId workspaceId' : string) (planCode : option string)
    (r : SubscriptionType) :
    reachable db ->
    internalSubscribeWorkspaceToFreeUpgradedPlan now generateModelSId workspaceId' planCode db
      = Ok (r, db') ->
    reachable db'.

(** Every workspace has at most one active subscription in every database
    that the three functions reach. *)
Lemma reachable_one_active (db : Database) :
  reachable db -> forall wId, atMostOneActive wId (subscriptions db).
Proof.
  induction 1 as [db Hempty|db db' now wsId r _ IH Hcall|db db' now sId' wsId r _ IH Hcall
                 |db db' now sId' wsId planCode r _ IH Hcall]; intros wId.
  - unfold atMostOneActive. rewrite Hempty. simpl. lia.
  - unfold internalSubscribeWorkspaceToFreeNoPlan in Hcall.
    destruct (findWorkspace db wsId) as [workspace|]; [|discriminate].
    injection Hcall as _ <-. simpl.
    destruct (Z.eq_dec wId (workspace_id workspace)) as [->|Hne].
    + unfold atMostOneActive. rewrite (activeOf_endActive _ now _ (IH _)). simpl. lia.
    + unfold atMostOneActive.
      rewrite (activeOf_endActive_other now workspace wId _ Hne). apply IH.
  - unfold internalSubscribeWorkspaceToFreeTestPlan in Hcall.
    destruct (findWorkspace db wsId) as [workspace|]; [|discriminate].
    destruct (findPlan db FREE_TEST_PLAN_CODE) as [plan|]; [|discriminate].
    injection Hcall as _ <-. simpl. now apply atMostOneActive_created.
  - unfold internalSubscribeWorkspaceToFreeUpgradedPlan in Hcall.
    destruct (findWorkspace db wsId) as [workspace|]; [|discriminate].
    destruct (findPlan db _) as [plan|]; [|discriminate].
    destruct (match findActiveSubscription _ _ with Some _ => _ | None => _ end);
      [discriminate|].
    injection Hcall as _ <-. simpl. now apply atMostOneActive_created.
Qed.

End Reachable.

Section Calls.
Context `{PlanCodes}.
Variable now : Z.
Variable generateModelSId : string.

(** C3. For a workspace that exists, after
    [internalSubscribeWorkspaceToFreeNoPlan],
    [internalSubscribeWorkspaceToFreeTestPlan] or
    [internalSubscribeWorkspaceToFreeUpgradedPlan] has completed successfully
    the workspace has at most one active subscription, as every workspace has
    in every database that these functions reach: the one subscription that
    was active, if any, now has the status [ended] and the current time as its
    end date, and the subscription that the test and upgraded plans create is
    active and carries over the Stripe customer id of the previous one.  The
    first of the three always completes for such a workspace, and leaves no
    active subscription. *)
Theorem one_active_subscription (workspaceId' : string) (planCode : option string)
    (workspace : Workspace) (db db' : Database) (rendered : SubscriptionType) :
  (reachable db -> forall wId, atMostOneActive wId (subscriptions db)) /\
  (findWorkspace db workspaceId' = Some workspace ->
   atMostOneActive (workspace_id workspace) (subscriptions db) ->
   let previous := findActiveSubscription (subscriptions db) (workspace_id workspace) in
   (isErr (internalSubscribeWorkspaceToFreeNoPlan now workspaceId' db) = false /\
    (internalSubscribeWorkspaceToFreeNoPlan now workspaceId' db = Ok (rendered, db') ->
       atMostOneActive (workspace_id workspace) (subscriptions db') /\
       activeOf (workspace_id workspace) (subscriptions db') = [] /\
       previousEnded now previous (subscriptions db'))) /\
   (internalSubscribeWorkspaceToFreeTestPlan now generateModelSId workspaceId' db
      = Ok (rendered, db') ->
      atMostOneActive (workspace_id workspace) (subscriptions db') /\
      previousEnded now previous (subscriptions db') /\
      createdActive now generateModelSId workspace previous (subscriptions db') rendered) /\
   (internalSubscribeWorkspaceToFreeUpgradedPlan now generateModelSId workspaceId' planCode db
      = Ok (rendered, db') ->
      atMostOneActive (workspace_id workspace) (subscriptions db') /\
      previousEnded now previous (subscriptions db') /\
      createdActive now generateModelSId workspace previous (subscriptions db') rendered)).
Proof.
  split; [apply reachable_one_active|].
  intros Hw Hone previous.
  assert (Hnew : forall table' r,
             createdActive now generateModelSId workspace previous table' r ->
             atMostOneActive (workspace_id workspace) table').
  { intros table' r (new & _ & Hact & _). unfold atMostOneActive. now rewrite Hact. }
  split; [split|split].
  - unfold internalSubscribeWorkspaceToFreeNoPlan. now rewrite Hw.
  - unfold internalSubscribeWorkspaceToFreeNoPlan. rewrite Hw. intros [= <- <-]. simpl.
    pose proof (activeOf_endActive _ now (subscriptions db) Hone) as Hnil.
    split; [unfold atMostOneActive; rewrite Hnil; simpl; lia|].
    split; [exact Hnil|].
    pose proof (ended_previous now workspace (subscriptions db) []) as He.
    simpl in He. now rewrite app_nil_r in He.
  - unfold internalSubscribeWorkspaceToFreeTestPlan. rewrite Hw.
    destruct (findPlan db FREE_TEST_PLAN_CODE) as [plan|]; [|discriminate].
    intros [= <- <-]. simpl.
    pose proof (created now generateModelSId workspace plan (subscriptions db) Hone) as Hc.
    split; [eapply Hnew, Hc|]. split; [apply ended_previous | exact Hc].
  - unfold internalSubscribeWorkspaceToFreeUpgradedPlan. rewrite Hw.
    destruct (findPlan db _) as [plan|]; [|discriminate].
    fold previous. destruct (match previous with Some _ => _ | None => _ end);
      [discriminate|].
    intros [= <- <-]. simpl.
    pose proof (created now generateModelSId workspace plan (subscriptions db) Hone) as Hc.
    split; [eapply Hnew, Hc|]. split; [apply ended_previous | exact Hc].
Qed.

(** What is true of a plan found by its code. *)
Lemma findPlan_code (db : Database) (code' : string) (p : Plan) :
  findPlan db code' = Some p -> code (attributes p) = code'.
Proof. intros Hf. apply find_some in Hf as [_ Hc]. now apply String.eqb_eq. Qed.

(** The reasons for which C7 says that [downgradeWorkspaceToFreePlan] throws. *)
Definition notAllowed (auth : Authenticator) : Prop :=
  auth_user auth = None \/ auth_workspace auth = None \/ auth_plan auth = None \/
  isAdmin auth = false.

Definition alreadyOnFreeTestPlan (auth : Authenticator) : Prop :=
  exists existingSubscription,
    auth_subscription auth = Some existingSubscription /\
    plan_code (plan existingSubscription) = FREE_TEST_PLAN_CODE.

(** The further reasons that the code has: the free test plan is not in the
    table of plans or is not a free plan without a Stripe product, or the
    workspace of the authenticator is not in the table of workspaces. *)
Definition noFreeTestPlan (db : Database) : Prop :=
  findPlan db FREE_TEST_PLAN_CODE = None \/
  exists freeTestPlan,
    findPlan db FREE_TEST_PLAN_CODE = Some freeTestPlan /\
    (truthy (stripeProductId (attributes freeTestPlan)) = true \/
     billingType (attributes freeTestPlan) <> "free").

Definition unknownWorkspace (auth : Authenticator) (db : Database) : Prop :=
  exists owner, auth_workspace auth = Some owner /\ findWorkspace db (owner_sId owner) = None.

Lemma alreadyOnFreeTestPlan_dec (auth : Authenticator) (freeTestPlan : Plan) :
  code (attributes freeTestPlan) = FREE_TEST_PLAN_CODE ->
  match auth_subscription auth with
  | Some existingSubscription =>
      String.eqb (plan_code (plan existingSubscription)) (code (attributes freeTestPlan))
  | None => false
  end = true <-> alreadyOnFreeTestPlan auth.
Proof.
  intros Hc. unfold alreadyOnFreeTestPlan. rewrite Hc.
  destruct (auth_subscription auth) as [sub|].
  - rewrite String.eqb_eq. split; [intros He; now exists sub | now intros (? & [= <-] & ?)].
  - split; [discriminate | now intros (? & ? & _)].
Qed.

(** C7, as the code has it.  [downgradeWorkspaceToFreePlan] throws when the
    authenticator has no user, no workspace, no active plan or is not an
    admin of the workspace; when the free test plan is not found, has a
    Stripe product id or is not of billing type [free]; when the existing
    subscription is already on the free test plan code; and when the
    workspace is not found.  Otherwise it subscribes the workspace to the free
    test plan and returns that plan. *)
Theorem downgradeWorkspaceToFreePlan_throws_or_subscribes
    (auth : Authenticator) (db : Database) :
  let result := downgradeWorkspaceToFreePlan now generateModelSId auth db in
  (notAllowed auth \/ noFreeTestPlan db \/ alreadyOnFreeTestPlan auth \/
   unknownWorkspace auth db ->
     isErr result = true) /\
  (~ (notAllowed auth \/ noFreeTestPlan db \/ alreadyOnFreeTestPlan auth \/
      unknownWorkspace auth db) ->
     exists owner freeTestPlan sub db',
       auth_workspace auth = Some owner /\
       findPlan db FREE_TEST_PLAN_CODE = Some freeTestPlan /\
       internalSubscribeWorkspaceToFreeTestPlan now generateModelSId (owner_sId owner) db
         = Ok (sub, db') /\
       result = Ok (plan sub, db') /\
       plan sub = renderPlanFromModel (attributes freeTestPlan) /\
       plan_code (plan sub) = FREE_TEST_PLAN_CODE).
Proof.
  intros result. subst result. unfold downgradeWorkspaceToFreePlan.
  destruct (auth_user auth) as [user|] eqn:Hu.
  2:{ split; [reflexivity | intros Hn; destruct Hn; left; now left]. }
  destruct (auth_workspace auth) as [owner|] eqn:Ho.
  2:{ split; [reflexivity | intros Hn; destruct Hn; left; right; now left]. }
  destruct (auth_plan auth) as [activePlan|] eqn:Hp.
  2:{ split; [reflexivity | intros Hn; destruct Hn; left; right; right; now left]. }
  destruct (isAdmin auth) eqn:Ha; simpl.
  2:{ split; [reflexivity | intros Hn; destruct Hn; left; right; right; now right]. }
  destruct (findPlan db FREE_TEST_PLAN_CODE) as [freeTestPlan|] eqn:Hf.
  2:{ split; [reflexivity | intros Hn; destruct Hn; right; left; now left]. }
  pose proof (findPlan_code db _ _ Hf) as Hcode.
  destruct (truthy (stripeProductId (attributes freeTestPlan))) eqn:Hs.
  { split; [reflexivity|]. intros Hn; destruct Hn. right; left; right.
    exists freeTestPlan. split; [exact Hf | now left]. }
  destruct (String.eqb_spec (billingType (attributes freeTestPlan)) "free") as [Hb|Hb]; simpl.
  2:{ split; [reflexivity|]. intros Hn; destruct Hn. right; left; right.
      exists freeTestPlan. split; [exact Hf | now right]. }
  pose proof (alreadyOnFreeTestPlan_dec auth freeTestPlan Hcode) as Hal.
  destruct (match auth_subscription auth with Some _ => _ | None => _ end).
  { split; [reflexivity|]. intros Hn; destruct Hn. right; right; left. now apply Hal. }
  unfold internalSubscribeWorkspaceToFreeTestPlan. rewrite Hf.
  destruct (findWorkspace db (owner_sId owner)) as [workspace|] eqn:Hw.
  2:{ split; [reflexivity|]. intros Hn; destruct Hn. right; right; right. now exists owner. }
  split.
  - intros [Hn|[Hn|[Hn|Hn]]]; exfalso.
    + destruct Hn as [?|[?|[?|?]]]; congruence.
    + destruct Hn as [?|(p & Hp' & [Hs'|Hb'])]; [congruence| |];
        assert (p = freeTestPlan) by congruence; subst p; congruence.
    + apply Hal in Hn. discriminate.
    + destruct Hn as (o & Ho' & Hw'). congruence.
  - intros _. exists owner, freeTestPlan. rewrite Hw. eexists _, _.
    do 5 (split; [reflexivity|]). exact Hcode.
Qed.

End Calls.

(** A database with one workspace on a paid plan, and the two free plans. *)
Definition planData (code' : string) (billing : string) (product : option string)
  : PlanAttributes :=
  {| code := code'; name := code'; stripeProductId := product; billingType := billing;
     trialPeriodDays := 0; maxMessages := 50; maxUsersInWorkspace := 1;
     isSlackbotAllowed := false; isManagedConfluenceAllowed := false;
     isManagedSlackAllowed := false; isManagedNotionAllowed := false;
     isManagedGoogleDriveAllowed := false; isManagedGithubAllowed := false;
     isManagedIntercomAllowed := false; isManagedWebCrawlerAllowed := false;
     maxDataSourcesCount := 5; maxDataSourcesDocumentsCount := 10;
     maxDataSourcesDocumentsSizeMb := 2; canUseProduct := true |}.

Definition sampleCodes : PlanCodes :=
  {| FREE_TEST_PLAN_CODE := "FREE_TEST_PLAN";
     FREE_UPGRADED_PLAN_CODE := "FREE_UPGRADED_PLAN";
     FREE_NO_PLAN_DATA := planData "FREE_NO_PLAN" "free" None |}.

Definition sampleWorkspace : Workspace := {| workspace_id := 1; workspace_sId := "w1" |}.

Definition paidSubscription : SubscriptionRow :=
  {| sId := "sub1"; workspaceId := 1; planId := 3; status := active;
     startDate := Some 1000; endDate := None; stripeCustomerId := Some "cus_1";
     stripeSubscriptionId := Some "si_1"; paymentFailingSince := None |}.

Definition sampleDatabase (plans' : list Plan) : Database :=
  {| workspaces := [sampleWorkspace];
     plans := plans';
     subscriptions :=
       [ {| sId := "sub0"; workspaceId := 2; planId := 1; status := active;
            startDate := Some 500; endDate := None; stripeCustomerId := None;
            stripeSubscriptionId := None; paymentFailingSince := None |};
         paidSubscription ] |}.

Definition samplePlans : list Plan :=
  [ {| plan_id := 1; attributes := planData "FREE_TEST_PLAN" "free" None |};
    {| plan_id := 2; attributes := planData "FREE_UPGRADED_PLAN" "free" None |};
    {| plan_id := 3; attributes := planData "PRO_PLAN_SEAT_29" "per_seat" (Some "prod_1") |} ].

Definition adminOnPaidPlan : Authenticator :=
  {| auth_user := Some {| user_sId := "u1" |};
     auth_workspace := Some {| owner_sId := "w1" |};
     auth_plan := Some (renderPlanFromModel (planData "PRO_PLAN_SEAT_29" "per_seat" (Some "prod_1")));
     isAdmin := true;
     auth_subscription :=
       Some (renderSubscriptionFromModels
               (planData "PRO_PLAN_SEAT_29" "per_seat" (Some "prod_1"))
               (Some paidSubscription)) |}.

Lemma sample_atMostOneActive (plans' : list Plan) :
  atMostOneActive 1 (subscriptions (sampleDatabase plans')).
Proof. unfold atMostOneActive. vm_compute. lia. Defined.

Lemma one_active_subscription_witness :
  (forall wId,
     atMostOneActive wId
       (subscriptions {| workspaces := [sampleWorkspace]; plans := samplePlans;
                         subscriptions := [] |})) /\
  (exists rendered db',
     @internalSubscribeWorkspaceToFreeNoPlan sampleCodes 2000 "w1" (sampleDatabase samplePlans)
       = Ok (rendered, db') /\
     activeOf 1 (subscriptions db') = [] /\
     previousEnded 2000 (Some (1%nat, paidSubscription)) (subscriptions db')) /\
  (exists rendered db',
     @internalSubscribeWorkspaceToFreeTestPlan sampleCodes 2000 "sub2" "w1"
       (sampleDatabase samplePlans) = Ok (rendered, db') /\
     atMostOneActive 1 (subscriptions db') /\
     previousEnded 2000 (Some (1%nat, paidSubscription)) (subscriptions db') /\
     createdActive 2000 "sub2" sampleWorkspace (Some (1%nat, paidSubscription))
       (subscriptions db') rendered) /\
  (exists rendered db',
     @internalSubscribeWorkspaceToFreeUpgradedPlan sampleCodes 2000 "sub2" "w1" None
       (sampleDatabase samplePlans) = Ok (rendered, db') /\
     atMostOneActive 1 (subscriptions db') /\
     createdActive 2000 "sub2" sampleWorkspace (Some (1%nat, paidSubscription))
       (subscriptions db') rendered).
Proof.
  split.
  { apply (proj1 (@one_active_subscription sampleCodes 2000 "sub2" "w1" None sampleWorkspace
                    {| workspaces := [sampleWorkspace]; plans := samplePlans;
                       subscriptions := [] |}
                    (sampleDatabase samplePlans)
                    (renderSubscriptionFromModels (planData "FREE_NO_PLAN" "free" None) None))).
    now apply reachable_empty. }
  split; [|split].
  - destruct (@internalSubscribeWorkspaceToFreeNoPlan sampleCodes 2000 "w1"
                (sampleDatabase samplePlans)) as [[rendered db']|e] eqn:E;
      [|vm_compute in E; discriminate E].
    exists rendered, db'. split; [reflexivity|].
    destruct (proj2 (@one_active_subscription sampleCodes 2000 "sub2" "w1" None
                       sampleWorkspace (sampleDatabase samplePlans) db' rendered)
                eq_refl (sample_atMostOneActive samplePlans)) as ((_ & H1) & _).
    destruct (H1 E) as (_ & Hn & He). split; [exact Hn | exact He].
  - destruct (@internalSubscribeWorkspaceToFreeTestPlan sampleCodes 2000 "sub2" "w1"
                (sampleDatabase samplePlans)) as [[rendered db']|e] eqn:E;
      [|vm_compute in E; discriminate E].
    exists rendered, db'. split; [reflexivity|].
    destruct (proj2 (@one_active_subscription sampleCodes 2000 "sub2" "w1" None
                       sampleWorkspace (sampleDatabase samplePlans) db' rendered)
                eq_refl (sample_atMostOneActive samplePlans)) as (_ & H2 & _).
    exact (H2 E).
  - destruct (@internalSubscribeWorkspaceToFreeUpgradedPlan sampleCodes 2000 "sub2" "w1" None
                (sampleDatabase samplePlans)) as [[rendered db']|e] eqn:E;
      [|vm_compute in E; discriminate E].
    exists rendered, db'. split; [reflexivity|].
    destruct (proj2 (@one_active_subscription sampleCodes 2000 "sub2" "w1" None
                       sampleWorkspace (sampleDatabase samplePlans) db' rendered)
                eq_refl (sample_atMostOneActive samplePlans)) as (_ & _ & H3).
    destruct (H3 E) as (Ha & _ & Hc). split; [exact Ha | exact Hc].
Defined.

(** C7 as it is worded: the function throws only for the reasons the claim
    lists. *)
Definition throwsOnlyAsWorded `{PlanCodes} (now : Z) (generateModelSId : string) : Prop :=
  forall (auth : Authenticator) (db : Database),
    isErr (downgradeWorkspaceToFreePlan now generateModelSId auth db) = true ->
    notAllowed auth \/ alreadyOnFreeTestPlan auth.

(** C7 fails as worded: with no free test plan in the table of plans, the call
    of an admin whose workspace is on a paid plan throws. *)
Lemma downgrade_without_free_test_plan :
  @downgradeWorkspaceToFreePlan sampleCodes 2000 "sub2" adminOnPaidPlan (sampleDatabase [])
    = Err "Cannot downgrade to free plan FREE_TEST_PLAN: not found." /\
  ~ @throwsOnlyAsWorded sampleCodes 2000 "sub2".
Proof.
  split; [reflexivity|].
  intros Hclaim.
  destruct (Hclaim adminOnPaidPlan (sampleDatabase []) eq_refl)
    as [[Hn|[Hn|[Hn|Hn]]] | (sub & Hs & Hc)]; try discriminate.
  injection Hs as <-. discriminate.
Qed.

Lemma downgradeWorkspaceToFreePlan_throws_or_subscribes_witness :
  isErr (@downgradeWorkspaceToFreePlan sampleCodes 2000 "sub2" adminOnPaidPlan
           (sampleDatabase [])) = true /\
  exists owner freeTestPlan sub db',
    auth_workspace adminOnPaidPlan = Some owner /\
    @findPlan (sampleDatabase samplePlans) "FREE_TEST_PLAN" = Some freeTestPlan /\
    @internalSubscribeWorkspaceToFreeTestPlan sampleCodes 2000 "sub2" (owner_sId owner)
      (sampleDatabase samplePlans) = Ok (sub, db') /\
    @downgradeWorkspaceToFreePlan sampleCodes 2000 "sub2" adminOnPaidPlan
      (sampleDatabase samplePlans) = Ok (plan sub, db') /\
    plan sub = renderPlanFromModel (attributes freeTestPlan) /\
    plan_code (plan sub) = "FREE_TEST_PLAN".
Proof.
  split.
  - apply (@downgradeWorkspaceToFreePlan_throws_or_subscribes sampleCodes 2000 "sub2"
             adminOnPaidPlan (sampleDatabase [])).
    right. left. now left.
  - apply (@downgradeWorkspaceToFreePlan_throws_or_subscribes sampleCodes 2000 "sub2"
             adminOnPaidPlan (sampleDatabase samplePlans)).
    intros [Hn|[Hn|[Hn|Hn]]].
    + destruct Hn as [?|[?|[?|?]]]; discriminate.
    + destruct Hn as [?|(p & Hp & [Hs|Hb])]; [discriminate| |];
        injection Hp as <-; [discriminate | now apply Hb].
    + destruct Hn as (sub & Hs & Hc). injection Hs as <-. discriminate.
    + destruct Hn as (o & Ho & Hw). injection Ho as <-. discriminate.
Defined.

End SubscriptionSpec.

(** ** Zendesk internal ids: kinds and connectors *)

Module ZendeskKinds.
Import JS JSFacts Zendesk.

Lemma prefix_cons (a b : ascii) (s1 s2 : string) :
  String.prefix (String a s1) (String b s2)
  = if ascii_dec a b then String.prefix s1 s2 else false.
Proof. reflexivity. Qed.

Lemma prefix_refl (s : string) : String.prefix s s = true.
Proof.
  rewrite <- (append_empty_r s) at 2. apply prefix_append.
Qed.

Lemma digit_not_dash (d : N) : (d < 10)%N -> pretty_N_char d <> "-"%char.
Proof. intros H. digit_cases d H; discriminate. Qed.

(** The decimal digits of an integer: an optional minus sign, then at least
    one digit. *)
Lemma pretty_shape (z : Z) :
  exists (negative : bool) (ds : list N),
    pretty z = (if negative then "-" else "") +:+ showDigits ds /\
    Forall (fun d => (d < 10)%N) ds /\ ds <> [] /\ negative = (z <? 0).
Proof.
  assert (Hpos : forall p : positive, exists ds : list N,
            pretty (N.pos p) = showDigits ds /\
            Forall (fun d => (d < 10)%N) ds /\ ds <> []).
  { intros p. unfold pretty, pretty_N.
    destruct (decide (N.pos p = 0%N)) as [Hz|_]; [discriminate|].
    destruct (pretty_N_go_digits (N.pos p) "") as (ds & Heq & Hall & _ & Hne).
    exists ds. rewrite Heq, append_empty_r. repeat split; [exact Hall | apply Hne; lia]. }
  destruct z as [|p|p].
  - exists false, [0%N]. repeat split; [repeat constructor; lia | discriminate].
  - destruct (Hpos p) as (ds & Heq & Hall & Hne). exists false, ds.
    split; [exact Heq | now repeat split].
  - destruct (Hpos p) as (ds & Heq & Hall & Hne). exists true, ds.
    split; [|now repeat split].
    unfold pretty, pretty_Z. unfold pretty, pretty_positive. now rewrite Heq.
Qed.

(** Every character of the string passes the test. *)
Fixpoint allChars (P : ascii -> bool) (s : string) : bool :=
  match s with
  | EmptyString => true
  | String c s' => P c && allChars P s'
  end.

Definition isDigitChar (c : ascii) : bool :=
  existsb (Ascii.eqb c) ["0"; "1"; "2"; "3"; "4"; "5"; "6"; "7"; "8"; "9"]%char.

Definition notChar (x c : ascii) : bool := negb (Ascii.eqb c x).

(** The string is empty or begins with a character that fails the test. *)
Definition stops (P : ascii -> bool) (s : string) : Prop :=
  match s with
  | EmptyString => True
  | String c _ => P c = false
  end.

Fixpoint zeros (k : nat) : string :=
  match k with
  | O => EmptyString
  | S k' => String "0" (zeros k')
  end.

Lemma allChars_app (P : ascii -> bool) (a b : string) :
  allChars P (a +:+ b) = allChars P a && allChars P b.
Proof.
  induction a as [|c a IH]; [reflexivity|].
  rewrite append_cons. simpl. now rewrite IH, andb_assoc.
Qed.

Lemma allChars_impl (P Q : ascii -> bool) (s : string) :
  (forall c, P c = true -> Q c = true) -> allChars P s = true -> allChars Q s = true.
Proof.
  intros HPQ. induction s as [|c s IH]; simpl; [reflexivity|].
  intros [Hc Hs]%andb_true_iff. now rewrite (HPQ c Hc), IH.
Qed.

Lemma pretty_N_char_digit (d : N) : (d < 10)%N -> isDigitChar (pretty_N_char d) = true.
Proof. intros H. digit_cases d H; reflexivity. Qed.

Lemma showDigits_chars (ds : list N) :
  Forall (fun d => (d < 10)%N) ds -> allChars isDigitChar (showDigits ds) = true.
Proof.
  induction 1 as [|d ds Hd _ IH]; simpl; [reflexivity|].
  now rewrite (pretty_N_char_digit d Hd), IH.
Qed.

Lemma notChar_digit (x c : ascii) :
  isDigitChar x = false -> isDigitChar c = true -> notChar x c = true.
Proof.
  intros Hx Hc. unfold notChar. destruct (Ascii.eqb_spec c x) as [->|_]; [congruence | reflexivity].
Qed.

Lemma stripZeros_cons (c : ascii) (s : string) :
  stripZeros (String c s)
  = match stripZeros s with
    | EmptyString => if Ascii.eqb c "0" then EmptyString else String c EmptyString
    | t => String c t
    end.
Proof. reflexivity. Qed.

Lemma stripZeros_chars (P : ascii -> bool) (s : string) :
  allChars P s = true -> allChars P (stripZeros s) = true.
Proof.
  induction s as [|c s IH]; [reflexivity|].
  intros Hall. cbn [allChars] in Hall. apply andb_true_iff in Hall as [Hc Hs].
  rewrite stripZeros_cons.
  specialize (IH Hs). destruct (stripZeros s) as [|c' t].
  - destruct (Ascii.eqb c "0"); simpl; [reflexivity | now rewrite Hc].
  - simpl in IH |- *. now rewrite Hc, IH.
Qed.

(** A string is its significant part followed by zeros. *)
Lemma stripZeros_zeros (s : string) : exists k, s = stripZeros s +:+ zeros k.
Proof.
  induction s as [|c s [k IH]]; [now exists O|].
  rewrite stripZeros_cons. destruct (stripZeros s) as [|c' t].
  - destruct (Ascii.eqb_spec c "0") as [->|_].
    + exists (S k). rewrite append_nil in IH |- *. simpl. now rewrite <- IH.
    + exists k. rewrite append_nil in IH. rewrite append_cons, append_nil. now rewrite <- IH.
  - exists k. rewrite append_cons. now rewrite <- IH.
Qed.

Lemma length_append (a b : string) :
  String.length (a +:+ b) = (String.length a + String.length b)%nat.
Proof.
  induction a as [|c a IH]; [reflexivity|].
  rewrite append_cons. simpl. now rewrite IH.
Qed.

Lemma length_zeros (k : nat) : String.length (zeros k) = k.
Proof. induction k as [|k IH]; simpl; [reflexivity | now rewrite IH]. Qed.

Lemma stripZeros_inj (s1 s2 : string) :
  stripZeros s1 = stripZeros s2 -> String.length s1 = String.length s2 -> s1 = s2.
Proof.
  intros Hs Hl.
  destruct (stripZeros_zeros s1) as [k1 H1]. destruct (stripZeros_zeros s2) as [k2 H2].
  rewrite H1, H2, !length_append, !length_zeros, Hs in Hl.
  rewrite H1, H2, Hs. f_equal. f_equal. lia.
Qed.

(** Two strings that agree, cut where the tested characters end. *)
Lemma split_at (P : ascii -> bool) (a1 a2 r1 r2 : string) :
  allChars P a1 = true -> allChars P a2 = true -> stops P r1 -> stops P r2 ->
  a1 +:+ r1 = a2 +:+ r2 -> a1 = a2 /\ r1 = r2.
Proof.
  revert a2. induction a1 as [|c1 a1 IH]; intros [|c2 a2] H1 H2 S1 S2 He.
  - now split.
  - exfalso. rewrite append_nil, append_cons in He. subst r1. simpl in S1, H2.
    apply andb_true_iff in H2 as [H2 _]. congruence.
  - exfalso. rewrite append_nil, append_cons in He. subst r2. simpl in S2, H1.
    apply andb_true_iff in H1 as [H1 _]. congruence.
  - rewrite !append_cons in He. injection He as -> He. simpl in H1, H2.
    apply andb_true_iff in H1 as [_ H1]. apply andb_true_iff in H2 as [_ H2].
    destruct (IH a2 H1 H2 S1 S2 He) as [-> ->]. now split.
Qed.

Lemma prefix_exists (p s : string) :
  String.prefix p s = true -> exists t, s = p +:+ t.
Proof.
  revert s. induction p as [|a p IH]; intros s Hp; [now exists s|].
  destruct s as [|b s]; [discriminate|]. rewrite prefix_cons in Hp.
  destruct (ascii_dec a b) as [->|_]; [|discriminate].
  destruct (IH s Hp) as [t ->]. now exists t.
Qed.

(** A printed number: an optional minus sign, then a text that is not empty
    and has no dash. *)
Lemma numberToString_shape (z : Z) :
  exists (negative : bool) (body : string),
    numberToString z = (if negative then "-" else "") +:+ body /\
    body <> "" /\ allChars (notChar "-") body = true /\ negative = (z <? 0).
Proof.
  assert (Hdigits : forall ds, Forall (fun d => (d < 10)%N) ds ->
            allChars (notChar "-") (showDigits ds) = true).
  { intros ds Hds. apply (allChars_impl isDigitChar); [|now apply showDigits_chars].
    intros c. now apply notChar_digit. }
  unfold numberToString. destruct (Z.abs z <? 10 ^ 21).
  - destruct (pretty_shape z) as (negative & ds & Heq & Hall & Hne & Hsign).
    exists negative, (showDigits ds). repeat split; [exact Heq| |now apply Hdigits|exact Hsign].
    destruct ds as [|d ds]; [now destruct Hne | discriminate].
  - destruct (pretty_shape (Z.abs z)) as (negative & ds & Heq & Hall & Hne & Hsign).
    assert (negative = false) as -> by (rewrite Hsign; apply Z.ltb_ge; lia).
    rewrite append_nil in Heq.
    destruct (pretty_shape (Z.of_nat (String.length (showDigits (tail ds)))))
      as (negative & es & Hexp & Hes & _ & Hsign').
    assert (negative = false) as -> by (rewrite Hsign'; apply Z.ltb_ge; lia).
    rewrite append_nil in Hexp.
    destruct ds as [|d ds]; [now destruct Hne|].
    inversion Hall as [|? ? Hd Hds]; subst. simpl in Hexp.
    rewrite Heq. simpl showDigits. unfold exponentForm. rewrite Hexp.
    eexists (z <? 0), _. split; [rewrite append_cons; reflexivity|].
    split; [discriminate|]. split; [|reflexivity].
    simpl allChars. rewrite (notChar_digit "-" _ eq_refl (pretty_N_char_digit d Hd)).
    rewrite !allChars_app, (Hdigits es Hes), andb_true_r. simpl.
    pose proof (stripZeros_chars _ _ (Hdigits ds Hds)) as Hstrip.
    destruct (stripZeros (showDigits ds)); [reflexivity|].
    rewrite allChars_app. simpl in Hstrip |- *. now rewrite Hstrip.
Qed.

(** Printing is injective. *)
Lemma numberToString_inj (z z' : Z) : numberToString z = numberToString z' -> z = z'.
Proof.
  assert (Hdec : forall n : Z, allChars (notChar "e") (pretty n) = true).
  { intros n. destruct (pretty_shape n) as (negative & ds & -> & Hall & _).
    rewrite allChars_app. rewrite (allChars_impl isDigitChar (notChar "e") (showDigits ds));
      [now destruct negative | intros c; now apply notChar_digit | now apply showDigits_chars]. }
  assert (Hexp : forall negative digits,
             digits <> "" -> allChars (notChar "e") (exponentForm negative digits) = false).
  { intros negative [|first rest] Hne; [now destruct Hne|]. unfold exponentForm.
    rewrite !allChars_app. simpl. rewrite !andb_false_r. reflexivity. }
  assert (Hne : forall n : Z, pretty (Z.abs n) <> "").
  { intros n. destruct (pretty_shape (Z.abs n)) as (negative & [|d ds] & -> & _ & Hds & _);
      [now destruct Hds | now destruct negative]. }
  unfold numberToString.
  destruct (Z.ltb_spec (Z.abs z) (10 ^ 21)) as [Hz|Hz];
    destruct (Z.ltb_spec (Z.abs z') (10 ^ 21)) as [Hz'|Hz']; intros He.
  - now apply (inj pretty) in He.
  - exfalso. pose proof (Hdec z) as H1. rewrite He, Hexp in H1 by apply Hne. discriminate.
  - exfalso. pose proof (Hdec z') as H1. rewrite <- He, Hexp in H1 by apply Hne. discriminate.
  - destruct (pretty_shape (Z.abs z)) as (n1 & ds1 & E1 & A1 & N1 & S1).
    destruct (pretty_shape (Z.abs z')) as (n2 & ds2 & E2 & A2 & N2 & S2).
    assert (n1 = false) as -> by (rewrite S1; apply Z.ltb_ge; lia).
    assert (n2 = false) as -> by (rewrite S2; apply Z.ltb_ge; lia).
    rewrite append_nil in E1, E2.
    assert (Hsame : pretty (Z.abs z) = pretty (Z.abs z') /\ (z <? 0) = (z' <? 0));
      [|destruct Hsame as [Habs Hsign]; apply (inj pretty) in Habs; lia].
    rewrite E1, E2 in He |- *.
    destruct ds1 as [|d1 ds1]; [now destruct N1|]. destruct ds2 as [|d2 ds2]; [now destruct N2|].
    inversion A1 as [|? ? Hd1 Hds1]; subst. inversion A2 as [|? ? Hd2 Hds2]; subst.
    simpl showDigits in He |- *. unfold exponentForm in He.
    assert (Hnodash : forall d, (d < 10)%N -> pretty_N_char d <> "-"%char)
      by exact digit_not_dash.
    assert (Hbody : (z <? 0) = (z' <? 0) /\
              String (pretty_N_char d1)
                (match stripZeros (showDigits ds1) with
                 | EmptyString => EmptyString
                 | fraction => "." +:+ fraction
                 end)
              +:+ "e+" +:+ pretty (Z.of_nat (String.length (showDigits ds1)))
              = String (pretty_N_char d2)
                  (match stripZeros (showDigits ds2) with
                   | EmptyString => EmptyString
                   | fraction => "." +:+ fraction
                   end)
                +:+ "e+" +:+ pretty (Z.of_nat (String.length (showDigits ds2)))).
    { destruct (z <? 0), (z' <? 0).
      - split; [reflexivity|]. now apply (inj (String.append "-")) in He.
      - exfalso. simpl in He. injection He as He _. symmetry in He. now apply Hnodash in He.
      - exfalso. simpl in He. injection He as He _. now apply Hnodash in He.
      - split; [reflexivity|]. now rewrite !append_nil in He. }
    destruct Hbody as [Hsign Hbody]. split; [|exact Hsign].
    rewrite !append_cons in Hbody. injection Hbody as Hfirst Hbody. rewrite Hfirst.
    f_equal.
    assert (Hfrac : forall ds, Forall (fun d => (d < 10)%N) ds ->
              allChars (notChar "e")
                (match stripZeros (showDigits ds) with
                 | EmptyString => EmptyString
                 | fraction => "." +:+ fraction
                 end) = true).
    { intros ds Hds.
      pose proof (stripZeros_chars (notChar "e") (showDigits ds)
                    (allChars_impl isDigitChar _ _ (fun c => notChar_digit "e" c eq_refl)
                       (showDigits_chars ds Hds))) as Hs.
      destruct (stripZeros (showDigits ds)); [reflexivity|].
      rewrite allChars_app. simpl in Hs |- *. exact Hs. }
    apply (split_at (notChar "e")) in Hbody as [Hfrac' Hexp'];
      [|now apply Hfrac|now apply Hfrac|reflexivity|reflexivity].
    apply stripZeros_inj.
    + destruct (stripZeros (showDigits ds1)) as [|c1 t1], (stripZeros (showDigits ds2)) as [|c2 t2];
        simpl in Hfrac'; try reflexivity; try discriminate.
      injection Hfrac' as -> ->. reflexivity.
    + apply (inj (String.append "e+")) in Hexp'. apply (inj pretty) in Hexp'. lia.
Qed.

(** Two printed integers, each followed by a dash: if the first text starts
    the second, the integers are the same. *)
Lemma number_then_dash (c c' : Z) (x y : string) :
  String.prefix (numberToString c +:+ "-" +:+ x) (numberToString c' +:+ "-" +:+ y) = true ->
  c = c'.
Proof.
  intros Hp. apply numberToString_inj. apply prefix_exists in Hp as [t Ht].
  destruct (numberToString_shape c) as (n1 & b1 & E1 & N1 & D1 & _).
  destruct (numberToString_shape c') as (n2 & b2 & E2 & N2 & D2 & _).
  rewrite E1, E2 in Ht |- *. rewrite !append_assoc in Ht.
  assert (Hfirst : forall (b r r' : string), b <> "" -> allChars (notChar "-") b = true ->
            b +:+ r <> String "-" r').
  { intros [|a b] r r' Hb Hd; [now destruct Hb|]. rewrite append_cons. intros [= -> _].
    discriminate Hd. }
  destruct n1, n2; rewrite ?append_nil, ?append_cons in Ht.
  - f_equal. rewrite !append_nil in Ht. injection Ht as Ht.
    symmetry in Ht. now apply (split_at (notChar "-")) in Ht as [-> _].
  - exfalso. rewrite append_nil in Ht. now apply Hfirst in Ht.
  - exfalso. rewrite append_nil in Ht. symmetry in Ht. now apply Hfirst in Ht.
  - f_equal. symmetry in Ht. now apply (split_at (notChar "-")) in Ht as [-> _].
Qed.


(** X1. The internal ids of different kinds do not collide, for any connector
    ids: each of the four [get..IdFromInternalId] functions returns null on
    the internal id of another kind (brand, category, article, ticket), on the
    help-center id and on the all-tickets id; a conversation's internal id is
    kept apart from the brand, article and ticket kinds; and the help-center
    and all-tickets tests answer false on every internal id of the four kinds
    and on each other's ids. *)
Theorem kinds_do_not_collide (c c' id : Z) :
  (getCategoryIdFromInternalId c (getBrandInternalId c' id) = None /\
   getArticleIdFromInternalId c (getBrandInternalId c' id) = None /\
   getTicketIdFromInternalId c (getBrandInternalId c' id) = None) /\
  (getBrandIdFromInternalId c (getCategoryInternalId c' id) = None /\
   getArticleIdFromInternalId c (getCategoryInternalId c' id) = None /\
   getTicketIdFromInternalId c (getCategoryInternalId c' id) = None) /\
  (getBrandIdFromInternalId c (getArticleInternalId c' id) = None /\
   getCategoryIdFromInternalId c (getArticleInternalId c' id) = None /\
   getTicketIdFromInternalId c (getArticleInternalId c' id) = None) /\
  (getBrandIdFromInternalId c (getTicketInternalId c' id) = None /\
   getCategoryIdFromInternalId c (getTicketInternalId c' id) = None /\
   getArticleIdFromInternalId c (getTicketInternalId c' id) = None) /\
  (getBrandIdFromInternalId c (getConversationInternalId c' id) = None /\
   getArticleIdFromInternalId c (getConversationInternalId c' id) = None /\
   getTicketIdFromInternalId c (getConversationInternalId c' id) = None) /\
  (getBrandIdFromInternalId c (getHelpCenterInternalId c') = None /\
   getCategoryIdFromInternalId c (getHelpCenterInternalId c') = None /\
   getArticleIdFromInternalId c (getHelpCenterInternalId c') = None /\
   getTicketIdFromInternalId c (getHelpCenterInternalId c') = None) /\
  (getBrandIdFromInternalId c (getTicketsInternalId c') = None /\
   getCategoryIdFromInternalId c (getTicketsInternalId c') = None /\
   getArticleIdFromInternalId c (getTicketsInternalId c') = None /\
   getTicketIdFromInternalId c (getTicketsInternalId c') = None) /\
  (isInternalIdOnWholeHelpCenter c (getBrandInternalId c' id) = false /\
   isInternalIdOnWholeHelpCenter c (getCategoryInternalId c' id) = false /\
   isInternalIdOnWholeHelpCenter c (getArticleInternalId c' id) = false /\
   isInternalIdOnWholeHelpCenter c (getTicketInternalId c' id) = false /\
   isInternalIdOnWholeHelpCenter c (getTicketsInternalId c') = false) /\
  (isInternalIdOnAllTickets c (getBrandInternalId c' id) = false /\
   isInternalIdOnAllTickets c (getCategoryInternalId c' id) = false /\
   isInternalIdOnAllTickets c (getArticleInternalId c' id) = false /\
   isInternalIdOnAllTickets c (getTicketInternalId c' id) = false /\
   isInternalIdOnAllTickets c (getHelpCenterInternalId c') = false).
Proof. repeat split; reflexivity. Qed.

Lemma getIdFromInternal_other_connector (kind : string) (c c' id : Z) :
  c <> c' ->
  _getIdFromInternal (kind +:+ numberToString c' +:+ "-" +:+ numberToString id)
                     (kind +:+ numberToString c +:+ "-") = None.
Proof.
  intros Hne. apply ZendeskSpec.getIdFromInternal_other. unfold startsWith.
  destruct (String.prefix _ _) eqn:Hp; [|reflexivity]. exfalso. apply Hne.
  induction kind as [|a kind IH].
  - rewrite !append_nil in Hp.
    rewrite <- (append_empty_r (numberToString c +:+ "-")), append_assoc in Hp.
    now apply number_then_dash in Hp.
  - rewrite !append_cons, prefix_cons in Hp.
    destruct (ascii_dec a a); [now apply IH | discriminate].
Qed.

(** X2. An internal id is parsed under its own connector only: for two
    different connector ids, each [get..IdFromInternalId] function of the
    first returns null on the internal id that its partner built for the
    second. *)
Theorem internal_id_of_other_connector (c c' id : Z) :
  c <> c' ->
  getBrandIdFromInternalId c (getBrandInternalId c' id) = None /\
  getCategoryIdFromInternalId c (getCategoryInternalId c' id) = None /\
  getArticleIdFromInternalId c (getArticleInternalId c' id) = None /\
  getTicketIdFromInternalId c (getTicketInternalId c' id) = None.
Proof.
  intros Hne. repeat split; now apply getIdFromInternal_other_connector.
Qed.

Lemma internal_id_of_other_connector_witness :
  getBrandIdFromInternalId 1 (getBrandInternalId 12 5) = None /\
  getCategoryIdFromInternalId 1 (getCategoryInternalId 12 5) = None /\
  getArticleIdFromInternalId 1 (getArticleInternalId 12 5) = None /\
  getTicketIdFromInternalId 1 (getTicketInternalId 12 5) = None.
Proof. apply (internal_id_of_other_connector 1 12 5). discriminate. Defined.

Lemma internal_id_inj (kind : string) (c c' id id' : Z) :
  kind +:+ numberToString c +:+ "-" +:+ numberToString id
  = kind +:+ numberToString c' +:+ "-" +:+ numberToString id' ->
  c = c' /\ id = id'.
Proof.
  intros He. apply (inj (String.append kind)) in He.
  assert (Hc : c = c').
  { apply (number_then_dash c c' (numberToString id) (numberToString id')).
    rewrite He. apply prefix_refl. }
  subst c'. split; [reflexivity|].
  apply (inj (String.append (numberToString c))) in He.
  apply (inj (String.append "-")) in He.
  now apply numberToString_inj in He.
Qed.

(** X3. The internal ids of a kind are injective: two brand (category,
    article, ticket) internal ids are the same string only for the same
    connector id and the same id. *)
Theorem internal_ids_injective (c c' id id' : Z) :
  (getBrandInternalId c id = getBrandInternalId c' id' -> c = c' /\ id = id') /\
  (getCategoryInternalId c id = getCategoryInternalId c' id' -> c = c' /\ id = id') /\
  (getArticleInternalId c id = getArticleInternalId c' id' -> c = c' /\ id = id') /\
  (getTicketInternalId c id = getTicketInternalId c' id' -> c = c' /\ id = id').
Proof.
  split; [|split; [|split]]; intros He; now apply internal_id_inj in He.
Qed.

Lemma internal_ids_injective_witness :
  (12 = 12 /\ 345 = 345) /\ (12 = 12 /\ 345 = 345) /\
  (12 = 12 /\ 345 = 345) /\ (12 = 12 /\ 345 = 345).
Proof.
  destruct (internal_ids_injective 12 12 345 345) as (H1 & H2 & H3 & H4).
  split; [apply H1; reflexivity|]. split; [apply H2; reflexivity|].
  split; [apply H3; reflexivity | apply H4; reflexivity].
Defined.

(** X4. [isInternalIdOnWholeHelpCenter] and [isInternalIdOnAllTickets] accept
    exactly the help-center id, respectively the all-tickets id, of their own
    connector: the string they accept is the one the matching
    [get..InternalId] function builds, and the id built for a connector is
    accepted under another connector id only if the two are the same. *)
Theorem whole_collections_recognised (c c' : Z) (internalId : string) :
  (isInternalIdOnWholeHelpCenter c internalId = true <->
   internalId = getHelpCenterInternalId c) /\
  (isInternalIdOnAllTickets c internalId = true <->
   internalId = getTicketsInternalId c) /\
  (isInternalIdOnWholeHelpCenter c (getHelpCenterInternalId c') = true <-> c = c') /\
  (isInternalIdOnAllTickets c (getTicketsInternalId c') = true <-> c = c').
Proof.
  unfold isInternalIdOnWholeHelpCenter, isInternalIdOnAllTickets,
    getHelpCenterInternalId, getTicketsInternalId.
  rewrite !String.eqb_eq.
  assert (Hinj : forall kind : string,
             kind +:+ numberToString c' = kind +:+ numberToString c <-> c = c').
  { intros kind. split; [|now intros ->].
    intros He. apply (inj (String.append kind)) in He.
    apply numberToString_inj in He. now symmetry. }
  split; [reflexivity|]. split; [reflexivity|].
  split; [rewrite <- Hinj; split; intros H; exact H |].
  rewrite <- Hinj; split; intros H; exact H.
Qed.

End ZendeskKinds.

(** ** Subscriptions: what the three functions keep, and calling them twice *)

Module SubscriptionHistory.
Import JS Subscription SubscriptionSpec.

(** A row is as it was, or it was an active subscription of the workspace and
    has been ended at the current time. *)
Definition keptOrEnded (now wId : Z) (s s' : SubscriptionRow) : Prop :=
  s' = s \/ (workspaceId s = wId /\ status s = active /\ s' = endSubscription now s).

(** What a call keeps of the database: the workspaces, the plans, and every
    row of the subscriptions at its place; [created] rows are added. *)
Definition historyKept (now wId : Z) (created : nat) (db db' : Database) : Prop :=
  workspaces db' = workspaces db /\
  plans db' = plans db /\
  length (subscriptions db') = (length (subscriptions db) + created)%nat /\
  (forall i s, subscriptions db !! i = Some s ->
     exists s', subscriptions db' !! i = Some s' /\ keptOrEnded now wId s s') /\
  (forall i j s1 s2 s1' s2',
     subscriptions db !! i = Some s1 -> subscriptions db !! j = Some s2 ->
     subscriptions db' !! i = Some s1' -> subscriptions db' !! j = Some s2' ->
     s1' <> s1 -> s2' <> s2 -> i = j).

Lemma endActive_length (now : Z) (previous : option (nat * SubscriptionRow))
    (table : list SubscriptionRow) :
  length (endActive now previous table) = length table.
Proof. destruct previous as [[i s]|]; [apply length_insert | reflexivity]. Qed.

Lemma endActive_lookup (now wId : Z) (table : list SubscriptionRow) (i : nat)
    (s : SubscriptionRow) :
  table !! i = Some s ->
  exists s', endActive now (findActiveSubscription table wId) table !! i = Some s' /\
             keptOrEnded now wId s s'.
Proof.
  intros Hi.
  destruct (findActiveSubscription table wId) as [[j a]|] eqn:Hfind; simpl.
  - apply list_find_Some in Hfind as (Hj & [Hw Hs] & _).
    destruct (decide (i = j)) as [->|Hne].
    + exists (endSubscription now a). split.
      * apply list_lookup_insert_eq. eapply lookup_lt_Some, Hj.
      * right. assert (s = a) by congruence. subst a. auto.
    + exists s. split; [|now left].
      rewrite list_lookup_insert_ne by congruence. exact Hi.
  - exists s. split; [exact Hi | now left].
Qed.

Lemma endActive_changes_one (now wId : Z) (table : list SubscriptionRow) (i j : nat)
    (s1 s2 s1' s2' : SubscriptionRow) :
  let table' := endActive now (findActiveSubscription table wId) table in
  table !! i = Some s1 -> table !! j = Some s2 ->
  table' !! i = Some s1' -> table' !! j = Some s2' ->
  s1' <> s1 -> s2' <> s2 -> i = j.
Proof.
  intros table' Hi Hj Hi' Hj' H1 H2. subst table'.
  destruct (findActiveSubscription table wId) as [[k a]|]; simpl in *; [|congruence].
  destruct (decide (i = k)) as [->|Hik].
  - destruct (decide (j = k)) as [->|Hjk]; [reflexivity|].
    rewrite list_lookup_insert_ne in Hj' by congruence. congruence.
  - rewrite list_lookup_insert_ne in Hi' by congruence. congruence.
Qed.

Lemma historyKept_ended (now : Z) (workspace : Workspace) (db : Database)
    (created : list SubscriptionRow) :
  historyKept now (workspace_id workspace) (length created) db
    (withSubscriptions db
       (endActive now (findActiveSubscription (subscriptions db) (workspace_id workspace))
          (subscriptions db) ++ created)).
Proof.
  split; [reflexivity|]. split; [reflexivity|]. simpl. split; [|split].
  - now rewrite length_app, endActive_length.
  - intros i s Hi.
    destruct (endActive_lookup now (workspace_id workspace) _ i s Hi) as (s' & Hs' & Hk).
    exists s'. split; [now apply lookup_app_l_Some | exact Hk].
  - intros i j s1 s2 s1' s2' Hi Hj Hi' Hj'.
    rewrite lookup_app_l in Hi', Hj'
      by (rewrite endActive_length; eapply lookup_lt_Some; eassumption).
    now apply (endActive_changes_one now (workspace_id workspace) (subscriptions db) i j).
Qed.

Section Kept.
Context `{PlanCodes}.
Variable now : Z.
Variable generateModelSId : string.

(** X5. The three functions keep the history of subscriptions.  A call that
    completes leaves the tables of workspaces and plans as they are, deletes
    no subscription and moves none: every row is at its place, unchanged or,
    for an active subscription of the workspace, ended at the current time,
    and at most one row has changed.  [internalSubscribeWorkspaceToFreeNoPlan]
    adds no row, the two others add one. *)
Theorem subscriptions_history_kept (workspaceId' : string) (planCode : option string)
    (workspace : Workspace) (db db' : Database) (rendered : SubscriptionType) :
  findWorkspace db workspaceId' = Some workspace ->
  (internalSubscribeWorkspaceToFreeNoPlan now workspaceId' db = Ok (rendered, db') ->
     historyKept now (workspace_id workspace) 0 db db') /\
  (internalSubscribeWorkspaceToFreeTestPlan now generateModelSId workspaceId' db
     = Ok (rendered, db') ->
     historyKept now (workspace_id workspace) 1 db db') /\
  (internalSubscribeWorkspaceToFreeUpgradedPlan now generateModelSId workspaceId' planCode db
     = Ok (rendered, db') ->
     historyKept now (workspace_id workspace) 1 db db').
Proof.
  intros Hw. split; [|split].
  - unfold internalSubscribeWorkspaceToFreeNoPlan. rewrite Hw. intros [= <- <-].
    pose proof (historyKept_ended now workspace db []) as Hk.
    now rewrite app_nil_r in Hk.
  - unfold internalSubscribeWorkspaceToFreeTestPlan. rewrite Hw.
    destruct (findPlan db FREE_TEST_PLAN_CODE) as [plan|]; [|discriminate].
    intros [= <- <-]. apply (historyKept_ended now workspace db [_]).
  - unfold internalSubscribeWorkspaceToFreeUpgradedPlan. rewrite Hw.
    destruct (findPlan db _) as [plan|]; [|discriminate].
    destruct (match findActiveSubscription _ _ with Some _ => _ | None => _ end);
      [discriminate|].
    intros [= <- <-]. apply (historyKept_ended now workspace db [_]).
Qed.

End Kept.

Lemma subscriptions_history_kept_witness :
  exists rendered db',
    @internalSubscribeWorkspaceToFreeTestPlan sampleCodes 2000 "sub2" "w1"
      (sampleDatabase samplePlans) = Ok (rendered, db') /\
    historyKept 2000 1 1 (sampleDatabase samplePlans) db'.
Proof.
  destruct (@internalSubscribeWorkspaceToFreeTestPlan sampleCodes 2000 "sub2" "w1"
              (sampleDatabase samplePlans)) as [[rendered db']|e] eqn:E;
    [|vm_compute in E; discriminate E].
  exists rendered, db'. split; [reflexivity|].
  destruct (@subscriptions_history_kept sampleCodes 2000 "sub2" "w1" None sampleWorkspace
              (sampleDatabase samplePlans) db' rendered eq_refl) as (_ & H2 & _).
  exact (H2 E).
Defined.

(** The subscription that [findActiveSubscription] finds is the first of the
    active subscriptions of the workspace. *)
Lemma findActiveSubscription_head (table : list SubscriptionRow) (wId : Z) :
  snd <$> findActiveSubscription table wId = head (activeOf wId table).
Proof.
  unfold findActiveSubscription, activeOf.
  induction table as [|s table IH]; [reflexivity|].
  cbn [list_find].
  destruct (decide (workspaceId s = wId /\ status s = active)) as [Hs|Hs].
  - now rewrite filter_cons_True.
  - rewrite filter_cons_False by exact Hs. rewrite <- IH.
    destruct (list_find _ table) as [[i a]|]; reflexivity.
Qed.

Lemma findActiveSubscription_none (table : list SubscriptionRow) (wId : Z) :
  activeOf wId table = [] -> findActiveSubscription table wId = None.
Proof.
  intros Hnil. pose proof (findActiveSubscription_head table wId) as Hh.
  rewrite Hnil in Hh. now destruct (findActiveSubscription table wId).
Qed.

Lemma findActiveSubscription_only (table : list SubscriptionRow) (wId : Z)
    (s : SubscriptionRow) :
  activeOf wId table = [s] -> exists i, findActiveSubscription table wId = Some (i, s).
Proof.
  intros Hone. pose proof (findActiveSubscription_head table wId) as Hh.
  rewrite Hone in Hh. destruct (findActiveSubscription table wId) as [[i a]|]; [|discriminate].
  injection Hh as ->. now exists i.
Qed.

Section Twice.
Context `{PlanCodes}.

(** X6. [internalSubscribeWorkspaceToFreeNoPlan] is idempotent on a workspace
    that has at most one active subscription: a second call, at any later
    time, completes with the same rendered subscription and leaves the
    database of the first call as it is. *)
Theorem free_no_plan_idempotent (now1 now2 : Z) (workspaceId' : string)
    (workspace : Workspace) (db db1 : Database) (rendered : SubscriptionType) :
  findWorkspace db workspaceId' = Some workspace ->
  atMostOneActive (workspace_id workspace) (subscriptions db) ->
  internalSubscribeWorkspaceToFreeNoPlan now1 workspaceId' db = Ok (rendered, db1) ->
  internalSubscribeWorkspaceToFreeNoPlan now2 workspaceId' db1 = Ok (rendered, db1).
Proof.
  intros Hw Hone. unfold internalSubscribeWorkspaceToFreeNoPlan at 1. rewrite Hw.
  intros [= <- <-]. unfold internalSubscribeWorkspaceToFreeNoPlan, findWorkspace. simpl.
  fold (findWorkspace db workspaceId'). rewrite Hw.
  rewrite (findActiveSubscription_none _ _ (activeOf_endActive _ now1 _ Hone)).
  reflexivity.
Qed.

(** X7. Subscribing twice.  On a workspace that has at most one active
    subscription, a second call of
    [internalSubscribeWorkspaceToFreeUpgradedPlan] with the same plan code
    throws "already subscribed", whereas
    [internalSubscribeWorkspaceToFreeTestPlan] has no such guard: its second
    call completes, ends the subscription that the first call created and
    creates another one for the same plan. *)
Theorem subscribing_twice (now1 now2 : Z) (sId1 sId2 workspaceId' : string)
    (planCode : option string) (workspace : Workspace) (db db1 : Database)
    (rendered : SubscriptionType) :
  findWorkspace db workspaceId' = Some workspace ->
  atMostOneActive (workspace_id workspace) (subscriptions db) ->
  (internalSubscribeWorkspaceToFreeUpgradedPlan now1 sId1 workspaceId' planCode db
     = Ok (rendered, db1) ->
   internalSubscribeWorkspaceToFreeUpgradedPlan now2 sId2 workspaceId' planCode db1
     = Err ("Cannot subscribe to plan " +:+ default FREE_UPGRADED_PLAN_CODE planCode
            +:+ ": already subscribed.")) /\
  (internalSubscribeWorkspaceToFreeTestPlan now1 sId1 workspaceId' db = Ok (rendered, db1) ->
   exists rendered2 db2 first second,
     internalSubscribeWorkspaceToFreeTestPlan now2 sId2 workspaceId' db1
       = Ok (rendered2, db2) /\
     last (subscriptions db1) = Some first /\
     subscriptions db2 = removelast (subscriptions db1) ++ [endSubscription now2 first; second] /\
     sId first = sId1 /\ sId second = sId2 /\ planId second = planId first /\
     status second = active /\ activeOf (workspace_id workspace) (subscriptions db2) = [second]).
Proof.
  intros Hw Hone. split.
  - unfold internalSubscribeWorkspaceToFreeUpgradedPlan at 1. rewrite Hw.
    destruct (findPlan db _) as [plan|] eqn:Hp; [|discriminate].
    destruct (match findActiveSubscription _ _ with Some _ => _ | None => _ end);
      [discriminate|].
    intros [= <- <-].
    destruct (created now1 sId1 workspace plan (subscriptions db) Hone)
      as (new & Hlast & Hact & _).
    rewrite last_snoc in Hlast. injection Hlast as <-.
    apply findActiveSubscription_only in Hact as [i Hfind].
    unfold internalSubscribeWorkspaceToFreeUpgradedPlan, findWorkspace, findPlan. simpl.
    fold (findWorkspace db workspaceId'). rewrite Hw.
    fold (findPlan db (default FREE_UPGRADED_PLAN_CODE planCode)). rewrite Hp.
    rewrite Hfind. simpl. now rewrite Z.eqb_refl.
  - unfold internalSubscribeWorkspaceToFreeTestPlan at 1. rewrite Hw.
    destruct (findPlan db FREE_TEST_PLAN_CODE) as [plan|] eqn:Hp; [|discriminate].
    intros [= <- <-].
    destruct (created now1 sId1 workspace plan (subscriptions db) Hone)
      as (new & Hlast & Hact & _).
    rewrite last_snoc in Hlast. injection Hlast as <-.
    set (previous := findActiveSubscription (subscriptions db) (workspace_id workspace)) in *.
    set (first := newSubscription sId1 workspace plan now1 previous) in *.
    set (table1 := endActive now1 previous (subscriptions db)) in *.
    pose proof (findActiveSubscription_only _ _ _ Hact) as [i Hfind].
    assert (Hi : i = length table1).
    { apply list_find_Some in Hfind as (Hi & _ & Hbefore).
      destruct (lt_eq_lt_dec i (length table1)) as [[Hlt|Heq]|Hgt]; [|exact Heq|].
      - exfalso. rewrite lookup_app_l in Hi by exact Hlt.
        assert (Hin : first ∈ activeOf (workspace_id workspace) table1).
        { apply list_elem_of_filter. split; [now split|]. eapply list_elem_of_lookup_2, Hi. }
        subst table1 previous. rewrite (activeOf_endActive _ now1 _ Hone) in Hin.
        now apply elem_of_nil in Hin.
      - apply lookup_lt_Some in Hi. rewrite length_app in Hi. simpl in Hi. lia. }
    subst i.
    unfold internalSubscribeWorkspaceToFreeTestPlan, findWorkspace, findPlan. simpl.
    fold (findWorkspace db workspaceId'). rewrite Hw.
    fold (findPlan db FREE_TEST_PLAN_CODE). rewrite Hp.
    fold previous table1 first. rewrite Hfind.
    eexists _, _, first, _. split; [reflexivity|]. simpl.
    split; [apply last_snoc|].
    assert (Hins : <[length table1 := endSubscription now2 first]> (table1 ++ [first])
                   = table1 ++ [endSubscription now2 first]).
    { rewrite insert_app_r_alt by lia. now rewrite Nat.sub_diag. }
    rewrite Hins, removelast_last, <- app_assoc. simpl.
    split; [reflexivity|]. do 4 (split; [reflexivity|]).
    unfold activeOf. rewrite filter_app.
    fold (activeOf (workspace_id workspace) table1).
    subst table1 previous. rewrite (activeOf_endActive _ now1 _ Hone). simpl.
    rewrite filter_cons_False by (simpl; intros [_ Hst]; discriminate).
    now rewrite filter_cons_True.
Qed.

End Twice.

Lemma free_no_plan_idempotent_witness :
  exists rendered db1,
    @internalSubscribeWorkspaceToFreeNoPlan sampleCodes 2000 "w1" (sampleDatabase samplePlans)
      = Ok (rendered, db1) /\
    @internalSubscribeWorkspaceToFreeNoPlan sampleCodes 3000 "w1" db1 = Ok (rendered, db1).
Proof.
  destruct (@internalSubscribeWorkspaceToFreeNoPlan sampleCodes 2000 "w1"
              (sampleDatabase samplePlans)) as [[rendered db1]|e] eqn:E;
    [|vm_compute in E; discriminate E].
  exists rendered, db1. split; [reflexivity|].
  exact (@free_no_plan_idempotent sampleCodes 2000 3000 "w1" sampleWorkspace
           (sampleDatabase samplePlans) db1 rendered eq_refl
           (sample_atMostOneActive samplePlans) E).
Defined.

Lemma subscribing_twice_witness :
  (exists rendered db1,
     @internalSubscribeWorkspaceToFreeUpgradedPlan sampleCodes 2000 "sub2" "w1" None
       (sampleDatabase samplePlans) = Ok (rendered, db1) /\
     @internalSubscribeWorkspaceToFreeUpgradedPlan sampleCodes 3000 "sub3" "w1" None db1
       = Err "Cannot subscribe to plan FREE_UPGRADED_PLAN: already subscribed.") /\
  (exists rendered db1 rendered2 db2,
     @internalSubscribeWorkspaceToFreeTestPlan sampleCodes 2000 "sub2" "w1"
       (sampleDatabase samplePlans) = Ok (rendered, db1) /\
     @internalSubscribeWorkspaceToFreeTestPlan sampleCodes 3000 "sub3" "w1" db1
       = Ok (rendered2, db2) /\
     length (subscriptions db2) = 4%nat).
Proof.
  split.
  - destruct (@internalSubscribeWorkspaceToFreeUpgradedPlan sampleCodes 2000 "sub2" "w1" None
                (sampleDatabase samplePlans)) as [[rendered db1]|e] eqn:E;
      [|vm_compute in E; discriminate E].
    exists rendered, db1. split; [reflexivity|].
    exact (proj1 (@subscribing_twice sampleCodes 2000 3000 "sub2" "sub3" "w1" None
                    sampleWorkspace (sampleDatabase samplePlans) db1 rendered eq_refl
                    (sample_atMostOneActive samplePlans)) E).
  - destruct (@internalSubscribeWorkspaceToFreeTestPlan sampleCodes 2000 "sub2" "w1"
                (sampleDatabase samplePlans)) as [[rendered db1]|e] eqn:E;
      [|vm_compute in E; discriminate E].
    destruct (proj2 (@subscribing_twice sampleCodes 2000 3000 "sub2" "sub3" "w1" None
                       sampleWorkspace (sampleDatabase samplePlans) db1 rendered eq_refl
                       (sample_atMostOneActive samplePlans)) E)
      as (rendered2 & db2 & first & second & E2 & _ & Htable & _).
    exists rendered, db1, rendered2, db2. split; [reflexivity|]. split; [exact E2|].
    rewrite Htable. injection E as _ <-. reflexivity.
Defined.

End SubscriptionHistory.

(** ** Invitations to a plan *)

Module PlanInvitationsSpec.
Import JS Subscription PlanInvitations.

(** The pending invitations of a workspace. *)
Definition pendingOf (ownerId : Z) (t : Tables) : list PlanInvitation :=
  filter (pending ownerId) (planInvitations t).

(** Every invitation has its plan in the table of plans, as the foreign key
    of the model demands. *)
Definition plansKnown (t : Tables) : Prop :=
  Forall (fun invitation => is_Some (withPlan (database t) invitation)) (planInvitations t).

(** What the code calls unreachable never holds: no workspace has more than
    one pending invitation. *)
Definition consistent (t : Tables) : Prop :=
  plansKnown t /\ forall ownerId, (length (pendingOf ownerId t) <= 1)%nat.

(** The invitations that have been consumed. *)
Definition consumedOf (t : Tables) : list PlanInvitation :=
  filter (fun invitation => consumedAt invitation <> None) (planInvitations t).

Lemma find_plan_by_id (plans' : list Plan) (plan : Plan) :
  NoDup (plan_id <$> plans') -> plan ∈ plans' ->
  find (fun p => plan_id p =? plan_id plan) plans' = Some plan.
Proof.
  induction plans' as [|p plans' IH]; intros Hnd Hin; [now apply elem_of_nil in Hin|].
  rewrite fmap_cons in Hnd. apply NoDup_cons in Hnd as [Hp Hnd]. simpl.
  apply elem_of_cons in Hin as [->|Hin]; [now rewrite Z.eqb_refl|].
  destruct (Z.eqb_spec (plan_id p) (plan_id plan)) as [He|_]; [|now apply IH].
  exfalso. apply Hp. rewrite He. now apply list_elem_of_fmap_2.
Qed.

Lemma findPlan_elem_of (db : Database) (code' : string) (plan : Plan) :
  findPlan db code' = Some plan -> plan ∈ plans db /\ code (attributes plan) = code'.
Proof.
  intros Hf. apply find_some in Hf as [Hin Hc].
  split; [now apply list_elem_of_In | now apply String.eqb_eq].
Qed.

Lemma pending_filtered (ownerId : Z) (table : list PlanInvitation) :
  filter (pending ownerId) (filter (fun i => ~ pending ownerId i) table) = [].
Proof.
  induction table as [|i table IH]; [reflexivity|].
  destruct (decide (pending ownerId i)) as [Hp|Hp].
  - rewrite (filter_cons_False (fun i => ~ pending ownerId i)) by tauto. exact IH.
  - rewrite (filter_cons_True (fun i => ~ pending ownerId i)) by exact Hp.
    now rewrite filter_cons_False.
Qed.

Lemma pending_other_filtered (ownerId other : Z) (table : list PlanInvitation) :
  other <> ownerId ->
  filter (pending other) (filter (fun i => ~ pending ownerId i) table)
  = filter (pending other) table.
Proof.
  intros Hne. induction table as [|i table IH]; [reflexivity|].
  destruct (decide (pending ownerId i)) as [Hp|Hp].
  - rewrite (filter_cons_False (fun i => ~ pending ownerId i)) by tauto.
    rewrite (filter_cons_False (pending other)); [exact IH|].
    destruct Hp as [Hw _]. intros [Hw' _]. congruence.
  - rewrite (filter_cons_True (fun i => ~ pending ownerId i)) by exact Hp.
    destruct (decide (pending other i)) as [Ho|Ho].
    + rewrite !filter_cons_True by exact Ho. now rewrite IH.
    + now rewrite !filter_cons_False.
Qed.

Lemma consumed_filtered (ownerId : Z) (table : list PlanInvitation) :
  filter (fun i => consumedAt i <> None) (filter (fun i => ~ pending ownerId i) table)
  = filter (fun i => consumedAt i <> None) table.
Proof.
  induction table as [|i table IH]; [reflexivity|].
  destruct (decide (pending ownerId i)) as [Hp|Hp].
  - rewrite (filter_cons_False (fun i => ~ pending ownerId i)) by tauto.
    rewrite (filter_cons_False (fun i => consumedAt i <> None)); [exact IH|].
    destruct Hp as [_ Hc]. tauto.
  - rewrite (filter_cons_True (fun i => ~ pending ownerId i)) by exact Hp.
    destruct (decide (consumedAt i <> None)) as [Ho|Ho].
    + rewrite !filter_cons_True by exact Ho. now rewrite IH.
    + now rewrite !filter_cons_False.
Qed.

(** Under the foreign key, the join with the plans loses no row. *)
Lemma findAllPending_length (t : Tables) (ownerId : Z) :
  plansKnown t -> length (findAllPending t ownerId) = length (pendingOf ownerId t).
Proof.
  unfold plansKnown, findAllPending, pendingOf.
  generalize (planInvitations t). intros table Hk.
  induction Hk as [|i table [p Hi] _ IH]; [reflexivity|].
  destruct (decide (pending ownerId i)) as [Hp|Hp].
  - rewrite !filter_cons_True by exact Hp. cbn [omap list_omap length]. rewrite Hi.
    cbn [length]. now rewrite IH.
  - now rewrite !filter_cons_False.
Qed.

Section Calls.
Context `{PlanCodes}.
Variable now : Z.
Variable generateModelSId : string.
Variable uuidv4 : string.

(** The table that a call leaves when it creates an invitation. *)
Definition invited (owner : WorkspaceType) (plan : Plan) (previous : option PlanInvitationType)
    (t : Tables) : Tables :=
  {| database := database t;
     planInvitations :=
       match previous with
       | Some _ => filter (fun i => ~ pending (ws_id owner) i) (planInvitations t)
       | None => planInvitations t
       end
       ++ [ {| secret := uuidv4; invitation_workspaceId := ws_id owner;
               invitation_planId := plan_id plan; consumedAt := None |} ] |}.

(** The two ways in which a call returns an invitation. *)
Lemma invitation_returned (auth : Authenticator) (planCode' : string) (t t' : Tables)
    (warnings : list string) (invitation : PlanInvitationType) :
  pokeUpgradeOrInviteWorkspaceToPlan now generateModelSId uuidv4 auth planCode' t
    = (warnings, Ok (Some invitation, t')) ->
  exists owner plan previous,
    workspace auth = Some owner /\
    findPlan (database t) planCode' = Some plan /\
    match subscription auth with
    | Some activeSubscription =>
        String.eqb (plan_code (Subscription.plan activeSubscription)) (code (attributes plan))
    | None => false
    end = false /\
    getPlanInvitation auth t = (warnings, Ok previous) /\
    planCode invitation = planCode' /\
    ((previous = Some invitation /\ t' = t) \/
     ((forall i, previous = Some i -> planCode i <> planCode') /\
      planName invitation = name (attributes plan) /\
      invitation_secret invitation = uuidv4 /\
      t' = invited owner plan previous t)).
Proof.
  unfold pokeUpgradeOrInviteWorkspaceToPlan.
  destruct (workspace auth) as [owner|] eqn:Ho; [|discriminate].
  destruct (isDustSuperUser auth); [|discriminate]. simpl.
  destruct (findPlan (database t) planCode') as [plan|] eqn:Hp; [|discriminate].
  destruct (findPlan_elem_of _ _ _ Hp) as [_ Hcode].
  destruct (match subscription auth with Some _ => _ | None => _ end) eqn:Hs; [discriminate|].
  destruct (String.eqb (billingType (attributes plan)) "free"
            && bool_decide (stripeProductId (attributes plan) = None)).
  { destruct (internalSubscribeWorkspaceToFreeUpgradedPlan _ _ _ _ _) as [[? ?]|?];
      discriminate. }
  destruct (getPlanInvitation auth t) as [warnings0 [previous|error]] eqn:Hg; [|discriminate].
  destruct (match previous with Some _ => _ | None => _ end) eqn:He.
  - destruct previous as [i|]; [|discriminate]. apply String.eqb_eq in He.
    intros [= <- <- <-]. exists owner, plan, (Some i).
    do 2 (split; [reflexivity|]). split; [exact Hs|]. split; [reflexivity|].
    split; [congruence | now left].
  - intros [= <- <- <-]. exists owner, plan, previous.
    cbn [planCode planName invitation_secret].
    do 2 (split; [reflexivity|]). split; [exact Hs|]. split; [reflexivity|].
    split; [exact Hcode|].
    right. split; [|now repeat split].
    intros i ->. apply String.eqb_neq in He. congruence.
Qed.

(** The invitation that a call returns is the one found afterwards. *)
Lemma invitation_found (auth : Authenticator) (planCode' : string) (t t' : Tables)
    (warnings : list string) (invitation : PlanInvitationType) :
  NoDup (plan_id <$> plans (database t)) ->
  pokeUpgradeOrInviteWorkspaceToPlan now generateModelSId uuidv4 auth planCode' t
    = (warnings, Ok (Some invitation, t')) ->
  exists warnings', getPlanInvitation auth t' = (warnings', Ok (Some invitation)).
Proof.
  intros Hnd Hcall.
  destruct (invitation_returned _ _ _ _ _ _ Hcall)
    as (owner & plan & previous & Ho & Hp & _ & Hg & Hcode & [[-> ->]|(_ & Hname & Hs & ->)]).
  { now exists warnings. }
  destruct (findPlan_elem_of _ _ _ Hp) as [Hin Hc].
  assert (Hnone : previous = None ->
                  omap (withPlan (database t)) (pendingOf (ws_id owner) t) = []).
  { intros ->. unfold getPlanInvitation in Hg. rewrite Ho in Hg.
    fold (pendingOf (ws_id owner) t) in Hg. unfold findAllPending in Hg.
    fold (pendingOf (ws_id owner) t) in Hg.
    destruct (omap _ (pendingOf (ws_id owner) t)) as [|[i p] l]; [reflexivity|discriminate]. }
  assert (Hall : findAllPending (invited owner plan previous t) (ws_id owner)
                 = [({| secret := uuidv4; invitation_workspaceId := ws_id owner;
                        invitation_planId := plan_id plan; consumedAt := None |}, plan)]).
  { unfold findAllPending, invited. simpl. rewrite filter_app.
    rewrite (filter_cons_True (pending (ws_id owner))) by (split; reflexivity).
    rewrite filter_nil, omap_app. simpl.
    unfold withPlan at 2. simpl. rewrite (find_plan_by_id _ _ Hnd Hin). simpl.
    destruct previous as [i|].
    - now rewrite pending_filtered.
    - fold (pendingOf (ws_id owner) t). now rewrite Hnone. }
  exists []. unfold getPlanInvitation. rewrite Ho, Hall. simpl.
  destruct invitation as [c n s]. simpl in *. now subst.
Qed.

(** X8. An invitation can be read back.  When
    [pokeUpgradeOrInviteWorkspaceToPlan] returns an invitation, it is one to
    the plan asked for, the subscriptions are as they were, and
    [getPlanInvitation] returns that very invitation afterwards; the ids of
    the plans are taken to be distinct. *)
Theorem invitation_round_trip (auth : Authenticator) (planCode' : string) (t t' : Tables)
    (warnings : list string) (invitation : PlanInvitationType) :
  NoDup (plan_id <$> plans (database t)) ->
  pokeUpgradeOrInviteWorkspaceToPlan now generateModelSId uuidv4 auth planCode' t
    = (warnings, Ok (Some invitation, t')) ->
  planCode invitation = planCode' /\
  database t' = database t /\
  exists warnings', getPlanInvitation auth t' = (warnings', Ok (Some invitation)).
Proof.
  intros Hnd Hcall.
  destruct (invitation_returned _ _ _ _ _ _ Hcall)
    as (owner & plan & previous & _ & _ & _ & _ & Hcode & Ht).
  split; [exact Hcode|]. split.
  - destruct Ht as [[_ ->]|(_ & _ & _ & ->)]; reflexivity.
  - now apply (invitation_found auth planCode' t t' warnings).
Qed.

(** X9. The invitations stay consistent.  When every invitation has its plan
    and no workspace has more than one pending invitation,
    [pokeUpgradeOrInviteWorkspaceToPlan] logs no warning and, when it
    completes, leaves tables of which the same is true: [getPlanInvitation]
    then logs no warning either.  The call deletes no consumed invitation. *)
Theorem pending_invitations_consistent (auth : Authenticator) (planCode' : string)
    (t t' : Tables) (warnings : list string) (returned : option PlanInvitationType) :
  consistent t ->
  fst (pokeUpgradeOrInviteWorkspaceToPlan now generateModelSId uuidv4 auth planCode' t) = [] /\
  (pokeUpgradeOrInviteWorkspaceToPlan now generateModelSId uuidv4 auth planCode' t
     = (warnings, Ok (returned, t')) ->
   consistent t' /\
   fst (getPlanInvitation auth t') = [] /\
   consumedOf t' = consumedOf t).
Proof.
  intros [Hk Hone].
  assert (Hquiet : forall t0, consistent t0 -> fst (getPlanInvitation auth t0) = []).
  { intros t0 [Hk0 Hone0]. unfold getPlanInvitation.
    destruct (workspace auth) as [owner|]; [|reflexivity].
    pose proof (findAllPending_length t0 (ws_id owner) Hk0) as Hl.
    specialize (Hone0 (ws_id owner)).
    destruct (findAllPending t0 (ws_id owner)) as [|[i p] [|? ?]]; try reflexivity.
    simpl in Hl. lia. }
  split.
  { unfold pokeUpgradeOrInviteWorkspaceToPlan.
    destruct (workspace auth) as [owner|]; [|reflexivity].
    destruct (isDustSuperUser auth); [|reflexivity]. simpl.
    destruct (findPlan (database t) planCode') as [plan|]; [|reflexivity].
    destruct (match subscription auth with Some _ => _ | None => _ end); [reflexivity|].
    destruct (_ && _).
    { destruct (internalSubscribeWorkspaceToFreeUpgradedPlan _ _ _ _ _) as [[? ?]|?];
        reflexivity. }
    pose proof (Hquiet t (conj Hk Hone)) as Hq.
    destruct (getPlanInvitation auth t) as [warnings0 [previous|error]]; [|exact Hq].
    destruct (match previous with Some _ => _ | None => _ end); exact Hq. }
  intros Hcall.
  assert (Hcons : consistent t' /\ consumedOf t' = consumedOf t).
  { destruct returned as [invitation|].
    - destruct (invitation_returned _ _ _ _ _ _ Hcall)
        as (owner & plan & previous & Ho & Hp & _ & Hg & _ & [[_ ->]|(_ & _ & _ & ->)]).
      { now split. }
      destruct (findPlan_elem_of _ _ _ Hp) as [Hin _].
      assert (Hnone : previous = None -> pendingOf (ws_id owner) t = []).
      { intros ->. unfold getPlanInvitation in Hg. rewrite Ho in Hg.
        pose proof (findAllPending_length t (ws_id owner) Hk) as Hl.
        destruct (findAllPending t (ws_id owner)) as [|[i p] l]; [|discriminate].
        now destruct (pendingOf (ws_id owner) t). }
      split; [split|].
      + unfold plansKnown, invited. simpl. apply Forall_app. split.
        * destruct previous; [|exact Hk].
          apply Forall_forall. intros x Hx. apply list_elem_of_filter in Hx as [_ Hx].
          revert x Hx. apply Forall_forall, Hk.
        * apply Forall_singleton. unfold withPlan. simpl.
          destruct (find _ (plans (database t))) eqn:Hf; [now eexists|].
          exfalso. apply list_elem_of_In in Hin.
          apply (find_none _ _ Hf) in Hin. now rewrite Z.eqb_refl in Hin.
      + intros ownerId. unfold pendingOf, invited. simpl. rewrite filter_app, length_app.
        destruct (decide (ownerId = ws_id owner)) as [->|Hne].
        * rewrite (filter_cons_True (pending (ws_id owner))) by (split; reflexivity).
          destruct previous as [i|].
          -- now rewrite pending_filtered.
          -- fold (pendingOf (ws_id owner) t). now rewrite Hnone.
        * rewrite (filter_cons_False (pending ownerId))
            by (simpl; intros [Hw _]; simpl in Hw; congruence).
          rewrite filter_nil. simpl. rewrite Nat.add_0_r.
          destruct previous as [i|]; [rewrite pending_other_filtered by exact Hne|];
            apply (Hone ownerId).
      + unfold consumedOf, invited. simpl. rewrite filter_app.
        rewrite (filter_cons_False (fun i => consumedAt i <> None)) by (simpl; tauto).
        rewrite filter_nil, app_nil_r.
        destruct previous as [i|]; [apply consumed_filtered | reflexivity].
    - revert Hcall. unfold pokeUpgradeOrInviteWorkspaceToPlan.
      destruct (workspace auth) as [owner|]; [|discriminate].
      destruct (isDustSuperUser auth); [|discriminate]. simpl.
      destruct (findPlan (database t) planCode') as [plan|]; [|discriminate].
      destruct (match subscription auth with Some _ => _ | None => _ end); [discriminate|].
      destruct (_ && _).
      + unfold internalSubscribeWorkspaceToFreeUpgradedPlan.
        destruct (findWorkspace _ _) as [w|]; [|discriminate].
        destruct (findPlan _ _) as [p|]; [|discriminate].
        destruct (match findActiveSubscription _ _ with Some _ => _ | None => _ end);
          [discriminate|].
        intros [= <- <-]. split; [|reflexivity]. split; [exact Hk | exact Hone].
      + destruct (getPlanInvitation auth t) as [warnings0 [previous|error]]; [|discriminate].
        destruct previous as [i|]; [|discriminate].
        destruct (String.eqb _ _); discriminate. }
  destruct Hcons as [Hc Hcd]. split; [exact Hc|]. split; [now apply Hquiet | exact Hcd].
Qed.

Context `{Stripe}.

(** X10. The checkout follows the invitation.  After
    [pokeUpgradeOrInviteWorkspaceToPlan] has returned an invitation,
    [getCheckoutUrlForUpgrade] looks at the plan of the invitation only, never
    at the pro plan: it returns a checkout URL exactly when that plan has a
    Stripe product id, is not of billing type [free] and Stripe returns a URL
    that is not empty, and then returns that URL with that plan.  So an
    invitation to a plan without a product, or to a [free] plan with one,
    leaves the workspace without any checkout. *)
Theorem checkout_follows_invitation (auth : Authenticator) (planCode' : string)
    (t t' : Tables) (warnings : list string) (invitation : PlanInvitationType) :
  NoDup (plan_id <$> plans (database t)) ->
  pokeUpgradeOrInviteWorkspaceToPlan now generateModelSId uuidv4 auth planCode' t
    = (warnings, Ok (Some invitation, t')) ->
  exists plan,
    findPlan (database t') planCode' = Some plan /\
    forall checkoutUrl p,
      snd (getCheckoutUrlForUpgrade auth t') = Ok (checkoutUrl, p) <->
      truthy (stripeProductId (attributes plan)) = true /\
      billingType (attributes plan) <> "free" /\
      createCheckoutSession auth planCode' = Ok (Some checkoutUrl) /\
      checkoutUrl <> "" /\
      p = renderPlanFromModel (attributes plan).
Proof.
  intros Hnd Hcall.
  destruct (invitation_found _ _ _ _ _ _ Hnd Hcall) as (warnings' & Hg).
  destruct (invitation_returned _ _ _ _ _ _ Hcall)
    as (owner & plan & previous & Ho & Hp & Hs & _ & Hcode & Ht).
  assert (Hdb : database t' = database t) by (destruct Ht as [[_ ->]|(_ & _ & _ & ->)]; reflexivity).
  destruct (findPlan_elem_of _ _ _ Hp) as [_ Hc].
  exists plan. rewrite Hdb. split; [exact Hp|].
  intros checkoutUrl p. unfold getCheckoutUrlForUpgrade.
  rewrite Ho, Hg. simpl. rewrite Hcode, Hdb, Hp, Hs, Hc.
  destruct (truthy (stripeProductId (attributes plan))); simpl.
  2:{ split; [discriminate | now intros [? _]]. }
  destruct (String.eqb_spec (billingType (attributes plan)) "free") as [Hb|Hb]; simpl.
  { split; [discriminate | now intros (_ & ? & _)]. }
  destruct (createCheckoutSession auth planCode') as [[url|]|error]; simpl.
  - destruct (String.eqb_spec url "") as [He|He]; simpl.
    + split; [discriminate|]. intros (_ & _ & [= <-] & ? & _). congruence.
    + split.
      * intros [= <- <-]. now repeat split.
      * intros (_ & _ & [= <-] & _ & ->). reflexivity.
  - split; [discriminate | now intros (_ & _ & ? & _)].
  - split; [discriminate | now intros (_ & _ & ? & _)].
Qed.

End Calls.

(** Tables with an enterprise plan, a consumed invitation of the workspace
    and a pending invitation of another one. *)
Definition enterprisePlans : list Plan :=
  SubscriptionSpec.samplePlans
  ++ [ {| plan_id := 4;
          attributes :=
            SubscriptionSpec.planData "ENT_PLAN" "monthly_active_users" (Some "prod_e") |} ].

Definition sampleTables : Tables :=
  {| database := SubscriptionSpec.sampleDatabase enterprisePlans;
     planInvitations :=
       [ {| secret := "s0"; invitation_workspaceId := 1; invitation_planId := 3;
            consumedAt := Some 100 |};
         {| secret := "s1"; invitation_workspaceId := 2; invitation_planId := 4;
            consumedAt := None |} ] |}.

Definition superUser : Authenticator :=
  {| workspace := Some {| ws_id := 1; ws_sId := "w1" |};
     isDustSuperUser := true;
     subscription := None |}.

Definition sampleStripe : Stripe :=
  {| PRO_PLAN_SEAT_29_CODE := "PRO_PLAN_SEAT_29";
     createCheckoutSession := fun _ planCode' => Ok (Some ("https://checkout/" +:+ planCode')) |}.

Lemma enterprisePlans_ids : NoDup (plan_id <$> plans (database sampleTables)).
Proof. apply (bool_decide_unpack _). vm_compute. exact I. Defined.

Lemma sampleTables_consistent : consistent sampleTables.
Proof.
  split.
  - repeat (apply Forall_cons_2; [eexists; reflexivity|]). apply Forall_nil_2.
  - intros ownerId. unfold pendingOf. simpl.
    rewrite filter_cons_False by (intros [_ Hc]; discriminate).
    rewrite filter_cons. destruct (decide _); simpl; lia.
Defined.

Lemma invitation_round_trip_witness :
  exists invitation t',
    @pokeUpgradeOrInviteWorkspaceToPlan SubscriptionSpec.sampleCodes 2000 "sub2" "uuid-1"
      superUser "ENT_PLAN" sampleTables = ([], Ok (Some invitation, t')) /\
    planCode invitation = "ENT_PLAN" /\
    database t' = database sampleTables /\
    exists warnings', getPlanInvitation superUser t' = (warnings', Ok (Some invitation)).
Proof.
  eexists _, _. split; [reflexivity|].
  apply (@invitation_round_trip SubscriptionSpec.sampleCodes 2000 "sub2" "uuid-1"
           superUser "ENT_PLAN" sampleTables _ [] _ enterprisePlans_ids eq_refl).
Defined.

Lemma pending_invitations_consistent_witness :
  exists returned t',
    @pokeUpgradeOrInviteWorkspaceToPlan SubscriptionSpec.sampleCodes 2000 "sub2" "uuid-1"
      superUser "ENT_PLAN" sampleTables = ([], Ok (returned, t')) /\
    consistent t' /\ fst (getPlanInvitation superUser t') = [] /\
    consumedOf t' = consumedOf sampleTables.
Proof.
  eexists _, _. split; [reflexivity|].
  apply (proj2 (@pending_invitations_consistent SubscriptionSpec.sampleCodes 2000 "sub2"
                  "uuid-1" superUser "ENT_PLAN" sampleTables _ [] _
                  sampleTables_consistent) eq_refl).
Defined.

Lemma checkout_follows_invitation_witness :
  exists warnings invitation t' plan,
    @pokeUpgradeOrInviteWorkspaceToPlan SubscriptionSpec.sampleCodes 2000 "sub2" "uuid-1"
      superUser "ENT_PLAN" sampleTables = (warnings, Ok (Some invitation, t')) /\
    findPlan (database t') "ENT_PLAN" = Some plan /\
    snd (@getCheckoutUrlForUpgrade sampleStripe superUser t')
    = Ok ("https://checkout/ENT_PLAN", renderPlanFromModel (attributes plan)).
Proof.
  destruct (@pokeUpgradeOrInviteWorkspaceToPlan SubscriptionSpec.sampleCodes 2000 "sub2"
              "uuid-1" superUser "ENT_PLAN" sampleTables)
    as [warnings [[[invitation|] t']|e]] eqn:E; try (vm_compute in E; discriminate E).
  destruct (@checkout_follows_invitation SubscriptionSpec.sampleCodes 2000 "sub2" "uuid-1"
              sampleStripe superUser "ENT_PLAN" sampleTables t' warnings invitation
              enterprisePlans_ids E) as (plan & Hp & Hiff).
  exists warnings, invitation, t', plan. split; [reflexivity|]. split; [exact Hp|].
  apply Hiff. injection E as _ _ <-. injection Hp as <-. repeat split; discriminate.
Defined.

End PlanInvitationsSpec.

(** ** The wrappers: the route without a workspace, and the option
    [allowUserOutsideCurrentWorkspace] *)

Module ApiWrappersOptions.
Import ApiWrappers ApiWrappersSpec Auth0Wrapper.

Section Auth0.
Context `{UserLib}.
Variable opts : Auth0Options.
Variable req : NextApiRequest.

(** X11. A route wrapped by [withAuth0TokenAuthentication] calls its handler
    exactly when the request carries a bearer token that is an Auth0 access
    token, the token is verified and it belongs to a registered user; the
    handler then receives that user with their workspaces.  Every other
    request is answered 401 [not_authenticated]: an API key never reaches the
    handler. *)
Theorem withAuth0TokenAuthentication_handler_or_401 :
  let reply := withAuth0TokenAuthentication opts req in
  (forall userWithWorkspaces,
     reply = Handler userWithWorkspaces <->
     exists bearerToken decoded user,
       getBearerToken req = Ok bearerToken /\
       getAuthType bearerToken = access_token /\
       verifyAuth0Token bearerToken (getRequiredScope req (auth0_requiredScopes opts))
         = Ok decoded /\
       getUserFromAuth0Token decoded = Some user /\
       userWithWorkspaces = getUserWithWorkspaces user) /\
  (invokes reply \/ answers reply 401 "not_authenticated") /\
  (forall bearerToken,
     getBearerToken req = Ok bearerToken -> getAuthType bearerToken = api_key ->
     answers reply 401 "not_authenticated").
Proof.
  intros reply. subst reply. unfold withAuth0TokenAuthentication, withLogging.
  split; [|split].
  - intros u. split.
    + destruct (getBearerToken req) as [token|e]; [|discriminate].
      destruct (getAuthType token) eqn:Hm; [|discriminate].
      destruct (verifyAuth0Token _ _) as [decoded|e] eqn:Hv; [|discriminate].
      destruct (getUserFromAuth0Token decoded) as [user|] eqn:Hu; [|discriminate].
      intros [= <-]. now exists token, decoded, user.
    + intros (token & decoded & user & -> & -> & -> & -> & ->). reflexivity.
  - destruct (getBearerToken req) as [token|e]; [|right; eexists; reflexivity].
    destruct (getAuthType token); [|right; eexists; reflexivity].
    destruct (verifyAuth0Token _ _) as [decoded|e]; [|right; eexists; reflexivity].
    destruct (getUserFromAuth0Token decoded) as [user|]; [|right; eexists; reflexivity].
    left. eexists. reflexivity.
  - intros token -> ->. eexists. reflexivity.
Qed.

End Auth0.

Section SessionOption.
Context `{AuthLib}.
Variable req : NextApiRequest.
Variable streaming : option bool.

Definition sessionOptions (allow : option bool) : SessionOptions :=
  {| isStreaming := streaming; allowUserOutsideCurrentWorkspace := allow |}.

(** X12. On a session route, [allowUserOutsideCurrentWorkspace] only widens
    the access, and only for users outside the workspace.  A request that
    reaches the handler without the option reaches it with the option, with
    the same arguments; the two replies differ only when the session's user
    was found but is not a member of the workspace, where the route answers
    401 [workspace_auth_error] without the option and calls the handler with
    it.  An option that is absent counts as [false]. *)
Theorem session_option_widens :
  let strict := withSessionAuthenticationForWorkspace (sessionOptions (Some false)) req in
  let outside := withSessionAuthenticationForWorkspace (sessionOptions (Some true)) req in
  withSessionAuthenticationForWorkspace (sessionOptions None) req = strict /\
  (forall call, strict = Handler call -> outside = Handler call) /\
  (strict <> outside ->
     answers strict 401 "workspace_auth_error" /\
     exists auth session wId,
       outside = Handler (auth, session) /\
       getSession req = Some session /\ query_wId req = Single wId /\
       auth = fromSession session wId /\
       isUser auth = false /\ user auth <> None).
Proof.
  intros strict outside. subst strict outside.
  unfold withSessionAuthenticationForWorkspace, withSessionAuthentication, withLogging.
  cbn [sessionOptions allowUserOutsideCurrentWorkspace isStreaming].
  split; [reflexivity|].
  destruct (getSession req) as [session|]; [|split; [discriminate | congruence]].
  destruct (query_wId req) as [|wId|l]; try (split; [discriminate | congruence]).
  destruct (String.eqb wId ""); [split; [discriminate | congruence]|].
  destruct (workspace (fromSession session wId)); [|split; [discriminate | congruence]].
  destruct (plan (fromSession session wId)); [|split; [discriminate | congruence]].
  destruct (user (fromSession session wId)) as [u|] eqn:Hu;
    [|split; [discriminate | congruence]].
  destruct (isUser (fromSession session wId)) eqn:Hi; simpl.
  - split; [auto | congruence].
  - split; [discriminate|]. intros _. split; [eexists; reflexivity|].
    exists (fromSession session wId), session, wId. rewrite Hu. now repeat split.
Qed.

End SessionOption.

(** The case of a request that both routes answer alike with an error. *)
Local Ltac rejected :=
  split; [intros ? ? ?; split; [reflexivity | discriminate]|];
  split; [discriminate|]; split; [discriminate|]; intros [? ?]; discriminate.

Section PublicOption.
Context `{AuthLib}.
Variable req : NextApiRequest.
Variable streaming : option bool.
Variable scopes : option RequiredScopes.

Definition publicOptions (allow : option bool) : PublicOptions :=
  {| public_isStreaming := streaming;
     public_allowUserOutsideCurrentWorkspace := allow;
     requiredScopes := scopes |}.

(** X13. On a public route, [allowUserOutsideCurrentWorkspace] matters for
    API keys only.  With an Auth0 access token the reply is the same with and
    without the option, and the handler receives no [keyAuth].  The handler
    receives a [keyAuth] exactly when the option is set and the request is
    authenticated by an API key; it then receives the two authenticators of
    [Authenticator.fromKey] as they are, the email header being ignored.
    Without the option the handler never receives a [keyAuth], and every
    request that reaches the handler without the option reaches it with the
    option. *)
Theorem public_option_key_auth :
  let strict := withPublicAPIAuthentication (publicOptions (Some false)) req in
  let outside := withPublicAPIAuthentication (publicOptions (Some true)) req in
  withPublicAPIAuthentication (publicOptions None) req = strict /\
  (forall token, getBearerToken req = Ok token -> getAuthType token = access_token ->
     strict = outside /\
     forall auth keyAuth, outside = Handler (auth, keyAuth) -> keyAuth = None) /\
  (forall auth keyAuth, strict = Handler (auth, keyAuth) -> keyAuth = None) /\
  (forall auth keyAuth, outside = Handler (auth, Some keyAuth) ->
     exists wId token keyRes,
       query_wId req = Single wId /\ getBearerToken req = Ok token /\
       getAuthType token = api_key /\ getAPIKey req = Ok keyRes /\
       (auth, keyAuth) = fromKey keyRes wId (getGroupIdsFromHeaders req)) /\
  (invokes strict -> invokes outside).
Proof.
  intros strict outside. subst strict outside.
  unfold withPublicAPIAuthentication, withLogging.
  cbn [publicOptions public_allowUserOutsideCurrentWorkspace public_isStreaming
       requiredScopes enabled default].
  split; [reflexivity|].
  destruct (query_wId req) as [|wId|l]; [rejected| |rejected].
  destruct (String.eqb wId ""); [rejected|].
  destruct (getBearerToken req) as [token|e]; [|rejected].
  destruct (getAuthType token) eqn:Hm.
  - destruct (verifyAuth0Token _ _) as [decoded|e]; [|rejected].
    destruct (user (fromAuth0Token decoded wId)); [|rejected].
    destruct (isUser (fromAuth0Token decoded wId)); [|rejected]. simpl.
    split; [intros ? _ _; split; [reflexivity | now intros ? ? [= _ <-]]|].
    split; [now intros ? ? [= _ <-]|]. split; [discriminate | auto].
  - split; [intros ? [= <-] Hm'; congruence|].
    destruct (getAPIKey req) as [keyRes|error];
      [|split; [discriminate|]; split; [discriminate|]; intros [? ?]; discriminate].
    destruct (fromKey keyRes wId (getGroupIdsFromHeaders req)) as [workspaceAuth keyAuth]
      eqn:Hk.
    destruct (workspace workspaceAuth);
      [|split; [discriminate|]; split; [discriminate|]; intros [? ?]; discriminate].
    destruct (plan workspaceAuth);
      [|split; [discriminate|]; split; [discriminate|]; intros [? ?]; discriminate].
    rewrite !andb_false_r.
    assert (Hout : forall auth keyAuth',
               @Handler (Authenticator * option Authenticator)
                 (workspaceAuth, Some keyAuth) = Handler (auth, Some keyAuth') ->
               exists wId' token' keyRes',
                 Single wId = Single wId' /\ @Ok string string token = Ok token' /\
                 getAuthType token' = api_key /\
                 @Ok KeyType APIErrorWithStatusCode keyRes = Ok keyRes' /\
                 (auth, keyAuth') = fromKey keyRes' wId' (getGroupIdsFromHeaders req)).
    { intros auth keyAuth' [= <- <-]. now exists wId, token, keyRes. }
    destruct (isBuilder workspaceAuth); simpl.
    + split; [now intros ? ? [= _ <-]|]. split; [|intros _; eexists; reflexivity].
      destruct (header_userEmail req); exact Hout.
    + split; [discriminate|]. split; [|intros _; eexists; reflexivity].
      destruct (header_userEmail req); exact Hout.
Qed.

End PublicOption.

(** The users of the sample library: the token [jwt] belongs to a user who is
    registered. *)
Definition sampleUsers : @UserLib sampleLib :=
  @Build_UserLib sampleLib string (string * list string)%type
    (fun decoded : string => if String.eqb decoded "jwt" then Some "u" else None)
    (fun user : string => (user, ["w1"])).

Lemma withAuth0TokenAuthentication_handler_or_401_witness :
  @withAuth0TokenAuthentication sampleLib sampleUsers {| auth0_requiredScopes := None |}
    (request Undefined (Single "jwt")) = Handler ("u", ["w1"]) /\
  answers (@withAuth0TokenAuthentication sampleLib sampleUsers
             {| auth0_requiredScopes := None |} (request Undefined (Single "sk-1")))
    401 "not_authenticated".
Proof.
  split.
  - apply (proj1 (@withAuth0TokenAuthentication_handler_or_401 sampleLib sampleUsers
                    {| auth0_requiredScopes := None |} (request Undefined (Single "jwt")))).
    now exists "jwt", "jwt", "u".
  - now apply (proj2 (proj2 (@withAuth0TokenAuthentication_handler_or_401 sampleLib
                               sampleUsers {| auth0_requiredScopes := None |}
                               (request Undefined (Single "sk-1")))) "sk-1").
Defined.

Lemma session_option_widens_witness :
  answers (@withSessionAuthenticationForWorkspace sampleLib (sessionOptions None (Some false))
             (request (Single "w2") (Single "session"))) 401 "workspace_auth_error" /\
  exists auth session wId,
    @withSessionAuthenticationForWorkspace sampleLib (sessionOptions None (Some true))
      (request (Single "w2") (Single "session")) = Handler (auth, session) /\
    @getSession sampleLib (request (Single "w2") (Single "session")) = Some session /\
    query_wId (request (Single "w2") (Single "session")) = Single wId /\
    auth = @fromSession sampleLib session wId /\
    isUser auth = false /\ user auth <> None.
Proof.
  apply (proj2 (proj2 (@session_option_widens sampleLib
                         (request (Single "w2") (Single "session")) None))).
  discriminate.
Defined.

Lemma public_option_key_auth_witness :
  exists auth keyAuth wId token keyRes,
    @withPublicAPIAuthentication sampleLib (publicOptions None None (Some true))
      (request (Single "w2") (Single "sk-1")) = Handler (auth, Some keyAuth) /\
    query_wId (request (Single "w2") (Single "sk-1")) = Single wId /\
    @getBearerToken sampleLib (request (Single "w2") (Single "sk-1")) = Ok token /\
    @getAuthType sampleLib token = api_key /\
    @getAPIKey sampleLib (request (Single "w2") (Single "sk-1")) = Ok keyRes /\
    (auth, keyAuth)
    = @fromKey sampleLib keyRes wId
        (@getGroupIdsFromHeaders sampleLib (request (Single "w2") (Single "sk-1"))).
Proof.
  destruct (@public_option_key_auth sampleLib (request (Single "w2") (Single "sk-1"))
              None None) as (_ & _ & _ & Hkey & _).
  eexists _, _. 
  destruct (Hkey _ _ eq_refl) as (wId & token & keyRes & Hrest).
  exists wId, token, keyRes. split; [reflexivity | exact Hrest].
Defined.

End ApiWrappersOptions.

(** ** The datasets of an app: the three accessors agree *)

Module DatasetAccessorsSpec.
Import Datasets DatasetAccessors.

Section Agree.
Context `{DustAPI}.
Variable table : list Dataset.
Variable auth : Authenticator.
Variable app : AppType.
Variable name' : string.

(** X14. [getDatasetHash] returns the dataset of [getDataset] with its data.
    When [getDataset] returns null, [getDatasetHash] returns null for every
    hash; when [getDatasetHash] returns a dataset, it has data, it has the
    name asked for, and without its data it is what [getDataset] returns. *)
Theorem getDatasetHash_extends_getDataset :
  (getDataset table auth app name' = None ->
   forall hash, getDatasetHash table auth app name' hash = Returned None) /\
  (forall hash dataset,
     getDatasetHash table auth app name' hash = Returned (Some dataset) ->
     name dataset = name' /\
     data dataset <> None /\
     getDataset table auth app name'
     = Some {| name := name dataset; description := description dataset; data := None |}).
Proof.
  unfold getDataset, getDatasetHash.
  destruct (workspace auth) as [owner|]; simpl; [|split; [reflexivity | discriminate]].
  destruct (findOne table (workspace_id owner) (internalId app) name') as [row|] eqn:Hrow;
    simpl; [|split; [reflexivity | discriminate]].
  apply find_some in Hrow as [_ Hp]. apply andb_true_iff in Hp as [_ Hn].
  apply String.eqb_eq in Hn.
  split; [discriminate|]. intros hash dataset Hreturned.
  assert (Hfetched : exists hash',
            match Datasets.getDataset (dustAPIProjectId app) (dataset_name row) hash' with
            | Err _ => Returned None
            | Ok apiDataset =>
                Returned (Some {| name := dataset_name row;
                                  description := dataset_description row;
                                  data := Some apiDataset |})
            end = Returned (Some dataset)).
  { destruct (String.eqb hash "latest"); [|now exists hash].
    destruct (Datasets.getDatasets _) as [datasets|e]; [|discriminate].
    destruct (getProperty datasets _) as [value|]; [|discriminate].
    destruct (lengthOf value) as [[| |]|]; try discriminate;
      (destruct (first value) as [version|]; [now exists (Datasets.hash version) | discriminate]). }
  destruct Hfetched as [hash' Hfetched].
  destruct (Datasets.getDataset (dustAPIProjectId app) (dataset_name row) hash')
    as [apiDataset|e]; [|discriminate Hfetched].
  injection Hfetched as <-. simpl. now repeat split.
Qed.

Variable orderByUpdatedAtDesc : list Dataset -> list Dataset.

(** X15. [getDataset] finds exactly the names that [getDatasets] lists, the
    database returning the rows it has selected in some order: a name has a
    dataset if and only if it is the name of a listed dataset, and the dataset
    found is one of the list.  No listed dataset carries data, and without a
    workspace the list is empty. *)
Theorem getDataset_finds_the_listed :
  (forall rows, orderByUpdatedAtDesc rows ≡ₚ rows) ->
  let listed := getDatasets table orderByUpdatedAtDesc auth app in
  (getDataset table auth app name' <> None <->
   exists dataset, dataset ∈ listed /\ name dataset = name') /\
  (forall dataset, getDataset table auth app name' = Some dataset -> dataset ∈ listed) /\
  (forall dataset, dataset ∈ listed -> data dataset = None) /\
  (workspace auth = None -> listed = []).
Proof.
  intros Hperm listed. subst listed. unfold getDataset, getDatasets, findAll.
  destruct (workspace auth) as [owner|]; simpl.
  2:{ split; [split; [easy | intros (d & Hd & _); now apply elem_of_nil in Hd]|].
      split; [discriminate|]. split; [|reflexivity].
      intros d Hd. now apply elem_of_nil in Hd. }
  assert (Hin : forall d, d ∈ orderByUpdatedAtDesc
                  (List.filter (fun d => (workspaceId d =? workspace_id owner)
                                         && (appId d =? internalId app)) table) <->
                In d table /\
                (workspaceId d =? workspace_id owner) && (appId d =? internalId app) = true).
  { intros d. rewrite Hperm, list_elem_of_In. apply filter_In. }
  split; [|split; [|split; [|discriminate]]].
  - split.
    + destruct (findOne table (workspace_id owner) (internalId app) name') as [row|] eqn:Hrow;
        [|easy].
      intros _. apply find_some in Hrow as [Hrow Hp]. apply andb_true_iff in Hp as [Hp Hn].
      exists (render row). split; [|now apply String.eqb_eq].
      apply list_elem_of_fmap_2, Hin. now split.
    + intros (d & Hd & Hn). apply list_elem_of_fmap in Hd as (row & -> & Hrow).
      apply Hin in Hrow as [Hrow Hp].
      destruct (findOne table (workspace_id owner) (internalId app) name') eqn:Hnone; [easy|].
      exfalso. apply (find_none _ _ Hnone) in Hrow. simpl in Hn.
      apply String.eqb_eq in Hn. rewrite Hp, Hn in Hrow. discriminate.
  - intros d.
    destruct (findOne table (workspace_id owner) (internalId app) name') as [row|] eqn:Hrow;
      [|discriminate].
    simpl. intros [= <-]. apply find_some in Hrow as [Hrow Hp].
    apply andb_true_iff in Hp as [Hp _]. apply list_elem_of_fmap_2, Hin. now split.
  - intros d Hd. apply list_elem_of_fmap in Hd as (row & -> & _). reflexivity.
Qed.

End Agree.

Lemma getDatasetHash_extends_getDataset_witness :
  @getDatasetHash DatasetsSpec.sampleAPI DatasetsSpec.sampleTable
    {| workspace := Some DatasetsSpec.sampleOwner |} DatasetsSpec.sampleApp "test" "latest"
  = Returned None /\
  getDataset DatasetsSpec.sampleTable {| workspace := Some DatasetsSpec.sampleOwner |}
    DatasetsSpec.sampleApp "train"
  = Some {| name := "train"; description := Some "training set"; data := None |}.
Proof.
  destruct (@getDatasetHash_extends_getDataset DatasetsSpec.sampleAPI DatasetsSpec.sampleTable
              {| workspace := Some DatasetsSpec.sampleOwner |} DatasetsSpec.sampleApp "test")
    as [Hnull _].
  destruct (@getDatasetHash_extends_getDataset DatasetsSpec.sampleAPI DatasetsSpec.sampleTable
              {| workspace := Some DatasetsSpec.sampleOwner |} DatasetsSpec.sampleApp "train")
    as [_ Hsome].
  split; [now apply Hnull|].
  now apply (Hsome "latest" {| name := "train"; description := Some "training set";
                              data := Some ["row"] |}).
Defined.

Lemma getDataset_finds_the_listed_witness :
  getDataset DatasetsSpec.sampleTable {| workspace := Some DatasetsSpec.sampleOwner |}
    DatasetsSpec.sampleApp "train" <> None.
Proof.
  apply (getDataset_finds_the_listed DatasetsSpec.sampleTable
           {| workspace := Some DatasetsSpec.sampleOwner |} DatasetsSpec.sampleApp "train"
           (@reverse Dataset) (@reverse_Permutation Dataset)).
  exists {| name := "train"; description := Some "training set"; data := None |}.
  split; [|reflexivity]. apply list_elem_of_here.
Defined.

End DatasetAccessorsSpec.

(** ** The include-file action: from the run to the rendering *)

Module IncludeFileRunnerSpec.
Import JS IncludeFile IncludeFileSpec IncludeFileRunner.

Section FunctionCall.
Context `{Services}.
Variable stringifyParams : string -> string.
Variable this : ConversationIncludeFileAction.

(** X16. The function message answers the function call: whatever
    [renderForMultiActionsModel] returns, the file's text or an error, has the
    role [function] and carries the id and the name that
    [renderForFunctionCall] gives to the call, which are the stored ones or,
    when they are null, [call_] followed by the id of the action and
    [include_conversation_file]. *)
Theorem function_message_answers_function_call
    (conversation : ConversationType) (model : ModelConfigurationType)
    (message : FunctionMessageTypeModel) :
  renderForMultiActionsModel this conversation model = Returns message ->
  role message = "function" /\
  function_call_id message = call_id (renderForFunctionCall stringifyParams this) /\
  name message = call_name (renderForFunctionCall stringifyParams this) /\
  (functionCallId this = None ->
   function_call_id message = "call_" +:+ numberToString (id this)) /\
  (functionCallName this = None -> name message = "include_conversation_file").
Proof.
  assert (Hfinal : forall content,
             Returns (finalize this content) = Returns message ->
             role message = "function" /\
             function_call_id message = call_id (renderForFunctionCall stringifyParams this) /\
             name message = call_name (renderForFunctionCall stringifyParams this) /\
             (functionCallId this = None ->
              function_call_id message = "call_" +:+ numberToString (id this)) /\
             (functionCallName this = None -> name message = "include_conversation_file")).
  { intros content [= <-]. simpl. do 3 (split; [reflexivity|]).
    split; intros ->; reflexivity. }
  unfold renderForMultiActionsModel.
  destruct (findFragment this conversation) as [m|]; [|apply Hfinal].
  destruct (renderContentFragmentForModel m conversation model true) as [value|e];
    [|apply Hfinal].
  destruct (rendered_content value) as [|[text|url] rest]; [discriminate| |apply Hfinal].
  destruct (tokenize text (providerId model) (modelId model)) as [tokens|e]; [|apply Hfinal].
  destruct (tooManyTokens tokens model); apply Hfinal.
Qed.

End FunctionCall.

Section Run.
Variable actionConfiguration_name : string.
Variable dateNow : nat -> Z.
Variable newId : Z.
Variable findAllOrder :
  list AgentConversationIncludeFileAction -> list AgentConversationIncludeFileAction.

(** What a run that reports a success has done. *)
Lemma run_success (auth : Authenticator) (p : BaseActionRunParams)
    (table table' : list AgentConversationIncludeFileAction) (events : list Event)
    (header' : EventHeader) (action : ConversationIncludeFileAction) :
  run actionConfiguration_name dateNow newId auth p table = Returns (events, table') ->
  conversation_include_file_success header' action ∈ events ->
  exists fileId row,
    rawInputs_fileId p = StringInput fileId /\ fileId <> "" /\
    table' = table ++ [row] /\ actionOfRow row = action /\
    action = {| id := newId;
                agentMessageId := agentMessage_agentMessageId p;
                params_fileId := fileId;
                functionCallId := run_functionCallId p;
                functionCallName := Some actionConfiguration_name;
                step := run_step p |} /\
    events = [conversation_include_file_params (header dateNow 0 p) action;
              conversation_include_file_success (header dateNow 1 p) action].
Proof.
  unfold run. destruct (workspace auth) as [owner|]; [|discriminate].
  destruct (rawInputs_fileId p) as [fileId|] eqn:Hf.
  - destruct (String.eqb_spec fileId "") as [->|Hne].
    + intros [= <- <-] Hin. apply list_elem_of_singleton in Hin. discriminate.
    + intros [= <- <-] Hin. apply elem_of_cons in Hin as [Hin|Hin]; [discriminate|].
      apply list_elem_of_singleton in Hin. injection Hin as _ ->.
      eexists fileId, _. now repeat split.
  - intros [= <- <-] Hin. apply list_elem_of_singleton in Hin. discriminate.
Qed.

(** X17. The action that a run reports is the action stored.  After a run
    that yields a success,
    [conversationIncludeFileTypesFromAgentMessageIds] finds, for any list of
    agent messages, the actions it found before and, when the agent message
    of the run is in the list, the action of the success event besides; the
    database returns the rows it has selected in some order. *)
Theorem run_then_find (auth : Authenticator) (p : BaseActionRunParams)
    (table table' : list AgentConversationIncludeFileAction) (events : list Event)
    (header' : EventHeader) (action : ConversationIncludeFileAction)
    (agentMessageIds : list Z) :
  (forall rows, findAllOrder rows ≡ₚ rows) ->
  run actionConfiguration_name dateNow newId auth p table = Returns (events, table') ->
  conversation_include_file_success header' action ∈ events ->
  conversationIncludeFileTypesFromAgentMessageIds findAllOrder table' agentMessageIds
  ≡ₚ conversationIncludeFileTypesFromAgentMessageIds findAllOrder table agentMessageIds
     ++ (if decide (agentMessage_agentMessageId p ∈ agentMessageIds) then [action] else []).
Proof.
  intros Hperm Hrun Hin.
  destruct (run_success _ _ _ _ _ _ _ Hrun Hin)
    as (fileId & row & _ & _ & -> & Hrow & Haction & _).
  unfold conversationIncludeFileTypesFromAgentMessageIds.
  rewrite !Hperm, filter_app, fmap_app. apply Permutation_app_head.
  assert (Hm : row_agentMessageId row = agentMessage_agentMessageId p).
  { rewrite Haction in Hrow. now injection Hrow. }
  destruct (decide (agentMessage_agentMessageId p ∈ agentMessageIds)) as [Hid|Hid].
  - rewrite filter_cons_True by (now rewrite Hm). simpl. now rewrite Hrow.
  - rewrite filter_cons_False by (now rewrite Hm). reflexivity.
Qed.

Context `{Services}.

(** X18. [run] does not look for the file.  With a workspace and a file id
    that is a string and is not empty, the run creates the action and yields
    the params and success events, whatever the conversations hold; when no
    content fragment of the conversation is an includable file of that id,
    rendering the reported action returns the error that the file was not
    found, under the name of the action configuration and the id of the call,
    or [call_] followed by the id of the row when the call had none. *)
Theorem run_does_not_look_for_the_file (auth : Authenticator) (p : BaseActionRunParams)
    (table : list AgentConversationIncludeFileAction) (owner : WorkspaceType)
    (fileId : string) (conversation : ConversationType) (model : ModelConfigurationType) :
  workspace auth = Some owner ->
  rawInputs_fileId p = StringInput fileId -> fileId <> "" ->
  exists action row,
    run actionConfiguration_name dateNow newId auth p table
    = Returns ([conversation_include_file_params (header dateNow 0 p) action;
                conversation_include_file_success (header dateNow 1 p) action],
               table ++ [row]) /\
    actionOfRow row = action /\ params_fileId action = fileId /\
    ((forall m, ~ requested action conversation m) ->
     renderForMultiActionsModel action conversation model
     = Returns {| role := "function";
                  name := actionConfiguration_name;
                  function_call_id :=
                    default ("call_" +:+ numberToString newId) (run_functionCallId p);
                  message_content :=
                    "Error: File `" +:+ fileId +:+ "` not found in conversation" |}).
Proof.
  intros Ho Hf Hne. unfold run. rewrite Ho, Hf.
  apply String.eqb_neq in Hne. rewrite Hne.
  eexists _, _. split; [reflexivity|]. split; [reflexivity|]. split; [reflexivity|].
  intros Hnone. unfold renderForMultiActionsModel.
  destruct (findFragment _ conversation) as [m|] eqn:Hm; [|reflexivity].
  apply findFragment_Some in Hm. now apply Hnone in Hm.
Qed.

End Run.

Definition sampleParams (fileId : RawInput) : BaseActionRunParams :=
  {| agentConfiguration_sId := "agent1"; agentMessage_sId := "m1";
     agentMessage_agentMessageId := 1; rawInputs_fileId := fileId;
     run_functionCallId := None; run_step := 0 |}.

Definition sampleAuth : Authenticator :=
  {| workspace := Some {| workspace_sId := "w1" |} |}.

Lemma function_message_answers_function_call_witness :
  function_call_id (finalize sampleAction "hello") = "call_7" /\
  name (finalize sampleAction "hello") = "include_conversation_file".
Proof.
  destruct (@function_message_answers_function_call sampleServices (fun s => s)
              sampleAction sampleConversation (sampleModel 12)
              (finalize sampleAction "hello") eq_refl) as (_ & _ & _ & Hid & Hname).
  split; [apply Hid; reflexivity | apply Hname; reflexivity].
Defined.

Definition sampleYielded : ConversationIncludeFileAction :=
  {| id := 7; agentMessageId := 1; params_fileId := "f1"; functionCallId := None;
     functionCallName := Some "include_file"; step := 0 |}.

Definition sampleRow : AgentConversationIncludeFileAction :=
  {| row_id := 7; row_fileId := "f1"; row_functionCallId := None;
     row_functionCallName := Some "include_file"; row_agentMessageId := 1; row_step := 0 |}.

Lemma run_then_find_witness :
  run "include_file" (fun n => Z.of_nat n) 7 sampleAuth (sampleParams (StringInput "f1")) []
  = Returns ([conversation_include_file_params
                (header (fun n => Z.of_nat n) 0 (sampleParams (StringInput "f1")))
                sampleYielded;
              conversation_include_file_success
                (header (fun n => Z.of_nat n) 1 (sampleParams (StringInput "f1")))
                sampleYielded],
             [sampleRow]) /\
  conversationIncludeFileTypesFromAgentMessageIds reverse [sampleRow] [1]
  ≡ₚ conversationIncludeFileTypesFromAgentMessageIds reverse [] [1]
     ++ (if decide (1 ∈ [1]) then [sampleYielded] else []).
Proof.
  split; [reflexivity|].
  apply (run_then_find "include_file" (fun n => Z.of_nat n) 7 reverse sampleAuth
           (sampleParams (StringInput "f1")) [] [sampleRow] _
           (header (fun n => Z.of_nat n) 1 (sampleParams (StringInput "f1")))
           sampleYielded [1] (@reverse_Permutation _) eq_refl).
  apply list_elem_of_further, list_elem_of_here.
Defined.

Lemma run_does_not_look_for_the_file_witness :
  exists action row,
    run "include_file" (fun n => Z.of_nat n) 7 sampleAuth (sampleParams (StringInput "f2")) []
    = Returns ([conversation_include_file_params
                  (header (fun n => Z.of_nat n) 0 (sampleParams (StringInput "f2"))) action;
                conversation_include_file_success
                  (header (fun n => Z.of_nat n) 1 (sampleParams (StringInput "f2"))) action],
               [row]) /\
    @renderForMultiActionsModel sampleServices action sampleConversation (sampleModel 12)
    = Returns {| role := "function"; name := "include_file"; function_call_id := "call_7";
                 message_content := "Error: File `f2` not found in conversation" |}.
Proof.
  destruct (@run_does_not_look_for_the_file "include_file" (fun n => Z.of_nat n) 7
              sampleServices sampleAuth (sampleParams (StringInput "f2")) []
              {| workspace_sId := "w1" |} "f2" sampleConversation (sampleModel 12)
              eq_refl eq_refl ltac:(discriminate))
    as (action & row & Hrun & Hrow & Hfile & Hrender).
  exists action, row. split; [exact Hrun|].
  injection Hrun as <- _. apply Hrender.
  intros m (Hin & _ & Hid). simpl in Hin, Hid.
  destruct Hin as [Hin|[Hin|[Hin|[]]]]; try discriminate.
  injection Hin as <-. discriminate.
Defined.

End IncludeFileRunnerSpec.

(** ** The file uploader: what a call uploads, returns and leaves *)

Module FileUploaderCalls.
Import JS FileUploader FileUploaderSpec FileUploaderAccessors.

(** The values and the errors of a list of results, in order. *)
Definition oks {A E : Type} (results : list (Result A E)) : list A :=
  omap (fun r => match r with Ok a => Some a | Err _ => None end) results.

Definition errs {A E : Type} (results : list (Result A E)) : list E :=
  omap (fun r => match r with Ok _ => None | Err e => Some e end) results.

(** The notification of [processResults] for an error. *)
Definition failed (error : FileBlobUploadError) : Effect :=
  Notify {| notification_type := "error";
            title := "Failed to upload file.";
            description := message error |}.

(** The held blobs after the two updates of [processResults]. *)
Definition updated (updateBlobs : option bool) (successfulBlobs : list FileBlob)
    (erroredBlobs : list FileBlobUploadError) (prevFiles : list FileBlob) : list FileBlob :=
  if default true updateBlobs then
    let kept := if (0 <? length erroredBlobs)%nat
                then dropErrored erroredBlobs prevFiles else prevFiles in
    if (0 <? length successfulBlobs)%nat then mergeSuccessful successfulBlobs kept else kept
  else prevFiles.

(** The request of [uploadFiles] for a blob, and the result it makes of the
    answer. *)
Definition paramsOf (fileBlob : FileBlob) : UploadFileParams :=
  {| param_contentType := contentType fileBlob;
     fileName := filename fileBlob;
     fileSize := size fileBlob;
     useCase := "conversation";
     fileObject := file fileBlob |}.

Definition uploadedBlob `{Client} (fileBlob : FileBlob) (fileUploaded : FileUploaded)
  : FileBlob :=
  {| contentType := contentType fileBlob;
     file := file fileBlob;
     filename := filename fileBlob;
     id := id fileBlob;
     fileId := Some (uploaded_id fileUploaded);
     isUploading := false;
     FileUploader.preview :=
       if isSupportedImageContentType (contentType fileBlob)
       then Some (downloadUrl fileUploaded +:+ "?action=view")
       else None;
     size := size fileBlob;
     publicUrl := uploaded_publicUrl fileUploaded |}.

Definition uploadResult `{Client} (dustAPI : DustAPI) (fileBlob : FileBlob)
  : Result FileBlob FileBlobUploadError :=
  match dustAPI (paramsOf fileBlob) with
  | Err error =>
      Err {| code := failed_to_upload_file; error_file := file fileBlob; message := error |}
  | Ok fileUploaded => Ok (uploadedBlob fileBlob fileUploaded)
  end.

Lemma oks_app {A E : Type} (r1 r2 : list (Result A E)) : oks (r1 ++ r2) = oks r1 ++ oks r2.
Proof. apply omap_app. Qed.

Lemma errs_app {A E : Type} (r1 r2 : list (Result A E)) :
  errs (r1 ++ r2) = errs r1 ++ errs r2.
Proof. apply omap_app. Qed.

Section Runs.
Context `{Client}.

Lemma partition_run (results : list (Result FileBlob FileBlobUploadError))
    (successfulBlobs : list FileBlob) (erroredBlobs : list FileBlobUploadError)
    (st : State) (log : list Effect) :
  reduceM
    (fun '(successfulBlobs, erroredBlobs) result =>
       match result with
       | Err error =>
           _ ← sendNotification
                 {| notification_type := "error";
                    title := "Failed to upload file.";
                    description := message error |};
           mret (successfulBlobs, erroredBlobs ++ [error])
       | Ok value => mret (successfulBlobs ++ [value], erroredBlobs)
       end)
    results (successfulBlobs, erroredBlobs) (st, log)
  = ((successfulBlobs ++ oks results, erroredBlobs ++ errs results),
     (st, log ++ map failed (errs results))).
Proof.
  revert successfulBlobs erroredBlobs log.
  induction results as [|[value|error] results IH]; intros s e log; simpl.
  - now rewrite !app_nil_r.
  - unfold mbind, Hook_bind at 1. unfold mret, Hook_ret at 1.
    rewrite IH. cbn [oks omap list_omap]. now rewrite <- app_assoc.
  - unfold mbind, Hook_bind at 1. unfold mbind, Hook_bind at 1. simpl.
    unfold mret, Hook_ret at 1. rewrite IH. cbn [errs oks omap list_omap map].
    now rewrite <- !app_assoc.
Qed.

Lemma processResults_run (results : list (Result FileBlob FileBlobUploadError))
    (updateBlobs : option bool) (st : State) (log : list Effect) :
  processResults results updateBlobs (st, log)
  = (oks results,
     ({| fileBlobs := updated updateBlobs (oks results) (errs results) (fileBlobs st);
         isProcessingFiles := isProcessingFiles st |},
      log ++ map failed (errs results))).
Proof.
  unfold processResults. unfold mbind, Hook_bind at 1.
  rewrite partition_run. simpl. unfold updated.
  destruct (default true updateBlobs); simpl.
  - destruct (0 <? length (errs results))%nat, (0 <? length (oks results))%nat; simpl;
      try reflexivity; now destruct st.
  - now destruct st.
Qed.

Lemma uploadFiles_run (dustAPI : DustAPI) (newFileBlobs : list FileBlob)
    (st : State) (log : list Effect) :
  uploadFiles dustAPI newFileBlobs (st, log)
  = (map (uploadResult dustAPI) newFileBlobs,
     (st, log ++ map (fun b => Upload (paramsOf b)) newFileBlobs)).
Proof.
  unfold uploadFiles.
  assert (Hgen : forall acc log,
             reduceM (fun acc b => r ← uploadFile dustAPI b; mret (acc ++ [r]))
               newFileBlobs acc (st, log)
             = (acc ++ map (uploadResult dustAPI) newFileBlobs,
                (st, log ++ map (fun b => Upload (paramsOf b)) newFileBlobs))).
  { induction newFileBlobs as [|b blobs IH]; intros acc log'; simpl.
    - now rewrite !app_nil_r.
    - unfold mbind, Hook_bind at 1. unfold mbind, Hook_bind at 1.
      unfold uploadFile, uploadResult, uploadedBlob, paramsOf.
      unfold mbind, Hook_bind at 1. simpl.
      destruct (dustAPI _) as [fileUploaded|error]; unfold mret, Hook_ret at 1 2;
        rewrite IH, <- !app_assoc; reflexivity. }
  apply Hgen.
Qed.

(** The size check of [handleFilesUpload]. *)
Definition tooLarge (closure : State) (files : list File) : bool :=
  (COMBINED_MAX_TEXT_FILES_SIZE <? nonImageTotal (fileBlobs closure) files)
  || (COMBINED_MAX_IMAGE_FILES_SIZE <? imageTotal (fileBlobs closure) files).

(** The selected files that are not held, as [processSelectedFiles] previews
    them, and the blobs made for those of a supported type. *)
Definition previews (closure : State) (files : list File)
  : list (Result FileBlob FileBlobUploadError) :=
  map preview (List.filter (fun f => negb (alreadyExists closure f)) files).

Definition newFiles (closure : State) (files : list File) : list File :=
  List.filter
    (fun f => negb (alreadyExists closure f) && isSupportedFileContentType (type f)) files.

Definition newBlob (f : File) : FileBlob := createFileBlob f (type f) None.

Lemma oks_previews (closure : State) (files : list File) :
  oks (previews closure files) = map newBlob (newFiles closure files).
Proof.
  unfold previews, newFiles, oks. induction files as [|f files IH]; [reflexivity|].
  cbn [List.filter]. destruct (alreadyExists closure f); cbn [negb andb]; [exact IH|].
  cbn [map omap list_omap]. unfold preview at 1.
  destruct (isSupportedFileContentType (type f)); cbn [negb map];
    [now rewrite <- IH | exact IH].
Qed.

(** A call of [handleFilesUpload], in one step. *)
Lemma handleFilesUpload_run (dustAPI : DustAPI) (closure : State) (files : list File)
    (updateBlobs : option bool) (st : State) (log : list Effect) :
  handleFilesUpload dustAPI closure files updateBlobs (st, log)
  = if tooLarge closure files then
      (None,
       ({| fileBlobs := fileBlobs st; isProcessingFiles := true |},
        log ++ [Notify filesTooLarge]))
    else
      let previewResults := previews closure files in
      let newFileBlobs := oks previewResults in
      let uploadResults := map (uploadResult dustAPI) newFileBlobs in
      (Some (oks uploadResults),
       ({| fileBlobs :=
             updated updateBlobs (oks uploadResults) (errs uploadResults)
               (updated updateBlobs newFileBlobs (errs previewResults) (fileBlobs st));
           isProcessingFiles := false |},
        log ++ map alreadyUploaded (List.filter (alreadyExists closure) files)
            ++ map failed (errs previewResults)
            ++ map (fun b => Upload (paramsOf b)) newFileBlobs
            ++ map failed (errs uploadResults))).
Proof.
  unfold handleFilesUpload, tooLarge. rewrite totalSizes_spec.
  unfold mbind, Hook_bind at 1. cbn [setIsProcessingFiles].
  destruct (_ || _); [reflexivity|].
  unfold mbind, Hook_bind at 1. unfold processSelectedFiles.
  rewrite processSelectedFiles_from. cbn [app]. fold (previews closure files).
  unfold mbind, Hook_bind at 1. rewrite processResults_run.
  unfold mbind, Hook_bind at 1. rewrite uploadFiles_run.
  unfold mbind, Hook_bind at 1. rewrite processResults_run.
  unfold mbind, Hook_bind at 1. cbn [setIsProcessingFiles fileBlobs isProcessingFiles].
  unfold mret, Hook_ret. cbv zeta. now rewrite <- !app_assoc.
Qed.

(** The uploads of a log of effects, in order. *)
Definition uploadsOf (log : list Effect) : list UploadFileParams :=
  omap (fun e => match e with Upload p => Some p | _ => None end) log.

Lemma uploadsOf_app (l1 l2 : list Effect) : uploadsOf (l1 ++ l2) = uploadsOf l1 ++ uploadsOf l2.
Proof. apply omap_app. Qed.

Lemma uploadsOf_notifications {A : Type} (f : A -> Notification) (l : list A) :
  uploadsOf (map (fun a => Notify (f a)) l) = [].
Proof. induction l as [|a l IH]; [reflexivity | exact IH]. Qed.

Lemma uploadsOf_uploads (blobs : list FileBlob) :
  uploadsOf (map (fun b => Upload (paramsOf b)) blobs) = map paramsOf blobs.
Proof.
  induction blobs as [|b blobs IH]; [reflexivity|].
  cbn [map uploadsOf omap list_omap]. f_equal. exact IH.
Qed.

(** A held blob whose upload is over. *)
Definition ready (fileBlob : FileBlob) : Prop :=
  isUploading fileBlob = false /\ fileId fileBlob <> None.

Lemma uploadResult_ok (dustAPI : DustAPI) (blobs : list FileBlob) (b : FileBlob) :
  b ∈ oks (map (uploadResult dustAPI) blobs) ->
  ready b /\
  exists new, new ∈ blobs /\ id b = id new /\ file b = file new /\
              contentType b = contentType new.
Proof.
  induction blobs as [|new blobs IH]; [intros Hb; now apply elem_of_nil in Hb|].
  cbn [map oks omap list_omap]. unfold uploadResult at 1.
  destruct (dustAPI (paramsOf new)) as [fileUploaded|error].
  - intros Hb. apply elem_of_cons in Hb as [->|Hb].
    + split; [split; [reflexivity | discriminate]|].
      exists new. split; [apply list_elem_of_here | now repeat split].
    + destruct (IH Hb) as (Hr & new' & Hin & Hrest).
      split; [exact Hr|]. exists new'. split; [now apply list_elem_of_further | exact Hrest].
  - intros Hb. destruct (IH Hb) as (Hr & new' & Hin & Hrest).
    split; [exact Hr|]. exists new'. split; [now apply list_elem_of_further | exact Hrest].
Qed.

Lemma newFiles_selected (closure : State) (files : list File) (f : File) :
  f ∈ newFiles closure files ->
  f ∈ files /\ alreadyExists closure f = false /\ isSupportedFileContentType (type f) = true.
Proof.
  unfold newFiles. rewrite !list_elem_of_In, List.filter_In, andb_true_iff, negb_true_iff.
  tauto.
Qed.

(** X19. What a call uploads and returns.  When the combined sizes are within
    the limits, [handleFilesUpload] uploads exactly the selected files that
    are not held and have a supported type, one request for each in the order
    of the selection (a name selected twice is uploaded twice), and returns
    the blobs of the uploads that the server accepted, in that order: each
    has a file id, is not uploading any more, and bears the name and the type
    of its file. *)
Theorem handleFilesUpload_uploads_the_new_files (dustAPI : DustAPI) (closure : State)
    (files : list File) (updateBlobs : option bool) (st : State) (log : list Effect) :
  imageTotal (fileBlobs closure) files <= 5 * (5 * 1024 * 1024) ->
  nonImageTotal (fileBlobs closure) files <= 2 * (30 * 1024 * 1024) ->
  let newFileBlobs := map newBlob (newFiles closure files) in
  let result := handleFilesUpload dustAPI closure files updateBlobs (st, log) in
  fst result = Some (oks (map (uploadResult dustAPI) newFileBlobs)) /\
  uploadsOf (snd (snd result)) = uploadsOf log ++ map paramsOf newFileBlobs /\
  map fileObject (map paramsOf newFileBlobs) = newFiles closure files /\
  (forall b, b ∈ oks (map (uploadResult dustAPI) newFileBlobs) ->
     isUploading b = false /\ fileId b <> None /\
     exists f, f ∈ files /\ alreadyExists closure f = false /\
               isSupportedFileContentType (type f) = true /\
               file b = f /\ id b = name f /\ contentType b = type f).
Proof.
  intros Himage Htext newFileBlobs result. subst newFileBlobs result.
  rewrite handleFilesUpload_run.
  assert (Hsize : tooLarge closure files = false).
  { unfold tooLarge, COMBINED_MAX_TEXT_FILES_SIZE, COMBINED_MAX_IMAGE_FILES_SIZE,
      MAX_FILE_SIZES_plainText, MAX_FILE_SIZES_image.
    apply orb_false_iff. split; apply Z.ltb_ge; lia. }
  rewrite Hsize. cbv zeta. rewrite oks_previews. cbn [fst snd].
  split; [reflexivity|]. split; [|split].
  - rewrite !uploadsOf_app.
    rewrite (uploadsOf_notifications
               (fun f => {| notification_type := "error"; title := "File already exists.";
                            description := "File " +:+ dquote +:+ name f +:+ dquote
                                           +:+ " is already uploaded." |})).
    rewrite (uploadsOf_notifications
               (fun error => {| notification_type := "error";
                                title := "Failed to upload file.";
                                description := message error |}) (errs (previews _ _))).
    rewrite (uploadsOf_notifications
               (fun error => {| notification_type := "error";
                                title := "Failed to upload file.";
                                description := message error |})).
    now rewrite uploadsOf_uploads, app_nil_r.
  - rewrite !map_map. cbn [paramsOf newBlob createFileBlob fileObject file]. apply map_id.
  - intros b Hb. apply uploadResult_ok in Hb as ([Hu Hf] & new & Hnew & Hid & Hfile & Hct).
    split; [exact Hu|]. split; [exact Hf|].
    apply list_elem_of_fmap in Hnew as (f & -> & Hin).
    apply newFiles_selected in Hin as (Hin & Hex & Hsup).
    exists f. now repeat split.
Qed.

(** *** The blobs that the two updates of [processResults] leave *)

Lemma mapSet_elem (k : string) (v : FileBlob) (m : list (string * FileBlob))
    (e : string * FileBlob) :
  NoDup (map fst m) -> e ∈ mapSet k v m -> e = (k, v) \/ (e ∈ m /\ fst e <> k).
Proof.
  induction m as [|[k' v'] m IH]; cbn [mapSet map fst]; intros Hnd He.
  - apply list_elem_of_singleton in He. now left.
  - apply NoDup_cons in Hnd as [Hk Hnd]. destruct (String.eqb_spec k' k) as [->|Hne].
    + apply elem_of_cons in He as [->|He]; [now left|]. right.
      split; [now apply list_elem_of_further|].
      intros Hfst. apply Hk. rewrite <- Hfst. now apply list_elem_of_fmap_2.
    + apply elem_of_cons in He as [->|He]; [right; split; [apply list_elem_of_here | exact Hne]|].
      destruct (IH Hnd He) as [->|[Hin Hfst]]; [now left|].
      right. split; [now apply list_elem_of_further | exact Hfst].
Qed.

Lemma fold_mapSet_elem (blobs : list FileBlob) (m : list (string * FileBlob))
    (e : string * FileBlob) :
  wfMap m ->
  e ∈ fold_left (fun m blob => mapSet (id blob) blob m) blobs m ->
  (exists b, b ∈ blobs /\ e = (id b, b)) \/ (e ∈ m /\ fst e ∉ map id blobs).
Proof.
  revert m. induction blobs as [|b blobs IH]; intros m Hm He; cbn [fold_left] in He.
  - right. split; [exact He | apply not_elem_of_nil].
  - destruct (IH _ (mapSet_wf b m Hm) He) as [(b' & Hb' & ->)|[Hin Hnot]].
    + left. exists b'. split; [now apply list_elem_of_further | reflexivity].
    + destruct (mapSet_elem _ _ _ _ (proj1 Hm) Hin) as [->|[Hin' Hfst]].
      * left. exists b. split; [apply list_elem_of_here | reflexivity].
      * right. split; [exact Hin'|]. cbn [map]. rewrite not_elem_of_cons. now split.
Qed.

Lemma newMap_elem (prevFiles : list FileBlob) (e : string * FileBlob) :
  e ∈ newMap (map (fun blob => (id blob, blob)) prevFiles) -> snd e ∈ prevFiles.
Proof.
  unfold newMap.
  assert (Hgen : forall m,
             wfMap m ->
             e ∈ fold_left (fun m e => mapSet (fst e) (snd e) m)
                   (map (fun blob => (id blob, blob)) prevFiles) m ->
             snd e ∈ prevFiles \/ e ∈ m).
  { induction prevFiles as [|b l IH]; intros m Hm He; cbn [map fold_left fst snd] in He.
    - now right.
    - destruct (IH _ (mapSet_wf b m Hm) He) as [Hin|Hin].
      + left. now apply list_elem_of_further.
      + destruct (mapSet_elem _ _ _ _ (proj1 Hm) Hin) as [->|[Hin' _]].
        * left. apply list_elem_of_here.
        * now right. }
  intros He. destruct (Hgen [] (conj (NoDup_nil_2) (Forall_nil_2 _)) He) as [Hin|Hin];
    [exact Hin | now apply elem_of_nil in Hin].
Qed.

Lemma mergeSuccessful_elem (successfulBlobs prevFiles : list FileBlob) (x : FileBlob) :
  x ∈ mergeSuccessful successfulBlobs prevFiles ->
  x ∈ successfulBlobs \/ (x ∈ prevFiles /\ id x ∉ map id successfulBlobs).
Proof.
  unfold mergeSuccessful, mapValues. intros Hx.
  apply list_elem_of_fmap in Hx as ([k v] & -> & He).
  pose proof (newMap_wf prevFiles) as Hwf.
  destruct (fold_mapSet_elem _ _ _ Hwf He) as [(b & Hb & [= -> ->])|[Hin Hnot]].
  - now left.
  - right. split; [now apply newMap_elem in Hin|].
    destruct Hwf as [_ Hid]. rewrite Forall_forall in Hid.
    specialize (Hid _ Hin). cbn [fst snd] in *. now rewrite <- Hid.
Qed.

Lemma dropErrored_elem (erroredBlobs : list FileBlobUploadError) (prevFiles : list FileBlob)
    (x : FileBlob) :
  x ∈ dropErrored erroredBlobs prevFiles ->
  x ∈ prevFiles /\ id x ∉ map (fun e => name (error_file e)) erroredBlobs.
Proof.
  unfold dropErrored. rewrite list_elem_of_In, List.filter_In, <- list_elem_of_In.
  intros [Hin Hnone]. split; [exact Hin|]. intros Hid.
  apply list_elem_of_fmap in Hid as (e & He & Hin').
  apply negb_true_iff in Hnone.
  assert (Hsome : existsb (fun e => String.eqb (name (error_file e)) (id x)) erroredBlobs
                  = true).
  { apply existsb_exists. exists e. split; [now apply list_elem_of_In|].
    apply String.eqb_eq. now symmetry. }
  congruence.
Qed.

Lemma updated_elem (updateBlobs : option bool) (successfulBlobs : list FileBlob)
    (erroredBlobs : list FileBlobUploadError) (prevFiles : list FileBlob) (x : FileBlob) :
  x ∈ updated updateBlobs successfulBlobs erroredBlobs prevFiles ->
  (default true updateBlobs = false /\ x ∈ prevFiles) \/
  (default true updateBlobs = true /\
   (x ∈ successfulBlobs \/
    (x ∈ prevFiles /\ (id x ∉ map id successfulBlobs) /\
     (id x ∉ map (fun e => name (error_file e)) erroredBlobs)))).
Proof.
  unfold updated. destruct (default true updateBlobs); [|now left].
  intros Hx. right. split; [reflexivity|].
  set (kept := if (0 <? length erroredBlobs)%nat
               then dropErrored erroredBlobs prevFiles else prevFiles) in *.
  assert (Hkept : forall y, y ∈ kept ->
             y ∈ prevFiles /\ id y ∉ map (fun e => name (error_file e)) erroredBlobs).
  { intros y. subst kept. destruct erroredBlobs as [|e l]; [|apply dropErrored_elem].
    intros Hy. split; [exact Hy | apply not_elem_of_nil]. }
  destruct successfulBlobs as [|b l].
  - right. destruct (Hkept x Hx) as [Hin Hnot]. split; [exact Hin|].
    split; [apply not_elem_of_nil | exact Hnot].
  - apply mergeSuccessful_elem in Hx as [Hx|[Hx Hnot]]; [now left|].
    right. destruct (Hkept x Hx) as [Hin Hnot']. now repeat split.
Qed.

(** Every blob that was uploaded comes back as a result of its name. *)
Lemma uploadResult_name (dustAPI : DustAPI) (blobs : list FileBlob) (b : FileBlob) :
  b ∈ blobs -> name (file b) = id b ->
  id b ∈ map id (oks (map (uploadResult dustAPI) blobs)) \/
  id b ∈ map (fun e => name (error_file e)) (errs (map (uploadResult dustAPI) blobs)).
Proof.
  intros Hb Hname.
  assert (Hshape : forall new,
             match uploadResult dustAPI new with
             | Ok b' => id b' = id new
             | Err e => error_file e = file new
             end).
  { intros new. unfold uploadResult. now destruct (dustAPI (paramsOf new)). }
  induction blobs as [|new blobs IH]; [now apply elem_of_nil in Hb|].
  cbn [map oks errs omap list_omap]. specialize (Hshape new).
  apply elem_of_cons in Hb as [<-|Hb].
  - destruct (uploadResult dustAPI b) as [b'|e]; cbn [map].
    + left. rewrite Hshape. apply list_elem_of_here.
    + right. rewrite Hshape, Hname. apply list_elem_of_here.
  - destruct (IH Hb) as [Hin|Hin];
      destruct (uploadResult dustAPI new) as [b'|e]; cbn [map];
      [left; now apply list_elem_of_further | now left
      | now right | right; now apply list_elem_of_further].
Qed.

Lemma handleFilesUpload_ready (dustAPI : DustAPI) (closure : State) (files : list File)
    (updateBlobs : option bool) (w : State * list Effect) :
  Forall ready (fileBlobs (fst w)) ->
  Forall ready
    (fileBlobs (fst (snd (handleFilesUpload dustAPI closure files updateBlobs w)))).
Proof.
  destruct w as [st log]. cbn [fst]. intros Hready.
  rewrite handleFilesUpload_run.
  destruct (tooLarge closure files); [exact Hready|].
  cbv zeta. cbn [fst snd fileBlobs]. rewrite oks_previews.
  rewrite Forall_forall in Hready. apply Forall_forall. intros x Hx.
  apply updated_elem in Hx as [[Hno Hx]|[Hyes [Hx|(Hx & Hnot & Hnot')]]].
  - apply updated_elem in Hx as [[_ Hx]|[Hyes _]]; [now apply Hready | congruence].
  - now apply uploadResult_ok in Hx as [Hr _].
  - apply updated_elem in Hx as [[Hno _]|[_ [Hx|(Hx & _)]]];
      [congruence| |now apply Hready].
    exfalso.
    destruct (uploadResult_name dustAPI _ x Hx) as [Hin|Hin]; [|contradiction|contradiction].
    apply list_elem_of_fmap in Hx as (f & -> & _). reflexivity.
Qed.

Lemma filter_ready (p : FileBlob -> bool) (l : list FileBlob) :
  Forall ready l -> Forall ready (List.filter p l).
Proof.
  rewrite !Forall_forall. intros Hl x Hx. apply Hl.
  apply list_elem_of_In in Hx. apply List.filter_In in Hx as [Hx _].
  now apply list_elem_of_In.
Qed.

Lemma perform_ready (owner_sId : string) (closure : State) (op : Operation)
    (w : State * list Effect) :
  Forall ready (fileBlobs (fst w)) ->
  Forall ready (fileBlobs (fst (perform owner_sId closure op w))).
Proof.
  destruct op as [dustAPI files updateBlobs|fileId'|]; cbn [perform].
  - apply handleFilesUpload_ready.
  - destruct w as [st log]. unfold removeFile.
    destruct (find _ (fileBlobs closure)) as [fileBlob|]; [|trivial].
    unfold mbind, Hook_bind. cbn [setFileBlobs emit fst snd]. intros Hready.
    destruct (_ && _); cbn [fst snd fileBlobs setIsProcessingFiles mret Hook_ret];
      now apply filter_ready.
  - destruct w as [st log]. intros _. apply Forall_nil_2.
Qed.

(** X20. Between calls, every held blob has been uploaded.  After any
    sequence of [handleFilesUpload], [removeFile] and [resetUpload] calls from
    the initial state, each made from any render and run to its end, no held
    blob is uploading and each has its file id: [getFileBlobs] hands out all
    the held blobs. *)
Theorem held_blobs_are_uploaded (owner_sId : string) (calls : list (State * Operation)) :
  let st := fst (runFrom owner_sId calls (initialState, [])) in
  Forall (fun b => isUploading b = false /\ fileId b <> None) (fileBlobs st) /\
  getFileBlobs st = fileBlobs st.
Proof.
  intros st.
  assert (Hready : Forall ready (fileBlobs st)).
  { subst st. unfold runFrom.
    assert (Hgen : forall w, Forall ready (fileBlobs (fst w)) ->
               Forall ready
                 (fileBlobs (fst (fold_left
                    (fun w call => perform owner_sId (fst call) (snd call) w) calls w)))).
    { induction calls as [|[closure op] calls IH]; intros w Hw; cbn [fold_left];
        [exact Hw|].
      apply IH. now apply perform_ready. }
    apply Hgen. apply Forall_nil_2. }
  split; [exact Hready|].
  unfold getFileBlobs. induction Hready as [|b l [_ Hb] _ IH]; [reflexivity|].
  cbn [List.filter]. unfold fileBlobHasFileId at 1.
  rewrite bool_decide_eq_true_2 by exact Hb. now rewrite IH.
Qed.

(** X21. The flag [isProcessingFiles].  [handleFilesUpload] returns nothing
    exactly when a combined size exceeds its limit, and that is the one case
    in which it leaves the flag set; every call that gets past the size check
    clears it.  [resetUpload] does not touch the flag.  A change event without
    files, the sizes of the held blobs being within the limits, uploads
    nothing, returns the empty list and only clears the flag. *)
Theorem processing_flag_after_upload (dustAPI : DustAPI) (closure : State)
    (files : list File) (updateBlobs : option bool) (st : State) (log : list Effect) :
  let result := handleFilesUpload dustAPI closure files updateBlobs (st, log) in
  let after := fst (snd result) in
  (fst result = None <->
   5 * (5 * 1024 * 1024) < imageTotal (fileBlobs closure) files \/
   2 * (30 * 1024 * 1024) < nonImageTotal (fileBlobs closure) files) /\
  (isProcessingFiles after = true <-> fst result = None) /\
  (isProcessingFiles after = false <-> fst result <> None) /\
  isProcessingFiles (fst (snd (resetUpload (after, snd (snd result)))))
  = isProcessingFiles after /\
  (tooLarge closure [] = false ->
   handleFileChange dustAPI closure None (st, log)
   = (Some [], ({| fileBlobs := fileBlobs st; isProcessingFiles := false |}, log))).
Proof.
  intros result after. subst after result. rewrite handleFilesUpload_run.
  assert (Hsize : tooLarge closure files = true <->
                  5 * (5 * 1024 * 1024) < imageTotal (fileBlobs closure) files \/
                  2 * (30 * 1024 * 1024) < nonImageTotal (fileBlobs closure) files).
  { unfold tooLarge, COMBINED_MAX_TEXT_FILES_SIZE, COMBINED_MAX_IMAGE_FILES_SIZE,
      MAX_FILE_SIZES_plainText, MAX_FILE_SIZES_image.
    rewrite orb_true_iff, !Z.ltb_lt. tauto. }
  split; [|split; [|split; [|split]]].
  - rewrite <- Hsize. destruct (tooLarge closure files); cbn [fst]; split; congruence.
  - destruct (tooLarge closure files); cbn [fst snd isProcessingFiles]; split; congruence.
  - destruct (tooLarge closure files); cbn [fst snd isProcessingFiles]; split; congruence.
  - destruct (tooLarge closure files); reflexivity.
  - intros Hno. unfold handleFileChange. cbn [default]. rewrite handleFilesUpload_run, Hno.
    cbv zeta. unfold previews, updated. cbn. now rewrite app_nil_r.
Qed.

Lemma find_by_id (l : list FileBlob) (b : FileBlob) :
  NoDup (map id l) -> b ∈ l -> find (fun f => String.eqb (id f) (id b)) l = Some b.
Proof.
  induction l as [|x l IH]; intros Hnd Hin; [now apply elem_of_nil in Hin|].
  cbn [map] in Hnd. apply NoDup_cons in Hnd as [Hx Hnd]. cbn [find].
  apply elem_of_cons in Hin as [->|Hin]; [now rewrite String.eqb_refl|].
  destruct (String.eqb_spec (id x) (id b)) as [He|_]; [|now apply IH].
  exfalso. apply Hx. rewrite He. now apply list_elem_of_fmap_2.
Qed.

(** X22. [removeFile], called from the render that holds the state.  For an
    id that no held blob has, the call does nothing at all.  For the id of a
    held blob, the ids of the held blobs being distinct, it sends one
    [DELETE] request for the file of that blob, drops every held blob with
    that file id and keeps the others in their order, so that no held blob
    has the id any more; it clears the flag [isProcessingFiles] when no held
    blob was uploading.  The file id of a blob that is still uploading is
    null: the request then goes to [/files/null]. *)
Theorem removeFile_drops_the_file (owner_sId : string) (st : State) (log : list Effect)
    (fileId' : string) :
  let after := snd (removeFile owner_sId st fileId' (st, log)) in
  (fileId' ∉ map id (fileBlobs st) -> after = (st, log)) /\
  (forall fileBlob,
     fileBlob ∈ fileBlobs st -> id fileBlob = fileId' -> NoDup (map id (fileBlobs st)) ->
     snd after
     = log ++ [FetchDelete ("/api/w/" +:+ owner_sId +:+ "/files/"
                            +:+ default "null" (fileId fileBlob))] /\
     fileBlobs (fst after)
     = List.filter (fun f => negb (bool_decide (fileId f = fileId fileBlob))) (fileBlobs st) /\
     (fileId' ∉ map id (fileBlobs (fst after))) /\
     (forall b, b ∈ fileBlobs st -> fileId b <> fileId fileBlob -> b ∈ fileBlobs (fst after)) /\
     isProcessingFiles (fst after)
     = isProcessingFiles st && negb (forallb (fun f => negb (isUploading f)) (fileBlobs st))).
Proof.
  intros after. subst after. unfold removeFile. split.
  - intros Hnot.
    destruct (find _ (fileBlobs st)) as [b|] eqn:Hfind; [|reflexivity].
    exfalso. apply find_some in Hfind as [Hin He]. apply String.eqb_eq in He.
    apply Hnot. rewrite <- He. apply list_elem_of_fmap_2. now apply list_elem_of_In.
  - intros fileBlob Hin <- Hnd. rewrite (find_by_id _ _ Hnd Hin).
    unfold mbind, Hook_bind. cbn [setFileBlobs emit fst snd].
    set (kept := List.filter _ (fileBlobs st)).
    assert (Hstate : forall b : bool,
               (if b then setIsProcessingFiles false else mret tt)
                 ({| fileBlobs := kept; isProcessingFiles := isProcessingFiles st |},
                  log ++ [FetchDelete ("/api/w/" +:+ owner_sId +:+ "/files/"
                                       +:+ default "null" (fileId fileBlob))])
               = (tt, ({| fileBlobs := kept;
                          isProcessingFiles := if b then false else isProcessingFiles st |},
                       log ++ [FetchDelete ("/api/w/" +:+ owner_sId +:+ "/files/"
                                            +:+ default "null" (fileId fileBlob))]))).
    { now intros []. }
    rewrite Hstate. cbn [fst snd fileBlobs isProcessingFiles].
    split; [reflexivity|]. split; [reflexivity|]. split; [|split].
    + intros Hid. apply list_elem_of_fmap in Hid as (b & Hb & Hbin).
      subst kept. apply list_elem_of_In, List.filter_In in Hbin as [Hbin Hkeep].
      apply list_elem_of_In in Hbin.
      assert (b = fileBlob).
      { apply (NoDup_fmap_1 id) in Hnd as Hnd'.
        destruct (list_elem_of_lookup_1 _ _ Hbin) as [i Hi].
        destruct (list_elem_of_lookup_1 _ _ Hin) as [j Hj].
        assert (i = j).
        { apply (NoDup_lookup _ _ _ (id b) Hnd); rewrite list_lookup_fmap.
          - now rewrite Hi.
          - rewrite Hj. cbn. now rewrite Hb. }
        subst j. congruence. }
      subst b. now rewrite bool_decide_eq_true_2 in Hkeep.
    + intros b Hb Hne. subst kept. apply list_elem_of_In, List.filter_In.
      split; [now apply list_elem_of_In|]. now rewrite bool_decide_eq_false_2.
    + destruct (forallb _ (fileBlobs st)), (isProcessingFiles st); reflexivity.
Qed.

End Runs.

(** A selection of three files from the first render: the second file has a
    type that the client does not support, the server refuses the third. *)
Definition pickyClient : Client :=
  {| isSupportedFileContentType := fun s => negb (String.eqb s "video/mp4");
     isSupportedImageContentType :=
       fun s => orb (String.eqb s "image/png") (String.eqb s "image/jpeg") |}.

Definition pickyAPI : DustAPI :=
  fun p =>
    if String.eqb (fileName p) "c.png" then Err "quota exceeded"
    else Ok {| uploaded_id := "fil_" +:+ fileName p;
               downloadUrl := "https://files/" +:+ fileName p;
               uploaded_publicUrl := None |}.

Definition selection : list File :=
  [sampleFile "a.txt" "text/plain" 10; sampleFile "b.mp4" "video/mp4" 20;
   sampleFile "c.png" "image/png" 30].

Lemma handleFilesUpload_uploads_the_new_files_witness :
  fst (@handleFilesUpload pickyClient pickyAPI initialState selection None (initialState, []))
  = Some [@uploadedBlob pickyClient (newBlob (sampleFile "a.txt" "text/plain" 10))
            {| uploaded_id := "fil_a.txt"; downloadUrl := "https://files/a.txt";
               uploaded_publicUrl := None |}] /\
  uploadsOf
    (snd (snd (@handleFilesUpload pickyClient pickyAPI initialState selection None
                 (initialState, []))))
  = [paramsOf (newBlob (sampleFile "a.txt" "text/plain" 10));
     paramsOf (newBlob (sampleFile "c.png" "image/png" 30))].
Proof.
  destruct (@handleFilesUpload_uploads_the_new_files pickyClient pickyAPI initialState
              selection None initialState [] ltac:(vm_compute; discriminate)
              ltac:(vm_compute; discriminate)) as (Hresult & Huploads & _).
  split; [exact Hresult | exact Huploads].
Defined.

Lemma removeFile_drops_the_file_witness :
  let st := fst (@run sampleClient "w1"
                   [HandleFilesUpload acceptingAPI
                      [sampleFile "a.txt" "text/plain" 10; sampleFile "b.png" "image/png" 5]
                      None]
                   (initialState, [])) in
  snd (snd (removeFile "w1" st "b.png" (st, []))) = [FetchDelete "/api/w/w1/files/fil_b.png"] /\
  map id (fileBlobs (fst (snd (removeFile "w1" st "b.png" (st, []))))) = ["a.txt"] /\
  snd (removeFile "w1" st "c.txt" (st, [])) = (st, []).
Proof.
  intros st.
  pose proof (@removeFile_drops_the_file "w1" st [] "b.png") as [_ Hheld].
  pose proof (@removeFile_drops_the_file "w1" st [] "c.txt") as [Hunknown _].
  assert (Hb : exists b, b ∈ fileBlobs st /\ id b = "b.png" /\ fileId b = Some "fil_b.png").
  { eexists. split; [apply list_elem_of_further, list_elem_of_here | split; reflexivity]. }
  destruct Hb as (b & Hin & Hid & Hfile).
  assert (Hnd : NoDup (map id (fileBlobs st))).
  { apply (bool_decide_unpack _). vm_compute. exact I. }
  destruct (Hheld b Hin Hid Hnd) as (Hlog & Hkept & _).
  split; [rewrite Hlog, Hfile; reflexivity|].
  split; [rewrite Hkept, Hfile; reflexivity|].
  apply Hunknown. apply (bool_decide_unpack _). vm_compute. exact I.
Defined.

End FileUploaderCalls.

(** ** The usage reported to Stripe *)

Module SubscriptionUsageSpec.
Import JS Subscription SubscriptionSpec SubscriptionUsage.

Section PerSeat.
Context `{Services} `{PlanCodes}.

Lemma findActiveSubscriptionWithPlan_active (db : Database) (workspaceId' : Z)
    (s : SubscriptionRow) (plan : Plan) :
  findActiveSubscriptionWithPlan db workspaceId' = Some (s, plan) ->
  s ∈ activeOf workspaceId' (subscriptions db) /\
  plan ∈ plans db /\ plan_id plan = planId s.
Proof.
  unfold findActiveSubscriptionWithPlan. fold (activeOf workspaceId' (subscriptions db)).
  intros Hhead. apply head_Some_elem_of in Hhead.
  apply list_elem_of_omap in Hhead as (s' & Hs' & Hplan).
  destruct (find _ (plans db)) as [p|] eqn:Hfind; [|discriminate].
  injection Hplan as <- <-. apply find_some in Hfind as [Hin Hid].
  split; [exact Hs'|]. split; [now apply list_elem_of_In | lia].
Qed.

(** The subscriptions of a workspace after one of the three functions: none
    is active, or the one that is has no Stripe subscription. *)
Lemma subscribed_without_stripe (now : Z) (generateModelSId workspaceId' : string)
    (planCode : option string) (workspace : Workspace) (db db1 : Database)
    (rendered : SubscriptionType) :
  findWorkspace db workspaceId' = Some workspace ->
  atMostOneActive (workspace_id workspace) (subscriptions db) ->
  internalSubscribeWorkspaceToFreeNoPlan now workspaceId' db = Ok (rendered, db1) \/
  internalSubscribeWorkspaceToFreeTestPlan now generateModelSId workspaceId' db
    = Ok (rendered, db1) \/
  internalSubscribeWorkspaceToFreeUpgradedPlan now generateModelSId workspaceId' planCode db
    = Ok (rendered, db1) ->
  findWorkspace db1 workspaceId' = Some workspace /\
  forall s, s ∈ activeOf (workspace_id workspace) (subscriptions db1) ->
            stripeSubscriptionId s = None.
Proof.
  intros Hw Hone [Hcall|[Hcall|Hcall]].
  - unfold internalSubscribeWorkspaceToFreeNoPlan in Hcall. rewrite Hw in Hcall.
    injection Hcall as _ <-. split; [exact Hw|]. cbn [subscriptions withSubscriptions].
    rewrite (activeOf_endActive _ now _ Hone). intros s Hs. now apply elem_of_nil in Hs.
  - unfold internalSubscribeWorkspaceToFreeTestPlan in Hcall. rewrite Hw in Hcall.
    destruct (findPlan db FREE_TEST_PLAN_CODE) as [plan|]; [|discriminate].
    injection Hcall as _ <-. split; [exact Hw|]. cbn [subscriptions withSubscriptions].
    destruct (created now generateModelSId workspace plan (subscriptions db) Hone)
      as (new & Hlast & Hact & _).
    rewrite last_snoc in Hlast. injection Hlast as <-. rewrite Hact.
    intros s Hs. apply list_elem_of_singleton in Hs. now subst s.
  - unfold internalSubscribeWorkspaceToFreeUpgradedPlan in Hcall. rewrite Hw in Hcall.
    destruct (findPlan db _) as [plan|]; [|discriminate].
    destruct (match findActiveSubscription _ _ with Some _ => _ | None => _ end);
      [discriminate|].
    injection Hcall as _ <-. split; [exact Hw|]. cbn [subscriptions withSubscriptions].
    destruct (created now generateModelSId workspace plan (subscriptions db) Hone)
      as (new & Hlast & Hact & _).
    rewrite last_snoc in Hlast. injection Hlast as <-. rewrite Hact.
    intros s Hs. apply list_elem_of_singleton in Hs. now subst s.
Qed.

(** X23. The seats are reported for a Stripe subscription only.
    [updateWorkspacePerSeatSubscriptionUsage] calls Stripe at most for the
    first active subscription of the workspace that has its plan, when that
    plan is billed per seat and has a product id and the subscription has its
    Stripe ids, with the number of active seats of the workspace.  So after
    [internalSubscribeWorkspaceToFreeNoPlan],
    [internalSubscribeWorkspaceToFreeTestPlan] or
    [internalSubscribeWorkspaceToFreeUpgradedPlan] has completed for a
    workspace that had at most one active subscription, it does not call
    Stripe for that workspace: no subscription is active, or the new one has
    no Stripe subscription. *)
Theorem per_seat_usage_needs_a_stripe_subscription (workspaceId' : string) (db : Database)
    (stripeSubscriptionId' stripeProductId' : string) (quantity : Z) :
  (UpdateStripeSubscriptionQuantity stripeSubscriptionId' stripeProductId' quantity
     ∈ updateWorkspacePerSeatSubscriptionUsage workspaceId' db ->
   exists workspace activeSubscription plan,
     findWorkspace db workspaceId' = Some workspace /\
     activeSubscription ∈ activeOf (workspace_id workspace) (subscriptions db) /\
     plan ∈ plans db /\ plan_id plan = planId activeSubscription /\
     billingType (attributes plan) = "per_seat" /\
     stripeSubscriptionId activeSubscription = Some stripeSubscriptionId' /\
     stripeProductId (attributes plan) = Some stripeProductId' /\
     truthy (stripeCustomerId activeSubscription) = true /\
     countActiveSeatsInWorkspace (workspace_sId workspace) = Ok quantity) /\
  (forall (now : Z) (generateModelSId : string) (planCode : option string)
          (workspace : Workspace) (db0 : Database) (rendered : SubscriptionType),
     findWorkspace db0 workspaceId' = Some workspace ->
     atMostOneActive (workspace_id workspace) (subscriptions db0) ->
     internalSubscribeWorkspaceToFreeNoPlan now workspaceId' db0 = Ok (rendered, db) \/
     internalSubscribeWorkspaceToFreeTestPlan now generateModelSId workspaceId' db0
       = Ok (rendered, db) \/
     internalSubscribeWorkspaceToFreeUpgradedPlan now generateModelSId workspaceId' planCode db0
       = Ok (rendered, db) ->
     UpdateStripeSubscriptionQuantity stripeSubscriptionId' stripeProductId' quantity
       ∉ updateWorkspacePerSeatSubscriptionUsage workspaceId' db).
Proof.
  assert (Hcalled :
    UpdateStripeSubscriptionQuantity stripeSubscriptionId' stripeProductId' quantity
      ∈ updateWorkspacePerSeatSubscriptionUsage workspaceId' db ->
    exists workspace activeSubscription plan,
      findWorkspace db workspaceId' = Some workspace /\
      activeSubscription ∈ activeOf (workspace_id workspace) (subscriptions db) /\
      plan ∈ plans db /\ plan_id plan = planId activeSubscription /\
      billingType (attributes plan) = "per_seat" /\
      stripeSubscriptionId activeSubscription = Some stripeSubscriptionId' /\
      stripeProductId (attributes plan) = Some stripeProductId' /\
      truthy (stripeCustomerId activeSubscription) = true /\
      countActiveSeatsInWorkspace (workspace_sId workspace) = Ok quantity).
  { unfold updateWorkspacePerSeatSubscriptionUsage.
    destruct (findWorkspace db workspaceId') as [workspace|] eqn:Hw.
    2:{ intros Hin. apply list_elem_of_singleton in Hin. discriminate. }
    destruct (findActiveSubscriptionWithPlan db (workspace_id workspace)) as [[s plan]|]
      eqn:Hfind.
    2:{ intros Hin. apply list_elem_of_singleton in Hin. discriminate. }
    apply findActiveSubscriptionWithPlan_active in Hfind as (Hs & Hplan & Hid).
    destruct (String.eqb_spec (billingType (attributes plan)) "per_seat") as [Hb|Hb];
      cbn [negb]; [|intros Hin; now apply elem_of_nil in Hin].
    destruct (stripeSubscriptionId s) as [subId|] eqn:Hsub; cbn [orNull].
    2:{ intros Hin. apply list_elem_of_singleton in Hin. discriminate. }
    destruct (String.eqb subId "") eqn:Hsub'.
    { intros Hin. apply list_elem_of_singleton in Hin. discriminate. }
    destruct (orNull (stripeCustomerId s)) as [customer|] eqn:Hcust.
    2:{ intros Hin. apply list_elem_of_singleton in Hin. discriminate. }
    destruct (stripeProductId (attributes plan)) as [productId|] eqn:Hprod; cbn [orNull].
    2:{ intros Hin. apply list_elem_of_singleton in Hin. discriminate. }
    destruct (String.eqb productId "") eqn:Hprod'.
    { intros Hin. apply list_elem_of_singleton in Hin. discriminate. }
    destruct (countActiveSeatsInWorkspace (workspace_sId workspace)) as [seats|err] eqn:Hc.
    2:{ intros Hin. apply list_elem_of_singleton in Hin. discriminate. }
    intros Hin. apply elem_of_cons in Hin as [Hin|Hin].
    - injection Hin as -> -> ->. exists workspace, s, plan.
      do 7 (split; [assumption || reflexivity|]).
      split; [|first [assumption | reflexivity]]. unfold truthy. now rewrite Hcust.
    - destruct (updateStripeSubscriptionQuantity subId productId seats);
        [now apply elem_of_nil in Hin|].
      apply list_elem_of_singleton in Hin. discriminate. }
  split; [exact Hcalled|].
  intros now generateModelSId planCode workspace db0 rendered Hw Hone Hcall Hin.
  destruct (subscribed_without_stripe now generateModelSId workspaceId' planCode workspace
              db0 db rendered Hw Hone Hcall) as [Hw1 Hnone].
  destruct (Hcalled Hin) as (workspace' & s & plan & Hw' & Hs & _ & _ & _ & Hsub & _).
  assert (workspace' = workspace) by congruence. subst workspace'.
  rewrite (Hnone s Hs) in Hsub. discriminate.
Qed.

End PerSeat.

Section MonthlyActiveUsers.
Context `{Services}.

Lemma numberToString_not_empty (z : Z) : numberToString z <> "".
Proof.
  destruct (ZendeskKinds.numberToString_shape z) as (negative & body & -> & Hbody & _).
  destruct negative; [discriminate|]. now destruct body.
Qed.

(** X24. The monthly active users are reported at most once an hour.  When
    [updateWorkspacePerMonthlyActiveUsersSubscriptionUsage] has reported the
    usage of a workspace to Stripe and returned without an error, a call for
    that workspace within the next 3600 seconds, with any subscription,
    reports nothing to Stripe and leaves Redis as it is; with the same
    subscription it only closes its connection.  From 3600 seconds on, the
    same call reports again.  Whenever the connection to Redis was opened, the
    last thing a call does is to close it. *)
Theorem monthly_active_users_once_an_hour (now1 now2 : Z) (owner : WorkspaceType)
    (subscription other : SubscriptionType) (redis redis1 : Redis)
    (stripeSubscription : StripeSubscription) (quantity : Z) :
  updateWorkspacePerMonthlyActiveUsersSubscriptionUsage now1 owner subscription redis
  = ([UpdateStripeSubscriptionUsage stripeSubscription quantity; RedisQuit], redis1) ->
  (now1 <= now2 < now1 + 3600 ->
   updateWorkspacePerMonthlyActiveUsersSubscriptionUsage now2 owner subscription redis1
   = ([RedisQuit], redis1) /\
   snd (updateWorkspacePerMonthlyActiveUsersSubscriptionUsage now2 owner other redis1)
   = redis1 /\
   forall s q,
     UpdateStripeSubscriptionUsage s q
       ∉ fst (updateWorkspacePerMonthlyActiveUsersSubscriptionUsage now2 owner other redis1)) /\
  (now1 + 3600 <= now2 ->
   fst (updateWorkspacePerMonthlyActiveUsersSubscriptionUsage now2 owner subscription redis1)
   = [UpdateStripeSubscriptionUsage stripeSubscription quantity; RedisQuit]) /\
  (forall now redis0,
     last (fst (updateWorkspacePerMonthlyActiveUsersSubscriptionUsage now owner other redis0))
     = Some RedisQuit).
Proof.
  unfold updateWorkspacePerMonthlyActiveUsersSubscriptionUsage.
  destruct redisClient as [[]|err]; [|discriminate].
  destruct (String.eqb (plan_billingType (plan subscription)) "monthly_active_users");
    cbn [negb]; [|discriminate].
  destruct (orNull (sub_stripeSubscriptionId subscription)) as [subId|]; [|discriminate].
  destruct (orNull (sub_stripeCustomerId subscription)) as [customer|]; [|discriminate].
  destruct (orNull (plan_stripeProductId (plan subscription))) as [productId|];
    [|discriminate].
  set (redisKey := "workspace:usage:" +:+ owner_sId owner).
  destruct (truthy (redisGet now1 redisKey redis)); [discriminate|].
  destruct (getStripeSubscription subId) as [[found|]|err]; [|discriminate|discriminate].
  destruct (countActiveUsersInWorkspaceSince owner _) as [counted|err]; [|discriminate].
  destruct (updateStripeSubscriptionUsage found counted) as [[]|err]; [|discriminate].
  intros [= <- <- <-].
  assert (Hget : forall now, redisGet now redisKey
                   (redisSet now1 redisKey (numberToString counted) 3600 redis)
                 = if now <? now1 + 3600 then Some (numberToString counted) else None).
  { intros now. unfold redisGet, redisSet, Redis. now rewrite lookup_insert_eq. }
  assert (Hreported : forall now, now1 <= now < now1 + 3600 ->
             truthy (redisGet now redisKey
                       (redisSet now1 redisKey (numberToString counted) 3600 redis)) = true).
  { intros now Hnow. rewrite Hget. destruct (Z.ltb_spec now (now1 + 3600)); [|lia].
    unfold truthy. cbn [orNull].
    destruct (String.eqb_spec (numberToString counted) "") as [He|_]; [|reflexivity].
    now apply numberToString_not_empty in He. }
  split; [|split].
  - intros Hnow. rewrite (Hreported now2 Hnow). split; [reflexivity|].
    destruct (negb (String.eqb (plan_billingType (plan other)) "monthly_active_users")).
    { split; [reflexivity|]. intros s q Hin. apply list_elem_of_singleton in Hin.
      discriminate. }
    destruct (orNull (sub_stripeSubscriptionId other)) as [subId'|],
             (orNull (sub_stripeCustomerId other)) as [customer'|],
             (orNull (plan_stripeProductId (plan other))) as [productId'|];
      cbn [fst snd]; (split; [reflexivity|]); intros s q Hin;
      repeat (apply elem_of_cons in Hin as [Hin|Hin]; [discriminate|]);
      now apply elem_of_nil in Hin.
  - intros Hnow. rewrite Hget. destruct (Z.ltb_spec now2 (now1 + 3600)); [lia|].
    reflexivity.
  - intros now redis0.
    destruct (negb (String.eqb (plan_billingType (plan other)) "monthly_active_users"));
      [reflexivity|].
    destruct (orNull (sub_stripeSubscriptionId other)) as [subId'|]; [|reflexivity].
    destruct (orNull (sub_stripeCustomerId other)); [|reflexivity].
    destruct (orNull (plan_stripeProductId (plan other))); [|reflexivity].
    destruct (truthy (redisGet now _ redis0)); [reflexivity|].
    destruct (getStripeSubscription subId') as [[found'|]|err]; try reflexivity.
    destruct (countActiveUsersInWorkspaceSince owner _) as [counted'|err]; [|reflexivity].
    destruct (updateStripeSubscriptionUsage found' counted') as [[]|err]; reflexivity.
Qed.

End MonthlyActiveUsers.

(** Stripe and Redis for the examples: three active seats, twelve active
    users, and calls that succeed. *)
Definition sampleUsage : Services :=
  {| StripeSubscription := Z;
     current_period_start := fun stripeSubscription => stripeSubscription;
     countActiveSeatsInWorkspace := fun _ => Ok 3;
     updateStripeSubscriptionQuantity := fun _ _ _ => Ok tt;
     getStripeSubscription := fun _ => Ok (Some 1700000000);
     countActiveUsersInWorkspaceSince := fun _ _ => Ok 12;
     updateStripeSubscriptionUsage := fun _ _ => Ok tt;
     redisClient := Ok tt |}.

Definition enterpriseSubscription : SubscriptionType :=
  renderSubscriptionFromModels (planData "ENT_PLAN" "monthly_active_users" (Some "prod_e"))
    (Some paidSubscription).

Lemma per_seat_usage_needs_a_stripe_subscription_witness :
  @UpdateStripeSubscriptionQuantity sampleUsage "si_1" "prod_1" 3
    ∈ @updateWorkspacePerSeatSubscriptionUsage sampleUsage "w1" (sampleDatabase samplePlans) /\
  exists rendered db1,
    @internalSubscribeWorkspaceToFreeTestPlan sampleCodes 2000 "sub2" "w1"
      (sampleDatabase samplePlans) = Ok (rendered, db1) /\
    @UpdateStripeSubscriptionQuantity sampleUsage "si_1" "prod_1" 3
      ∉ @updateWorkspacePerSeatSubscriptionUsage sampleUsage "w1" db1.
Proof.
  split; [apply list_elem_of_here|].
  destruct (@internalSubscribeWorkspaceToFreeTestPlan sampleCodes 2000 "sub2" "w1"
              (sampleDatabase samplePlans)) as [[rendered db1]|e] eqn:E;
    [|vm_compute in E; discriminate E].
  exists rendered, db1. split; [reflexivity|].
  apply (proj2 (@per_seat_usage_needs_a_stripe_subscription sampleUsage sampleCodes "w1" db1
                  "si_1" "prod_1" 3)
           2000 "sub2" None sampleWorkspace (sampleDatabase samplePlans) rendered eq_refl
           (sample_atMostOneActive samplePlans)).
  right. left. exact E.
Defined.

Lemma monthly_active_users_once_an_hour_witness :
  let owner := {| owner_sId := "w1" |} in
  let redis1 : Redis := redisSet 1000 "workspace:usage:w1" "12" 3600 ∅ in
  @updateWorkspacePerMonthlyActiveUsersSubscriptionUsage sampleUsage 1000 owner
    enterpriseSubscription ∅
  = ([@UpdateStripeSubscriptionUsage sampleUsage 1700000000 12; RedisQuit], redis1) /\
  @updateWorkspacePerMonthlyActiveUsersSubscriptionUsage sampleUsage 2000 owner
    enterpriseSubscription redis1
  = ([RedisQuit], redis1) /\
  fst (@updateWorkspacePerMonthlyActiveUsersSubscriptionUsage sampleUsage 4600 owner
         enterpriseSubscription redis1)
  = [@UpdateStripeSubscriptionUsage sampleUsage 1700000000 12; RedisQuit].
Proof.
  intros owner redis1.
  assert (Hfirst :
    @updateWorkspacePerMonthlyActiveUsersSubscriptionUsage sampleUsage 1000 owner
      enterpriseSubscription ∅
    = ([@UpdateStripeSubscriptionUsage sampleUsage 1700000000 12; RedisQuit], redis1))
    by reflexivity.
  split; [exact Hfirst|]. split.
  - apply (proj1 (@monthly_active_users_once_an_hour sampleUsage 1000 2000 owner
                    enterpriseSubscription enterpriseSubscription ∅ redis1 1700000000 12
                    Hfirst)).
    lia.
  - apply (proj1 (proj2 (@monthly_active_users_once_an_hour sampleUsage 1000 4600 owner
                           enterpriseSubscription enterpriseSubscription ∅ redis1
                           1700000000 12 Hfirst))).
    lia.
Defined.

End SubscriptionUsageSpec.

(** ** Uploading the content of the current tab *)

Module ContentTabSpec.
Import JS FileUploader FileUploaderSpec FileUploaderCalls ContentTab.

Section Tab.
Context `{Client}.
Variable dustAPI : DustAPI.
Variable closure : State.
Variable getIncludeCurrentTab :
  forall includeContent includeCapture : option bool, option (Result TabContent string).

(** The uploads of a call of [handleFilesUpload]. *)
Lemma handleFilesUpload_uploads (files : list File) (updateBlobs : option bool)
    (st : State) (log : list Effect) :
  uploadsOf (snd (snd (handleFilesUpload dustAPI closure files updateBlobs (st, log))))
  = uploadsOf log
    ++ (if tooLarge closure files then []
        else map paramsOf (map newBlob (newFiles closure files))).
Proof.
  rewrite handleFilesUpload_run. destruct (tooLarge closure files); cbv zeta; cbn [fst snd].
  - now rewrite uploadsOf_app.
  - rewrite oks_previews, !uploadsOf_app.
    rewrite (uploadsOf_notifications
               (fun f => {| notification_type := "error"; title := "File already exists.";
                            description := "File " +:+ dquote +:+ name f +:+ dquote
                                           +:+ " is already uploaded." |})).
    rewrite (uploadsOf_notifications
               (fun error => {| notification_type := "error";
                                title := "Failed to upload file.";
                                description := message error |}) (errs (previews _ _))).
    rewrite (uploadsOf_notifications
               (fun error => {| notification_type := "error";
                                title := "Failed to upload file.";
                                description := message error |})).
    now rewrite uploadsOf_uploads, app_nil_r.
Qed.

(** The file that [uploadContentTab] makes of the tab. *)
Definition tabFile (tabContent : TabContent) (content' : string) : File :=
  {| name := tab_title tabContent +:+ ".txt";
     type := "text/plain";
     file_size := blobSize content' |}.

(** The conversation shows, as the last version of a message, a content
    fragment with the title and the size of the file. *)
Definition shows (conversation : ConversationPublicType) (file : File) : Prop :=
  exists versions,
    versions ∈ content conversation /\
    last versions = Some (content_fragment (name file) (Some (file_size file))).

Lemma some_shown (p : ConversationMessage -> bool) (messages : list (list ConversationMessage)) :
  Forall (fun versions => versions <> []) messages ->
  (exists versions m, versions ∈ messages /\ last versions = Some m /\ p m = true) ->
  some p (map (@last ConversationMessage) messages) = Returned true.
Proof.
  intros Hne (versions & m & Hin & Hlast & Hp).
  induction Hne as [|v messages Hv _ IH]; [now apply elem_of_nil in Hin|].
  cbn [map some]. destruct (last v) as [m'|] eqn:Hv'.
  - destruct (p m') eqn:Hp'; [reflexivity|].
    apply elem_of_cons in Hin as [->|Hin]; [congruence | now apply IH].
  - apply last_None in Hv'. contradiction.
Qed.


End Tab.

(** A tab whose text has five bytes, and a conversation that shows a content
    fragment of that title and that size. *)
Definition sampleTab (text : string) : option (Result TabContent string) :=
  Some (Ok {| tab_title := "Docs"; tab_content := Some text; tab_screenshot := None |}).

Definition sampleShown : ConversationPublicType :=
  {| content := [[other_message]; [content_fragment "Docs.txt" None;
                                   content_fragment "Docs.txt" (Some 5)]] |}.


End ContentTabSpec.

(** ** front: the list of workspaces of the poke API *)

Module PokeWorkspacesSpec.
Import JS Subscription ApiWrappers PokeWorkspaces SubscriptionSpec.

Section Sorting.
Context {A : Type}.
Variable key : A -> Z.

(** The keys do not decrease along the list. *)
Fixpoint ordered (l : list A) : Prop :=
  match l with
  | [] => True
  | x :: rest => Forall (fun y => key x <= key y) rest /\ ordered rest
  end.

Lemma insertByKey_Permutation (x : A) (l : list A) : insertByKey key x l ≡ₚ x :: l.
Proof.
  induction l as [|y l IH]; simpl; [reflexivity|].
  destruct (key y <=? key x); [|reflexivity].
  rewrite IH. apply Permutation_swap.
Qed.

Lemma insertByKey_ordered (x : A) (l : list A) :
  ordered l -> ordered (insertByKey key x l).
Proof.
  induction l as [|y l IH]; simpl.
  - intros _. split; [constructor | exact I].
  - intros [Hy Hl]. destruct (Z.leb_spec (key y) (key x)) as [Hle|Hlt]; simpl.
    + split; [|now apply IH].
      rewrite insertByKey_Permutation. now constructor.
    + repeat split; [|exact Hy|exact Hl].
      constructor; [lia|]. eapply Forall_impl; [exact Hy|]. simpl. intros; lia.
Qed.

Lemma sortByKey_Permutation (l : list A) : sortByKey key l ≡ₚ l.
Proof.
  unfold sortByKey. rewrite <- (reverse_Permutation l) at 2.
  induction (reverse l) as [|x r IH]; simpl; [reflexivity|].
  now rewrite insertByKey_Permutation, IH.
Qed.

Lemma sortByKey_ordered (l : list A) : ordered (sortByKey key l).
Proof.
  unfold sortByKey. induction (reverse l) as [|x r IH]; simpl; [exact I|].
  now apply insertByKey_ordered.
Qed.

(** The first [n] elements of an ordered list have the [n] least keys. *)
Lemma ordered_take_drop (n : nat) (l : list A) :
  ordered l ->
  ordered (take n l) /\
  forall k r, k ∈ take n l -> r ∈ drop n l -> key k <= key r.
Proof.
  revert n. induction l as [|x l IH]; intros n Hl.
  - rewrite take_nil, drop_nil. split; [exact I|]. intros k r Hk. inversion Hk.
  - destruct n as [|n]; simpl.
    + split; [exact I|]. intros k r Hk. inversion Hk.
    + destruct Hl as [Hx Hl]. destruct (IH n Hl) as [Ht Hd]. split.
      * split; [|exact Ht]. rewrite Forall_forall in Hx |- *.
        intros y Hy. apply Hx. apply elem_of_take in Hy as (i & Hi & _).
        eapply list_elem_of_lookup_2, Hi.
      * intros k r Hk Hr. apply elem_of_cons in Hk as [->|Hk]; [|now apply Hd].
        rewrite Forall_forall in Hx. apply Hx.
        apply list_elem_of_lookup in Hr as [i Hi]. rewrite lookup_drop in Hi.
        eapply list_elem_of_lookup_2, Hi.
Qed.

End Sorting.

(** [parseInt(s, 10)] is not negative. *)
Lemma digitsPrefix_nonneg (radix : Z) (s : string) :
  Forall (fun d => 0 <= d) (digitsPrefix radix s).
Proof.
  induction s as [|c s IH]; simpl; [constructor|].
  destruct (digitValue radix c) as [d|] eqn:Hd; [|constructor].
  constructor; [|exact IH]. unfold digitValue in Hd.
  repeat match type of Hd with
         | context [if ?b then _ else _] => destruct b eqn:?
         end; try discriminate; injection Hd as <-; lia.
Qed.

Lemma digitsValue_nonneg (ds : list Z) (acc : Z) :
  0 <= acc -> Forall (fun d => 0 <= d) ds -> 0 <= digitsValue 10 acc ds.
Proof.
  unfold digitsValue. revert acc.
  induction ds as [|d ds IH]; simpl; intros acc Hacc Hds; [exact Hacc|].
  inversion Hds; subst. apply IH; [lia | assumption].
Qed.

Lemma parseInt10_nonneg (s : string) : 0 <= parseInt10 s.
Proof. apply digitsValue_nonneg; [lia | apply digitsPrefix_nonneg]. Qed.

Section Listing.
Context `{Services} `{PlanCodes}.

Definition planPriority (ws : WorkspaceModel) : Z := getPlanPriority (code (ws_plan ws)).

Lemma originalLimit_nonneg (req : PokeRequest) (limit' : Z) :
  originalLimit req = Some limit' -> 0 <= limit'.
Proof.
  unfold originalLimit. destruct (query_limit req) as [|s|l]; [| |discriminate].
  - intros [= <-]. lia.
  - destruct (allDigits s); [|discriminate]. intros [= <-]. apply parseInt10_nonneg.
Qed.

(** What the handler has done when it answers with a list. *)
Lemma handler_lists (db : Database) (req : PokeRequest) (body : list PokeWorkspaceType) :
  handler db req = answerWorkspaces body ->
  exists term upgraded limit',
    searchTerm req = Some term /\
    listUpgraded req = Some upgraded /\
    originalLimit req = Some limit' /\
    body =
      renderWorkspace
      <$> match orNull term with
          | Some term' =>
              let found :=
                findAllWorkspaces (upgradedConditions db upgraded ++ searchConditions term')
                  100 in
              if limit' <? 100
              then take (Z.to_nat limit') (sortByKey planPriority found)
              else found
          | None => findAllWorkspaces (upgradedConditions db upgraded) limit'
          end.
Proof.
  unfold handler.
  destruct (negb (isDustSuperUser _)); [discriminate|].
  destruct (String.eqb (method _) "GET"); [|discriminate].
  destruct (searchTerm req) as [term|]; [|discriminate].
  destruct (listUpgraded req) as [upgraded|]; [|discriminate].
  destruct (originalLimit req) as [limit'|]; [|discriminate].
  intros Hbody. exists term, upgraded, limit'. repeat split.
  destruct (orNull term) as [term'|]; simpl in Hbody |- *.
  - injection Hbody as <-. reflexivity.
  - rewrite Z.ltb_irrefl in Hbody. injection Hbody as <-. reflexivity.
Qed.

(** X26. A search is cut to the [limit] of the request, after the database
    was asked for 100 workspaces: when the handler answers a request with a
    search term that is not empty (decoded and trimmed), it has asked
    [Workspace.findAll] for 100 rows with the search conditions as the last
    ones.  With a [limit] below 100, it answers with [min limit found] of the
    rows found, those of least plan priority, in the order of their priority;
    with a [limit] of 100 or more, with all the rows found, in the order of
    the database.  Without [limit] the answer is empty, whatever was found. *)
Theorem search_is_cut_to_the_limit (db : Database) (req : PokeRequest) (term : string)
    (body : list PokeWorkspaceType) :
  searchTerm req = Some (Some term) ->
  term <> "" ->
  handler db req = answerWorkspaces body ->
  exists (limit' : Z) (found kept rest : list WorkspaceModel),
    originalLimit req = Some limit' /\ 0 <= limit' /\
    (exists conditions,
       found = findAllWorkspaces (conditions ++ searchConditions term) 100) /\
    body = renderWorkspace <$> kept /\
    (100 <= limit' -> kept = found) /\
    (limit' < 100 ->
       found ≡ₚ kept ++ rest /\
       length kept = Nat.min (Z.to_nat limit') (length found) /\
       ordered planPriority kept /\
       (forall k r, k ∈ kept -> r ∈ rest -> planPriority k <= planPriority r)) /\
    (query_limit req = Undefined -> body = []).
Proof.
  intros Hterm Hne Hbody.
  destruct (handler_lists db req body Hbody) as (term' & upgraded & limit' & Ht & _ & Hl & ->).
  rewrite Hterm in Ht. injection Ht as <-.
  assert (orNull (Some term) = Some term) as ->.
  { simpl. destruct (String.eqb_spec term ""); [contradiction | reflexivity]. }
  cbv zeta.
  set (found := findAllWorkspaces (upgradedConditions db upgraded ++ searchConditions term) 100).
  pose proof (originalLimit_nonneg req limit' Hl) as Hpos.
  destruct (Z.ltb_spec limit' 100) as [Hlt|Hge].
  - set (sorted := sortByKey planPriority found).
    exists limit', found, (take (Z.to_nat limit') sorted), (drop (Z.to_nat limit') sorted).
    destruct (ordered_take_drop planPriority (Z.to_nat limit') sorted
                (sortByKey_ordered planPriority found)) as [Hord Hleast].
    split; [exact Hl|]. split; [exact Hpos|].
    split; [now exists (upgradedConditions db upgraded)|].
    split; [reflexivity|]. split; [lia|]. split.
    + intros _. split; [|split; [|split]].
      * rewrite take_drop. symmetry. apply sortByKey_Permutation.
      * rewrite length_take. f_equal. subst sorted.
        now rewrite (sortByKey_Permutation planPriority found).
      * exact Hord.
      * exact Hleast.
    + intros Hundef. unfold originalLimit in Hl. rewrite Hundef in Hl.
      injection Hl as <-. reflexivity.
  - exists limit', found, found, [].
    split; [exact Hl|]. split; [exact Hpos|].
    split; [now exists (upgradedConditions db upgraded)|].
    split; [reflexivity|]. split; [reflexivity|]. split; [lia|].
    intros Hundef. unfold originalLimit in Hl. rewrite Hundef in Hl.
    injection Hl as <-. lia.
Qed.

(** The rows of an answer are rows that [Workspace.findAll] has returned for
    conditions that begin with those of [upgraded]. *)
Lemma listed_found (db : Database) (req : PokeRequest) (body : list PokeWorkspaceType)
    (upgraded : option bool) (p : PokeWorkspaceType) :
  handler db req = answerWorkspaces body ->
  listUpgraded req = Some upgraded ->
  p ∈ body ->
  exists ws conditions limit,
    p = renderWorkspace ws /\
    ws ∈ findAllWorkspaces (upgradedConditions db upgraded ++ conditions) limit.
Proof.
  intros Hbody Hup Hp.
  destruct (handler_lists db req body Hbody) as (term & upgraded' & limit' & _ & Hu & _ & ->).
  rewrite Hup in Hu. injection Hu as <-.
  apply list_elem_of_fmap in Hp as (ws & -> & Hws).
  exists ws. destruct (orNull term) as [term'|].
  - exists (searchConditions term'), 100. split; [reflexivity|].
    cbv zeta in Hws. destruct (limit' <? 100); [|exact Hws].
    apply elem_of_take in Hws as (i & Hi & _).
    apply list_elem_of_lookup_2 in Hi.
    now rewrite (sortByKey_Permutation planPriority) in Hi.
  - exists [], limit'. split; [reflexivity|]. now rewrite app_nil_r.
Qed.

(** The workspaces that [upgraded] selects. *)
Lemma upgradedWorkspaceIds_elem (db : Database) (wId : Z) :
  wId ∈ upgradedWorkspaceIds db <->
  exists s p,
    s ∈ Subscription.subscriptions db /\ workspaceId s = wId /\ status s = active /\
    p ∈ plans db /\ plan_id p = planId s /\ code (attributes p) <> FREE_TEST_PLAN_CODE.
Proof.
  unfold upgradedWorkspaceIds. rewrite list_elem_of_fmap. split.
  - intros (s & -> & Hs). apply list_elem_of_filter in Hs as [[Hact Hex] Hs].
    apply Exists_exists in Hex as (p & Hp & Hid & Hcode).
    exists s, p. repeat split; assumption.
  - intros (s & p & Hs & <- & Hact & Hp & Hid & Hcode).
    exists s. split; [reflexivity|]. apply list_elem_of_filter. split; [|exact Hs].
    split; [exact Hact|]. apply Exists_exists. exists p. repeat split; assumption.
Qed.

Lemma activeOf_elem (wId : Z) (table : list SubscriptionRow) (s : SubscriptionRow) :
  s ∈ table -> workspaceId s = wId -> status s = active -> s ∈ activeOf wId table.
Proof.
  intros Hs Hw Hact. unfold activeOf. apply list_elem_of_filter. now repeat split.
Qed.

Lemma plan_of_id (plans' : list Plan) (p q : Plan) :
  NoDup (plan_id <$> plans') -> p ∈ plans' -> q ∈ plans' -> plan_id p = plan_id q -> p = q.
Proof.
  intros Hnd Hp Hq Hid.
  apply list_elem_of_lookup in Hp as [i Hi]. apply list_elem_of_lookup in Hq as [j Hj].
  assert (i = j) as ->; [|congruence].
  eapply NoDup_lookup; [exact Hnd| |]; rewrite list_lookup_fmap.
  - rewrite Hi. reflexivity.
  - rewrite Hj. simpl. now rewrite Hid.
Qed.

End Listing.

(** A row satisfies a condition on its [id]. *)
Definition satisfies (condition : WhereOption) (ws : WorkspaceModel) : Prop :=
  match condition with
  | id_in ids => ws_id ws ∈ ids
  | id_notIn ids => ws_id ws ∉ ids
  | id_is id' => ws_id ws = id'
  | sId_or_name_iLike _ => True
  end.

Section Upgraded.
Context `{Services} `{PlanCodes}.
Variable now : Z.
Variable generateModelSId : string.

(** The database returns rows that satisfy the conditions on their [id]. *)
Definition findAllObeys : Prop :=
  forall conditions limit ws,
    ws ∈ findAllWorkspaces conditions limit ->
    Forall (fun condition => satisfies condition ws) conditions.

(** Some request with the given value of [upgraded] is answered with a list
    that has the workspace. *)
Definition lists (db : Database) (upgraded : string) (wId : Z) : Prop :=
  exists req body p,
    query_upgraded req = Single upgraded /\
    handler db req = answerWorkspaces body /\
    p ∈ body /\ light_id (lightWorkspace p) = wId.

Lemma lists_condition (db : Database) (upgraded : string) (wId : Z) (flag : bool) :
  findAllObeys ->
  (String.eqb upgraded "true" || String.eqb upgraded "false" = true) ->
  String.eqb upgraded "true" = flag ->
  lists db upgraded wId ->
  exists ws, ws_id ws = wId /\
             Forall (fun condition => satisfies condition ws)
                    (upgradedConditions db (Some flag)).
Proof.
  intros Hobeys Hvalid Hflag (req & body & p & Hq & Hbody & Hp & Hid).
  assert (listUpgraded req = Some (Some flag)) as Hup.
  { unfold listUpgraded. now rewrite Hq, Hvalid, Hflag. }
  destruct (listed_found db req body _ p Hbody Hup Hp) as (ws & conds & limit & -> & Hws).
  exists ws. split; [exact Hid|].
  apply Hobeys in Hws. now apply Forall_app in Hws as [Hws _].
Qed.

Lemma lists_upgraded (db : Database) (wId : Z) :
  findAllObeys -> lists db "true" wId -> wId ∈ upgradedWorkspaceIds db.
Proof.
  intros Hobeys Hl.
  destruct (lists_condition db "true" wId true Hobeys eq_refl eq_refl Hl) as (ws & <- & Hc).
  simpl in Hc. now inversion Hc.
Qed.

Lemma lists_not_upgraded (db : Database) (wId : Z) :
  findAllObeys -> lists db "false" wId -> wId ∉ upgradedWorkspaceIds db.
Proof.
  intros Hobeys Hl.
  destruct (lists_condition db "false" wId false Hobeys eq_refl eq_refl Hl) as (ws & <- & Hc).
  simpl in Hc. now inversion Hc.
Qed.

(** X27. The filter [upgraded] of the poke list follows the subscriptions:
    for a workspace with at most one active subscription, in a database whose
    plans have distinct ids and whose [findAll] returns rows satisfying the
    conditions on their id, once [internalSubscribeWorkspaceToFreeNoPlan] or
    [internalSubscribeWorkspaceToFreeTestPlan] has completed, no request with
    [upgraded=true] is answered with that workspace; once
    [internalSubscribeWorkspaceToFreeUpgradedPlan] has completed for a plan
    code other than [FREE_TEST_PLAN_CODE], no request with [upgraded=false]
    is answered with it. *)
Theorem upgraded_filter_follows_subscriptions (workspaceId' : string)
    (workspace : Workspace) (db : Database) :
  findAllObeys ->
  findWorkspace db workspaceId' = Some workspace ->
  NoDup (plan_id <$> plans db) ->
  atMostOneActive (workspace_id workspace) (Subscription.subscriptions db) ->
  (forall sub db',
     internalSubscribeWorkspaceToFreeNoPlan now workspaceId' db = Ok (sub, db') ->
     ~ lists db' "true" (workspace_id workspace)) /\
  (forall sub db',
     internalSubscribeWorkspaceToFreeTestPlan now generateModelSId workspaceId' db
     = Ok (sub, db') ->
     ~ lists db' "true" (workspace_id workspace)) /\
  (forall planCode sub db',
     default FREE_UPGRADED_PLAN_CODE planCode <> FREE_TEST_PLAN_CODE ->
     internalSubscribeWorkspaceToFreeUpgradedPlan now generateModelSId workspaceId'
       planCode db = Ok (sub, db') ->
     ~ lists db' "false" (workspace_id workspace)).
Proof.
  intros Hobeys Hw Hnd Hone.
  pose proof (activeOf_endActive (workspace_id workspace) now _ Hone) as Hnone.
  split; [|split].
  - intros sub db' Hcall Hl. apply (lists_upgraded _ _ Hobeys) in Hl.
    unfold internalSubscribeWorkspaceToFreeNoPlan in Hcall. rewrite Hw in Hcall.
    injection Hcall as _ <-.
    apply upgradedWorkspaceIds_elem in Hl as (s & _ & Hs & Hws & Hact & _).
    simpl in Hs. pose proof (activeOf_elem _ _ s Hs Hws Hact) as Hin.
    rewrite Hnone in Hin. now apply elem_of_nil in Hin.
  - intros sub db' Hcall Hl. apply (lists_upgraded _ _ Hobeys) in Hl.
    unfold internalSubscribeWorkspaceToFreeTestPlan in Hcall. rewrite Hw in Hcall.
    destruct (findPlan db FREE_TEST_PLAN_CODE) as [plan|] eqn:Hplan; [|discriminate].
    injection Hcall as _ <-.
    apply upgradedWorkspaceIds_elem in Hl as (s & p & Hs & Hws & Hact & Hp & Hid & Hcode).
    simpl in Hs, Hp. apply elem_of_app in Hs as [Hs|Hs].
    + pose proof (activeOf_elem _ _ s Hs Hws Hact) as Hin.
      rewrite Hnone in Hin. now apply elem_of_nil in Hin.
    + apply list_elem_of_singleton in Hs. subst s. simpl in Hid.
      apply Hcode. rewrite (plan_of_id (plans db) p plan Hnd Hp); [| |exact Hid].
      * exact (findPlan_code db _ plan Hplan).
      * apply find_some in Hplan as [Hin _]. now apply list_elem_of_In.
  - intros planCode sub db' Hcode Hcall Hl. apply (lists_not_upgraded _ _ Hobeys) in Hl.
    apply Hl. clear Hl.
    unfold internalSubscribeWorkspaceToFreeUpgradedPlan in Hcall. rewrite Hw in Hcall.
    destruct (findPlan db _) as [plan|] eqn:Hplan; [|discriminate].
    destruct (match findActiveSubscription _ _ with Some _ => _ | None => _ end);
      [discriminate|].
    injection Hcall as _ <-.
    apply upgradedWorkspaceIds_elem.
    eexists _, plan. simpl. split; [apply elem_of_app; right; apply list_elem_of_singleton; reflexivity|].
    simpl. repeat split.
    + apply find_some in Hplan as [Hin _]. now apply list_elem_of_In.
    + now rewrite (findPlan_code db _ plan Hplan).
Qed.

End Upgraded.

(** Two workspaces, the second on the free test plan, and a session of a
    super user. *)
Definition sampleRows : list WorkspaceModel :=
  [ {| ws_id := 2; ws_sId := "w2"; ws_name := "wide"; ws_segmentation := None;
       ws_whiteListedProviders := None; ws_defaultEmbeddingProvider := None;
       ws_createdAt := 2000; ws_upgradedAt := None;
       ws_subscription :=
         {| Subscription.sId := "sub0"; workspaceId := 2; planId := 1; status := active;
            startDate := Some 500; endDate := None; stripeCustomerId := None;
            stripeSubscriptionId := None; paymentFailingSince := None |};
       ws_plan := planData "FREE_TEST_PLAN" "free" None |};
    {| ws_id := 1; ws_sId := "w1"; ws_name := "west"; ws_segmentation := None;
       ws_whiteListedProviders := None; ws_defaultEmbeddingProvider := None;
       ws_createdAt := 1000; ws_upgradedAt := Some 1500;
       ws_subscription := paidSubscription;
       ws_plan := planData "PRO_PLAN_SEAT_29" "per_seat" (Some "prod_1") |} ].

Definition satisfiesb (ws : WorkspaceModel) (condition : WhereOption) : bool :=
  match condition with
  | id_in ids => bool_decide (ws_id ws ∈ ids)
  | id_notIn ids => bool_decide (ws_id ws ∉ ids)
  | id_is id' => bool_decide (ws_id ws = id')
  | sId_or_name_iLike _ => true
  end.

Definition sampleServices : @Services ApiWrappersSpec.sampleLib :=
  @Build_Services ApiWrappersSpec.sampleLib string string string
    (fun session => match session with Some _ => true | None => false end)
    (fun s => Some s)
    (fun s => s)
    (fun _ => false)
    (fun _ => false)
    (fun _ => [])
    (fun _ => [])
    (fun _ => None)
    (fun planCode => String.prefix "ENT_" planCode)
    (fun _ => false)
    (fun planCode => String.prefix "PRO_PLAN" planCode)
    (fun planCode => String.eqb planCode "FREE_TEST_PLAN")
    (fun _ => false)
    (fun conditions limit => List.filter (fun ws => forallb (satisfiesb ws) conditions) sampleRows)
    (fun _ => [])
    (fun _ => [])
    (fun _ => None)
    (fun _ => 1)
    (fun _ => None)
    (fun _ => "1970-01-01T00:00:00.000Z").

Definition sampleRequest (search limit : ParamValue) : PokeRequest :=
  {| request := ApiWrappersSpec.request Undefined (Single "session");
     query_search := search;
     query_upgraded := Undefined;
     query_limit := limit |}.

Lemma sample_findAllObeys : @findAllObeys ApiWrappersSpec.sampleLib sampleServices.
Proof.
  intros conditions limit ws Hws.
  change (ws ∈ List.filter (fun ws => forallb (satisfiesb ws) conditions) sampleRows) in Hws.
  apply list_elem_of_In, filter_In in Hws as [_ Hall].
  rewrite forallb_forall in Hall. apply Forall_forall. intros c Hc.
  apply list_elem_of_In, Hall in Hc.
  destruct c; simpl in *; try exact I; now apply bool_decide_eq_true in Hc.
Qed.

#[local] Existing Instances ApiWrappersSpec.sampleLib sampleServices sampleCodes.

Lemma search_is_cut_to_the_limit_witness :
  exists body,
    handler (sampleDatabase samplePlans) (sampleRequest (Single "w") (Single "1"))
    = answerWorkspaces body /\
    length body = 1%nat /\
    exists (limit' : Z) (found kept rest : list WorkspaceModel),
      originalLimit (sampleRequest (Single "w") (Single "1")) = Some limit' /\ 0 <= limit' /\
      (exists conditions,
         found = findAllWorkspaces (conditions ++ searchConditions "w") 100) /\
      body = renderWorkspace <$> kept /\
      (100 <= limit' -> kept = found) /\
      (limit' < 100 ->
         found ≡ₚ kept ++ rest /\
         length kept = Nat.min (Z.to_nat limit') (length found) /\
         ordered planPriority kept /\
         (forall k r, k ∈ kept -> r ∈ rest -> planPriority k <= planPriority r)) /\
      (query_limit (sampleRequest (Single "w") (Single "1")) = Undefined -> body = []).
Proof.
  eexists. split; [vm_compute; reflexivity|]. split; [reflexivity|].
  apply (search_is_cut_to_the_limit (sampleDatabase samplePlans)
           (sampleRequest (Single "w") (Single "1")) "w").
  - reflexivity.
  - discriminate.
  - vm_compute. reflexivity.
Defined.

Lemma upgraded_filter_follows_subscriptions_witness :
  findWorkspace (sampleDatabase samplePlans) "w1" = Some sampleWorkspace /\
  (forall sub db',
     internalSubscribeWorkspaceToFreeTestPlan 2000 "sub2" "w1" (sampleDatabase samplePlans)
     = Ok (sub, db') ->
     ~ lists db' "true" 1).
Proof.
  split; [reflexivity|].
  apply (upgraded_filter_follows_subscriptions 2000 "sub2" "w1" sampleWorkspace
           (sampleDatabase samplePlans)).
  - exact sample_findAllObeys.
  - reflexivity.
  - apply (bool_decide_unpack _). vm_compute. exact I.
  - apply sample_atMostOneActive.
Defined.

End PokeWorkspacesSpec.
